(** * Titoland: the world engine, the action catalog and the agent loop

    A shallow embedding of [game.ts], [tools.ts], [agent.ts] and the
    start/stop/reset handlers of [main.ts], followed by the properties
    the specification states about them.

    Conventions of the embedding.
    - JavaScript numbers that the program only ever uses as integers
      (coordinates, resource amounts, inventory counts, the iteration
      counter) are [Z]; the two agree as long as the magnitudes stay
      below 2^53, the range in which double precision is exact.
    - The pseudo random value of [generateTile] is computed over [Q]
      with the very formula of the source; [Math.sin] is a host function
      and is a variable of the development.
    - A string is the sequence of bytes of its UTF-8 encoding.
    - The inventory, an object used as a dictionary, is a [gmap] from
      keys to the primitive values the program stores; reading a key the
      object does not own answers the member of that name inherited
      from [Object.prototype], as in JavaScript.  The recipe tables,
      object literals, are association lists in the order of the
      literal, read with the same inheritance.  The order in which
      JavaScript enumerates the keys of the inventory is not recorded:
      two inventories with the same entries are equal.
    - The log is the sequence of calls the [onLog] callback received.
    - The grid [Tile[][]] is a [list (list Tile)] indexed [grid[y][x]];
      a tile mutated in place through a reference obtained from the grid
      is written back at its coordinates.
    - Methods that mutate [this] take the state and return the new one. *)

From Stdlib Require Import ZArith QArith Qround String Ascii DecimalString.
From stdpp Require Import gmap strings list fin_maps.

Open Scope string_scope.
Open Scope Z_scope.

(** ** types.ts *)

Inductive TerrainType := grass | forest | mountain | water | desert.
Inductive ResourceType := wood | stone | sand | food.
Inductive Direction := north | south | east | west.

#[global] Instance TerrainType_eq_dec : EqDecision TerrainType.
Proof. solve_decision. Defined.
#[global] Instance ResourceType_eq_dec : EqDecision ResourceType.
Proof. solve_decision. Defined.

(** The string a [ResourceType] value is at run time. *)
Definition resource_name (r : ResourceType) : string :=
  match r with
  | wood => "wood" | stone => "stone" | sand => "sand" | food => "food"
  end.

Definition direction_name (d : Direction) : string :=
  match d with
  | north => "north" | south => "south" | east => "east" | west => "west"
  end.

Record Position := mkPosition { pos_x : Z; pos_y : Z }.

Record Tile := mkTile {
  terrain : TerrainType;
  resource : option ResourceType;
  resourceAmount : option Z;
  structure : option string
}.

(** What the program stores under a key of the inventory: a number;
    [NaN]; or the string that [+=] makes of a member inherited from
    [Object.prototype], which is the text of that member followed by
    the renderings of the amounts added since. *)
Inductive Primitive :=
| PNumber (n : Z)
| PNaN
| PText (member added : string).

(** What reading a key of an object answers: a value the object owns,
    the member of that name inherited from [Object.prototype], or
    [undefined]. *)
Inductive JSValue :=
| Prim (p : Primitive)
| Member (name : string)
| Undefined.

#[global] Instance Primitive_eq_dec : EqDecision Primitive.
Proof. solve_decision. Defined.

Record AgentState := mkAgentState {
  position : Position;
  inventory : gmap string Primitive;
  isActive : bool
}.

Record GameWorld := mkGameWorld {
  world_size : Z;
  grid : list (list Tile);
  agent : AgentState
}.

Record TileInfo := mkTileInfo {
  ti_position : Position;
  ti_relativePosition : Position;
  ti_terrain : TerrainType;
  ti_resource : option ResourceType;
  ti_resourceAmount : option Z;
  ti_structure : option string
}.

(** The [data] payloads the catalog produces. *)
Inductive ToolData :=
| DataPosition (p : Position)
| DataLook (tiles : list TileInfo) (currentPosition : Position)
| DataGather (res : string) (amount : Z)
| DataCraft (item : string)
| DataBuild (struct_name : string) (p : Position)
| DataInventory (items : list (string * Primitive)).

Record ToolResult := mkToolResult {
  success : bool;
  message : string;
  data : option ToolData
}.

(** The argument object of a requested operation: the service sends
    string valued arguments (the action schema has no other kind); the
    entries keep the order of the object's keys. *)
Definition Args := list (string * string).

Inductive Role := user | model.

Record GeminiFunctionCall := mkFunctionCall {
  fc_name : string;
  fc_args : option Args
}.

Record GeminiPart := mkPart {
  text : option string;
  functionCall : option GeminiFunctionCall
}.

Record GeminiFunctionResponse := mkFunctionResponse {
  fr_name : string;
  fr_response : ToolResult
}.

(** An element of [parts]: [GeminiPart | GeminiFunctionResponse]. *)
Inductive ContentPart :=
| Part (p : GeminiPart)
| ResponsePart (r : GeminiFunctionResponse).

Record GeminiContent := mkContent {
  role : Role;
  parts : option (list ContentPart)
}.

Inductive LogType := LogInfo | LogSuccess | LogError.

#[global] Instance LogType_eq_dec : EqDecision LogType.
Proof. solve_decision. Defined.

#[global] Instance Position_eq_dec : EqDecision Position.
Proof. solve_decision. Defined.

(** Rendering of an integer inside a template literal. *)
Definition num_str (z : Z) : string := NilZero.string_of_int (Z.to_int z).

(** Truthiness of an optional number and of an optional string. *)
Definition truthy_num (o : option Z) : bool :=
  match o with Some q => negb (q =? 0) | None => false end.

Definition truthy_str (o : option string) : bool :=
  match o with Some s => negb (String.eqb s "") | None => false end.

(** [o > n] where [o] may be [undefined]. *)
Definition num_gt (o : option Z) (n : Z) : bool :=
  match o with Some q => q >? n | None => false end.

(** [o || 0]. *)
Definition num_or_zero (o : option Z) : Z :=
  if truthy_num o then default 0 o else 0.

Definition Qltb (a b : Q) : bool := negb (Qle_bool b a).

(** Lookup in an object literal used as a table; the entries keep the
    order in which the literal lists them. *)
Definition table_lookup {A : Type} (tbl : list (string * A)) (k : string) : option A :=
  snd <$> List.find (fun e => String.eqb (fst e) k) tbl.

(** *** Objects used as dictionaries

    The function members of [Object.prototype]: those of ECMAScript and
    the legacy ones of its Annex B, which browsers and Node carry. *)
Definition prototype_functions : list string :=
  [ "constructor"; "hasOwnProperty"; "isPrototypeOf"; "propertyIsEnumerable";
    "toLocaleString"; "toString"; "valueOf";
    "__defineGetter__"; "__defineSetter__"; "__lookupGetter__"; "__lookupSetter__" ].

(** [__proto__] is an accessor of [Object.prototype]: read through an
    object literal it answers the prototype itself; assigned a value
    that is not an object it does nothing. *)
Definition prototype_members : list string := "__proto__" :: prototype_functions.

Definition inherited (k : string) : bool := bool_decide (k ∈ prototype_members).

(** [obj[k]]. *)
Definition js_get (obj : gmap string Primitive) (k : string) : JSValue :=
  match obj !! k with
  | Some p => Prim p
  | None => if inherited k then Member k else Undefined
  end.

(** [obj[k] = p] for a primitive [p]: it writes the own property, or
    creates it; for the key [__proto__] that the object does not own it
    runs the inherited setter, which ignores a primitive. *)
Definition js_set (obj : gmap string Primitive) (k : string) (p : Primitive)
  : gmap string Primitive :=
  match obj !! k with
  | None => if String.eqb k "__proto__" then obj else <[k := p]> obj
  | Some _ => <[k := p]> obj
  end.

(** Truthiness; an object or a function, and a non-empty string, are
    truthy. *)
Definition js_truthy (v : JSValue) : bool :=
  match v with
  | Prim (PNumber n) => negb (n =? 0)
  | Prim PNaN => false
  | Prim (PText _ _) => true
  | Member _ => true
  | Undefined => false
  end.

(** [v || 0]. *)
Definition js_or_zero (v : JSValue) : JSValue :=
  if js_truthy v then v else Prim (PNumber 0).

(** [v >= amount]: a value that is not a number converts to [NaN] (the
    text of a function or of an object does not read as a number, nor
    does [undefined]), and every comparison with [NaN] is false. *)
Definition js_ge (v : JSValue) (amount : Z) : bool :=
  match v with
  | Prim (PNumber n) => n >=? amount
  | _ => false
  end.

(** [v + amount]: the sum of two numbers; with a string, a function or
    an object on the left, the concatenation of its text and of the
    rendering of the amount. *)
Definition js_plus (v : JSValue) (amount : Z) : Primitive :=
  match v with
  | Prim (PNumber n) => PNumber (n + amount)
  | Prim PNaN => PNaN
  | Prim (PText m added) => PText m (added +:+ num_str amount)
  | Member m => PText m (num_str amount)
  | Undefined => PNaN
  end.

(** [v - amount]. *)
Definition js_minus (v : JSValue) (amount : Z) : Primitive :=
  match v with
  | Prim (PNumber n) => PNumber (n - amount)
  | _ => PNaN
  end.

(** [v === 0]. *)
Definition js_is_zero (v : JSValue) : bool :=
  match v with
  | Prim (PNumber n) => n =? 0
  | _ => false
  end.

(** The string a member of [Object.prototype] converts to:
    "[object Object]" for the prototype itself and, for a built-in
    function, the text engines print for one (in the spelling of V8;
    ECMAScript fixes it up to white space).  The text carries the name
    of the function, which is the name of the member but for
    [constructor], the function [Object]. *)
Definition member_source (name : string) : string :=
  if String.eqb name "__proto__" then "[object Object]"
  else if String.eqb name "constructor" then "function Object() { [native code] }"
  else "function " +:+ name +:+ "() { [native code] }".

(** Rendering of a value inside a template literal. *)
Definition js_render (v : JSValue) : string :=
  match v with
  | Prim (PNumber n) => num_str n
  | Prim PNaN => "NaN"
  | Prim (PText m added) => member_source m +:+ added
  | Member m => member_source m
  | Undefined => "undefined"
  end.

(** [tbl[k]] for a table of recipes, as the entries [Object.entries]
    lists of it: those of the recipe the table owns under [k]; none
    for a member inherited from [Object.prototype], which is truthy and
    has no enumerable property of its own; [None] is [undefined]. *)
Definition recipe_lookup (tbl : list (string * list (string * Z))) (k : string)
  : option (list (string * Z)) :=
  match table_lookup tbl k with
  | Some recipe => Some recipe
  | None => if inherited k then Some [] else None
  end.

Definition fail_result (msg : string) : ToolResult :=
  {| success := false; message := msg; data := None |}.

(** [String(args.k || "")] for a string valued argument. *)
Definition arg_string (args : Args) (k : string) : string :=
  default "" (table_lookup args k).

(** [JSON.stringify] of an argument object with string values. *)
Definition dquote : string := String (ascii_of_nat 34) EmptyString.

Definition hex_digit (n : nat) : string :=
  String (nth n (list_ascii_of_string "0123456789abcdef") "0"%char) EmptyString.

Definition json_escape_char (c : ascii) : string :=
  let n := nat_of_ascii c in
  if (n =? 34)%nat then "\" +:+ dquote
  else if (n =? 92)%nat then "\\"
  else if (n =? 8)%nat then "\b"
  else if (n =? 12)%nat then "\f"
  else if (n =? 10)%nat then "\n"
  else if (n =? 13)%nat then "\r"
  else if (n =? 9)%nat then "\t"
  else if (n <? 32)%nat then "\u00" +:+ hex_digit (n / 16) +:+ hex_digit (n mod 16)
  else String c EmptyString.

Definition json_string (s : string) : string :=
  dquote +:+ String.concat "" (json_escape_char <$> list_ascii_of_string s) +:+ dquote.

Definition JSON_stringify (args : Args) : string :=
  "{" +:+ String.concat "," ((fun e => json_string (fst e) +:+ ":" +:+ json_string (snd e)) <$> args)
  +:+ "}".

(** [String.prototype.trim] strips white space and line terminators:
    U+0009 to U+000D, U+0020, U+00A0, U+1680, U+2000 to U+200A, U+2028,
    U+2029, U+202F, U+205F, U+3000 and U+FEFF.  The functions below
    recognise them by the bytes of their UTF-8 encoding. *)
Definition space1 (a : nat) : bool :=
  ((a =? 32) || ((9 <=? a) && (a <=? 13)))%nat.

Definition space2 (a b : nat) : bool :=
  ((a =? 194) && (b =? 160))%nat.

Definition space3 (a b c : nat) : bool :=
  (((a =? 225) && (b =? 154) && (c =? 128))
   || ((a =? 226) && (b =? 128)
       && (((128 <=? c) && (c <=? 138)) || (c =? 168) || (c =? 169) || (c =? 175)))
   || ((a =? 226) && (b =? 129) && (c =? 159))
   || ((a =? 227) && (b =? 128) && (c =? 128))
   || ((a =? 239) && (b =? 187) && (c =? 191)))%nat.

Fixpoint stripStart (l : list nat) : list nat :=
  match l with
  | [] => []
  | a :: l1 =>
      if space1 a then stripStart l1
      else match l1 with
           | [] => l
           | b :: l2 =>
               if space2 a b then stripStart l2
               else match l2 with
                    | [] => l
                    | c :: l3 => if space3 a b c then stripStart l3 else l
                    end
           end
  end.

(** The same from the end, on the reversed bytes. *)
Fixpoint stripEnd (l : list nat) : list nat :=
  match l with
  | [] => []
  | c :: l1 =>
      if space1 c then stripEnd l1
      else match l1 with
           | [] => l
           | b :: l2 =>
               if space2 b c then stripEnd l2
               else match l2 with
                    | [] => l
                    | a :: l3 => if space3 a b c then stripEnd l3 else l
                    end
           end
  end.

Definition bytes_of (s : string) : list nat := nat_of_ascii <$> list_ascii_of_string s.

Definition string_of_bytes (l : list nat) : string :=
  string_of_list_ascii (ascii_of_nat <$> l).

Definition trim (s : string) : string :=
  string_of_bytes (rev (stripEnd (rev (stripStart (bytes_of s))))).

Section Titoland.

(** [Math.sin], a function of the host. *)
Variable Math_sin : Q -> Q.

(** ** game.ts *)

Definition gridSize : Z := 20.

(** The source computes [seed] and [random] in double precision; here
    they are rationals.  The properties below use of [random] only that
    it is not negative, which [seed - Math.floor(seed)] is in either
    arithmetic; the thresholds select a branch and nothing depends on
    which one. *)
Definition generateTile (x y : Z) : Tile :=
  let seed := (Math_sin (inject_Z x * 12.9898 + inject_Z y * 78.233) * 43758.5453)%Q in
  let random := (seed - inject_Z (Qfloor seed))%Q in
  if (x <? 2) || (x >=? gridSize - 2) || (y <? 2) || (y >=? gridSize - 2) then
    if Qltb random 0.3 then mkTile water None None None
    else mkTile grass None None None
  else if Qltb random 0.2 then
    mkTile forest (Some wood) (Some (Qfloor (random * 20) + 5)) None
  else if Qltb random 0.35 then
    mkTile mountain (Some stone) (Some (Qfloor (random * 15) + 3)) None
  else if Qltb random 0.45 then
    mkTile desert (Some sand) (Some (Qfloor (random * 10) + 2)) None
  else if Qltb 0.8 random then
    mkTile grass (Some food) (Some (Qfloor (random * 5) + 1)) None
  else mkTile grass None None None.

Definition createWorld : GameWorld :=
  let grid :=
    (fun y => (fun x => generateTile x y) <$> seqZ 0 gridSize) <$> seqZ 0 gridSize in
  {| world_size := gridSize;
     grid := grid;
     agent := {| position := mkPosition 10 10; inventory := ∅; isActive := false |} |}.

Definition getAgent (w : GameWorld) : AgentState := agent w.

Definition isValidPosition (pos : Position) : bool :=
  (pos_x pos >=? 0) && (pos_x pos <? gridSize) &&
  (pos_y pos >=? 0) && (pos_y pos <? gridSize).

(** [None] is the source's [null]; a grid that lacks the row or the
    column of a valid position, which no generated grid does, also
    answers [None]. *)
Definition getTileAt (w : GameWorld) (pos : Position) : option Tile :=
  if isValidPosition pos then
    row ← grid w !! Z.to_nat (pos_y pos); row !! Z.to_nat (pos_x pos)
  else None.

(** Writing back a tile that the source mutates through its reference. *)
Definition setTileAt (w : GameWorld) (pos : Position) (t : Tile) : GameWorld :=
  {| world_size := world_size w;
     grid := alter (fun row => <[Z.to_nat (pos_x pos) := t]> row)
                   (Z.to_nat (pos_y pos)) (grid w);
     agent := agent w |}.

Definition with_agent (w : GameWorld) (a : AgentState) : GameWorld :=
  {| world_size := world_size w; grid := grid w; agent := a |}.

Definition with_inventory (w : GameWorld) (inv : gmap string Primitive) : GameWorld :=
  with_agent w {| position := position (agent w);
                  inventory := inv;
                  isActive := isActive (agent w) |}.

Definition setAgentPosition (w : GameWorld) (pos : Position) : GameWorld * bool :=
  if isValidPosition pos then
    match getTileAt w pos with
    | Some tile =>
        if bool_decide (terrain tile ≠ water) then
          (with_agent w {| position := pos;
                           inventory := inventory (agent w);
                           isActive := isActive (agent w) |}, true)
        else (w, false)
    | None => (w, false)
    end
  else (w, false).

Definition addToInventory (w : GameWorld) (item : string) (amount : Z) : GameWorld :=
  let inv := inventory (agent w) in
  let inv := if negb (js_truthy (js_get inv item)) then js_set inv item (PNumber 0) else inv in
  with_inventory w (js_set inv item (js_plus (js_get inv item) amount)).

Definition removeFromInventory (w : GameWorld) (item : string) (amount : Z)
  : GameWorld * bool :=
  let inv := inventory (agent w) in
  if js_ge (js_get inv item) amount then
    let inv := js_set inv item (js_minus (js_get inv item) amount) in
    let inv := if js_is_zero (js_get inv item) then delete item inv else inv in
    (with_inventory w inv, true)
  else (w, false).

Definition hasInInventory (w : GameWorld) (item : string) (amount : Z) : bool :=
  js_ge (js_or_zero (js_get (inventory (agent w)) item)) amount.

Definition removeResourceFromTile (w : GameWorld) (pos : Position) (amount : Z)
  : GameWorld * bool :=
  match getTileAt w pos with
  | Some tile =>
      match resource tile, resourceAmount tile with
      | Some r, Some q =>
          if negb (q =? 0) && (q >=? amount) then
            let q' := q - amount in
            let tile' :=
              if q' =? 0 then
                {| terrain := terrain tile; resource := None;
                   resourceAmount := None; structure := structure tile |}
              else
                {| terrain := terrain tile; resource := Some r;
                   resourceAmount := Some q'; structure := structure tile |} in
            (setTileAt w pos tile', true)
          else (w, false)
      | _, _ => (w, false)
      end
  | None => (w, false)
  end.

Definition placeStructure (w : GameWorld) (pos : Position) (s : string)
  : GameWorld * bool :=
  match getTileAt w pos with
  | Some tile =>
      if negb (truthy_str (structure tile)) && bool_decide (terrain tile ≠ water) then
        (setTileAt w pos {| terrain := terrain tile; resource := resource tile;
                            resourceAmount := resourceAmount tile;
                            structure := Some s |}, true)
      else (w, false)
  | None => (w, false)
  end.

Definition reset (w : GameWorld) : GameWorld := createWorld.

(** ** tools.ts *)

Definition validDirections : list Direction := [north; south; east; west].

Definition move (w : GameWorld) (direction : string) : GameWorld * ToolResult :=
  match List.find (fun d => String.eqb (direction_name d) direction) validDirections with
  | None =>
      (w, fail_result ("Invalid direction: " +:+ direction +:+ ". Must be one of: "
                       +:+ String.concat ", " (direction_name <$> validDirections)))
  | Some d =>
      let currentPos := position (getAgent w) in
      let newPos :=
        match d with
        | north => mkPosition (pos_x currentPos) (pos_y currentPos - 1)
        | south => mkPosition (pos_x currentPos) (pos_y currentPos + 1)
        | east => mkPosition (pos_x currentPos + 1) (pos_y currentPos)
        | west => mkPosition (pos_x currentPos - 1) (pos_y currentPos)
        end in
      let '(w', moved) := setAgentPosition w newPos in
      if moved then
        (w', {| success := true;
                message := "Moved " +:+ direction +:+ " to position ("
                           +:+ num_str (pos_x newPos) +:+ ", "
                           +:+ num_str (pos_y newPos) +:+ ")";
                data := Some (DataPosition newPos) |})
      else
        (w', fail_result ("Cannot move " +:+ direction
                          +:+ " - obstacle or boundary in the way"))
  end.

Definition viewRadius : Z := 2.

Definition look (w : GameWorld) : GameWorld * ToolResult :=
  let pos := position (getAgent w) in
  let offsets := seqZ (- viewRadius) (2 * viewRadius + 1) in
  let visible :=
    dy ← offsets; dx ← offsets;
    let checkPos := mkPosition (pos_x pos + dx) (pos_y pos + dy) in
    match getTileAt w checkPos with
    | Some tile =>
        [ {| ti_position := checkPos;
             ti_relativePosition := mkPosition dx dy;
             ti_terrain := terrain tile;
             ti_resource := resource tile;
             ti_resourceAmount := resourceAmount tile;
             ti_structure := structure tile |} ]
    | None => []
    end in
  (w, {| success := true;
         message := "Looking around position (" +:+ num_str (pos_x pos) +:+ ", "
                    +:+ num_str (pos_y pos) +:+ ")";
         data := Some (DataLook visible pos) |}).

Definition gather (w : GameWorld) (res : string) : GameWorld * ToolResult :=
  let pos := position (getAgent w) in
  match getTileAt w pos with
  | None => (w, fail_result "Invalid position")
  | Some tile =>
      if bool_decide (resource_name <$> resource tile = Some res)
         && truthy_num (resourceAmount tile)
         && num_gt (resourceAmount tile) 0
      then
        let amountToGather := Z.min 5 (default 0 (resourceAmount tile)) in
        let w1 := fst (removeResourceFromTile w pos amountToGather) in
        let w2 := addToInventory w1 res amountToGather in
        (w2, {| success := true;
                message := "Gathered " +:+ num_str amountToGather +:+ " " +:+ res;
                data := Some (DataGather res amountToGather) |})
      else
        (w, fail_result ("No " +:+ res +:+ " available at current position"))
  end.

Definition recipes : list (string * list (string * Z)) :=
  [ ("axe", [("wood", 3); ("stone", 2)]);
    ("pickaxe", [("wood", 2); ("stone", 3)]);
    ("campfire", [("wood", 5); ("stone", 3)]) ].

Definition buildRequirements : list (string * list (string * Z)) :=
  [ ("shelter", [("wood", 10); ("stone", 5)]);
    ("campfire", [("wood", 3); ("stone", 2)]) ].

(** The first entry of a recipe the inventory is short of, as the
    checking loop meets it. *)
Definition firstShort (w : GameWorld) (reqs : list (string * Z)) : option (string * Z) :=
  List.find (fun e => negb (hasInInventory w (fst e) (snd e))) reqs.

(** The consuming loop. *)
Definition consumeAll (w : GameWorld) (reqs : list (string * Z)) : GameWorld :=
  fold_left (fun w e => fst (removeFromInventory w (fst e) (snd e))) reqs w.

Definition craft (w : GameWorld) (item : string) : GameWorld * ToolResult :=
  match recipe_lookup recipes item with
  | None =>
      (w, fail_result ("Unknown item: " +:+ item +:+ ". Available items: "
                       +:+ String.concat ", " (fst <$> recipes)))
  | Some recipe =>
      match firstShort w recipe with
      | Some (res, amount) =>
          (w, fail_result ("Need " +:+ num_str amount +:+ " " +:+ res +:+ " to craft "
                           +:+ item +:+ ", but only have "
                           +:+ js_render (js_or_zero (js_get (inventory (getAgent w)) res))))
      | None =>
          let w1 := consumeAll w recipe in
          let w2 := addToInventory w1 item 1 in
          (w2, {| success := true;
                  message := "Crafted " +:+ item;
                  data := Some (DataCraft item) |})
      end
  end.

Definition build (w : GameWorld) (struct_name : string) : GameWorld * ToolResult :=
  match recipe_lookup buildRequirements struct_name with
  | None =>
      (w, fail_result ("Unknown structure: " +:+ struct_name +:+ ". Available: "
                       +:+ String.concat ", " (fst <$> buildRequirements)))
  | Some requirements =>
      match firstShort w requirements with
      | Some (res, amount) =>
          (w, fail_result ("Need " +:+ num_str amount +:+ " " +:+ res +:+ " to build "
                           +:+ struct_name))
      | None =>
          let pos := position (getAgent w) in
          let '(w1, placed) := placeStructure w pos struct_name in
          if negb placed then
            (w1, fail_result "Cannot build here - location occupied or invalid")
          else
            let w2 := consumeAll w1 requirements in
            (w2, {| success := true;
                    message := "Built " +:+ struct_name +:+ " at position ("
                               +:+ num_str (pos_x pos) +:+ ", "
                               +:+ num_str (pos_y pos) +:+ ")";
                    data := Some (DataBuild struct_name pos) |})
      end
  end.

(** The entries are listed in the enumeration order of the map. *)
Definition getInventory (w : GameWorld) : GameWorld * ToolResult :=
  let items := map_to_list (inventory (getAgent w)) in
  (w, {| success := true;
         message := "Inventory contains " +:+ num_str (Z.of_nat (length items))
                    +:+ " item types";
         data := Some (DataInventory items) |}).

(** ** agent.ts *)

(** The [Agent] object together with the [Game] it holds a reference to
    and the sequence of calls its [onLog] callback has received. *)
Record Agent := mkAgent {
  game : GameWorld;
  isRunning : bool;
  conversationHistory : list GeminiContent;
  apiKey : string;
  logged : list (string * LogType)
}.

Definition with_game (a : Agent) (w : GameWorld) : Agent :=
  {| game := w; isRunning := isRunning a;
     conversationHistory := conversationHistory a;
     apiKey := apiKey a; logged := logged a |}.

Definition with_isRunning (a : Agent) (b : bool) : Agent :=
  {| game := game a; isRunning := b;
     conversationHistory := conversationHistory a;
     apiKey := apiKey a; logged := logged a |}.

Definition with_history (a : Agent) (h : list GeminiContent) : Agent :=
  {| game := game a; isRunning := isRunning a;
     conversationHistory := h;
     apiKey := apiKey a; logged := logged a |}.

Definition onLog (a : Agent) (msg : string) (ty : LogType) : Agent :=
  {| game := game a; isRunning := isRunning a;
     conversationHistory := conversationHistory a;
     apiKey := apiKey a; logged := logged a ++ [(msg, ty)] |}.

Definition newAgent (w : GameWorld) : Agent :=
  {| game := w; isRunning := false; conversationHistory := [];
     apiKey := ""; logged := [] |}.

Definition maxIterations : Z := 30.

Definition setApiKey (a : Agent) (key : string) : Agent :=
  {| game := game a; isRunning := isRunning a;
     conversationHistory := conversationHistory a;
     apiKey := key; logged := logged a |}.

Definition stop (a : Agent) : Agent :=
  onLog (with_isRunning a false) "Agent stopped" LogInfo.

(** What the host may do while the loop is suspended (main.ts). *)
Inductive HostEvent := EvStopAgent | EvResetWorld.

Definition stopAgent (a : Agent) : Agent := stop a.

Definition resetWorld (a : Agent) : Agent :=
  let a := if isRunning a then stopAgent a else a in
  let a := with_game a (reset (game a)) in
  onLog a "World reset!" LogInfo.

Definition hostEvent (a : Agent) (e : HostEvent) : Agent :=
  match e with
  | EvStopAgent => stopAgent a
  | EvResetWorld => resetWorld a
  end.

Definition hostEvents (a : Agent) (es : list HostEvent) : Agent :=
  fold_left hostEvent es a.

(** The outcome of [callGemini]: it throws (the value is the rendering
    of the error), or it returns [candidates?.[0]?.content]. *)
Inductive ServiceResult :=
| ServiceThrows (err : string)
| ServiceReturns (content : option GeminiContent).

(** One round of the environment: the host events that arrive while
    the request is awaited, the outcome of the request, and the host
    events that arrive during the pause after the round. *)
Record Round := mkRound {
  duringCall : list HostEvent;
  response : ServiceResult;
  duringPause : list HostEvent
}.

(** The external service with the host around it; the request carries
    the conversation so far. *)
Definition Service := list GeminiContent -> Round.

Definition extractFunctionCalls (content : option GeminiContent) : list (string * Args) :=
  match content with
  | Some {| parts := Some ps |} =>
      p ← ps;
      match p with
      | Part {| functionCall := Some fc |} => [(fc_name fc, default [] (fc_args fc))]
      | _ => []
      end
  | _ => []
  end.

Definition extractText (content : option GeminiContent) : string :=
  match content with
  | Some {| parts := Some ps |} =>
      default ""
        (List.find (fun t => negb (String.eqb t ""))
           (p ← ps; match p with Part {| text := Some t |} => [t] | _ => [] end))
  | _ => ""
  end.

Definition toolNames : list string :=
  ["move"; "look"; "gather"; "craft"; "build"; "getInventory"].

Definition executeTool (w : GameWorld) (name : string) (args : Args)
  : GameWorld * ToolResult :=
  if String.eqb name "move" then move w (arg_string args "direction")
  else if String.eqb name "look" then look w
  else if String.eqb name "gather" then gather w (arg_string args "resource")
  else if String.eqb name "craft" then craft w (arg_string args "item")
  else if String.eqb name "build" then build w (arg_string args "structure")
  else if String.eqb name "getInventory" then getInventory w
  else (w, fail_result ("Unknown tool: " +:+ name)).

(** The loop over the requested operations of one round. *)
Fixpoint executeCalls (a : Agent) (calls : list (string * Args))
  : Agent * list GeminiFunctionResponse :=
  match calls with
  | [] => (a, [])
  | (name, args) :: rest =>
      let '(w, result) := executeTool (game a) name args in
      let a := with_game a w in
      let a := onLog a (name +:+ "(" +:+ JSON_stringify args +:+ "): " +:+ message result)
                     (if success result then LogSuccess else LogError) in
      let '(a, responses) := executeCalls a rest in
      (a, {| fr_name := name; fr_response := result |} :: responses)
  end.

(** The body of the [while] loop after the iteration banner; the
    boolean tells whether the body left the loop ([break]). *)
Definition iterationBody (service : Service) (a : Agent) : Agent * bool :=
  let r := service (conversationHistory a) in
  let a := hostEvents a (duringCall r) in
  match response r with
  | ServiceThrows err => (onLog a ("Error: " +:+ err) LogError, true)
  | ServiceReturns None => (onLog a "No response from Gemini" LogError, true)
  | ServiceReturns (Some content) =>
      let functionCalls := extractFunctionCalls (Some content) in
      match functionCalls with
      | [] =>
          let textResponse := extractText (Some content) in
          let a := if negb (String.eqb textResponse "")
                   then onLog a ("Agent: " +:+ textResponse) LogSuccess else a in
          (onLog a "Agent completed its task" LogSuccess, true)
      | _ =>
          let '(a, functionResponses) := executeCalls a functionCalls in
          let a := with_history a
                     (conversationHistory a ++
                      [ {| role := model;
                           parts := Some ((fun c => Part {| text := None;
                                      functionCall := Some {| fc_name := fst c;
                                                              fc_args := Some (snd c) |} |})
                                          <$> functionCalls) |} ]) in
          let a := with_history a
                     (conversationHistory a ++
                      [ {| role := user;
                           parts := Some (ResponsePart <$> functionResponses) |} ]) in
          (hostEvents a (duringPause r), false)
      end
  end.

(** The [while] loop; [fuel] bounds the unfolding and [whileLoop_fuel]
    shows that [maxIterations] of it lose nothing. *)
Fixpoint whileLoop (fuel : nat) (service : Service) (iteration : Z) (a : Agent)
  : Z * Agent :=
  match fuel with
  | O => (iteration, a)
  | S fuel' =>
      if isRunning a && (iteration <? maxIterations) then
        let iteration := iteration + 1 in
        let a := onLog a ("--- Iteration " +:+ num_str iteration +:+ " ---") LogInfo in
        let '(a, exited) := iterationBody service a in
        if exited then (iteration, a) else whileLoop fuel' service iteration a
      else (iteration, a)
  end.

Definition runLoop (service : Service) (a : Agent) : Agent :=
  let '(iteration, a) := whileLoop (Z.to_nat maxIterations) service 0 a in
  let a := if iteration >=? maxIterations
           then onLog a "Reached maximum iterations" LogInfo else a in
  with_isRunning a false.

Definition systemPrompt (goal : string) : string :=
  "You are an AI agent in a grid-based resource world. Your goal is: " +:+ goal +:+ "

You have access to tools to interact with the world. Use them strategically to accomplish your goal.

The world consists of:
- Grass: Open terrain, may have food
- Forest: Contains wood (gather with 'gather' tool)
- Mountain: Contains stone (gather with 'gather' tool)
- Desert: Contains sand (gather with 'gather' tool)
- Water: Cannot walk through

Available actions:
- move: Navigate the world
- look: Observe your surroundings
- gather: Collect resources from your current tile
- craft: Create items from resources
- build: Construct structures
- getInventory: Check what you're carrying

Start by using 'look' to understand your surroundings, then plan your actions to achieve the goal.
Be efficient and strategic. If you accomplish the goal, explain what you did.".

Definition start (service : Service) (a : Agent) (goal : string) : Agent :=
  if String.eqb (apiKey a) "" then onLog a "Error: API key not provided" LogError
  else
    let a := with_isRunning a true in
    let a := with_history a [] in
    let a := onLog a ("Starting agent with goal: " +:+ goal) LogInfo in
    let a := with_history a
               (conversationHistory a ++
                [ {| role := user;
                     parts := Some [Part {| text := Some (systemPrompt goal);
                                            functionCall := None |}] |} ]) in
    runLoop service a.

(** ** main.ts: the start handler (the widgets it toggles are not part
    of the state) *)

Definition startAgent (service : Service) (a : Agent) (goalInput apiKeyInput : string)
  : Agent :=
  let goal := trim goalInput in
  let key := trim apiKeyInput in
  if String.eqb goal "" then onLog a "Please enter a goal for the agent" LogError
  else if String.eqb key "" then onLog a "Please enter your Gemini API key" LogError
  else start service (setApiKey a key) goal.

(** ** tools.ts: the function declarations sent to the service *)

Record ToolProperty := mkToolProperty {
  tp_name : string;
  tp_type : string;
  tp_enum : list string;
  tp_description : string
}.

Record ToolDefinition := mkToolDefinition {
  td_name : string;
  td_description : string;
  td_properties : list ToolProperty;
  td_required : option (list string)
}.

Definition toolDefinitions : list ToolDefinition :=
  [ {| td_name := "move";
       td_description :=
         "Move the agent in a specified direction (north, south, east, west). Cannot move through water or beyond boundaries.";
       td_properties :=
         [ {| tp_name := "direction"; tp_type := "string";
              tp_enum := ["north"; "south"; "east"; "west"];
              tp_description := "The direction to move" |} ];
       td_required := Some ["direction"] |};
    {| td_name := "look";
       td_description :=
         "Observe the surrounding area within a 2-tile radius. Returns information about terrain, resources, and structures.";
       td_properties := [];
       td_required := None |};
    {| td_name := "gather";
       td_description :=
         "Gather a resource from the current tile. Resources include: wood (from forest), stone (from mountain), sand (from desert), food (from grass). Gathers up to 5 units at a time.";
       td_properties :=
         [ {| tp_name := "resource"; tp_type := "string";
              tp_enum := ["wood"; "stone"; "sand"; "food"];
              tp_description := "The resource to gather" |} ];
       td_required := Some ["resource"] |};
    {| td_name := "craft";
       td_description :=
         "Craft an item from resources in inventory. Recipes: axe (3 wood, 2 stone), pickaxe (2 wood, 3 stone), campfire (5 wood, 3 stone).";
       td_properties :=
         [ {| tp_name := "item"; tp_type := "string";
              tp_enum := ["axe"; "pickaxe"; "campfire"];
              tp_description := "The item to craft" |} ];
       td_required := Some ["item"] |};
    {| td_name := "build";
       td_description :=
         "Build a structure at the current location. Requirements: shelter (10 wood, 5 stone), campfire (3 wood, 2 stone). Cannot build on water or occupied tiles.";
       td_properties :=
         [ {| tp_name := "structure"; tp_type := "string";
              tp_enum := ["shelter"; "campfire"];
              tp_description := "The structure to build" |} ];
       td_required := Some ["structure"] |};
    {| td_name := "getInventory";
       td_description :=
         "Check the current inventory to see what items and resources are available.";
       td_properties := [];
       td_required := None |} ].

(** ** main.ts: the texts [updateUI] writes for the position and the
    inventory (the entries in the enumeration order of the map) *)

Definition updateUI (w : GameWorld) : string * string :=
  let agent := getAgent w in
  let inventoryItems :=
    String.concat ", "
      ((fun e => fst e +:+ ": " +:+ js_render (Prim (snd e)))
       <$> map_to_list (inventory agent)) in
  ("(" +:+ num_str (pos_x (position agent)) +:+ ", "
       +:+ num_str (pos_y (position agent)) +:+ ")",
   if String.eqb inventoryItems "" then "Empty" else inventoryItems).

(** ** Reachable states *)

(** One mutation of the world: a primitive of [Game] with any
    arguments, or an operation of the catalog as the loop dispatches it. *)
Inductive world_step : GameWorld -> GameWorld -> Prop :=
| step_setAgentPosition w pos :
    world_step w (fst (setAgentPosition w pos))
| step_addToInventory w item amount :
    world_step w (addToInventory w item amount)
| step_removeFromInventory w item amount :
    world_step w (fst (removeFromInventory w item amount))
| step_removeResourceFromTile w pos amount :
    world_step w (fst (removeResourceFromTile w pos amount))
| step_placeStructure w pos s :
    world_step w (fst (placeStructure w pos s))
| step_reset w :
    world_step w (reset w)
| step_executeTool w name args :
    world_step w (fst (executeTool w name args)).

Inductive world_reachable : GameWorld -> Prop :=
| world_reachable_init : world_reachable createWorld
| world_reachable_step w w' :
    world_reachable w -> world_step w w' -> world_reachable w'.

(** The states the catalog alone (and a reset) leads to. *)
Inductive catalog_step : GameWorld -> GameWorld -> Prop :=
| cstep_executeTool w name args :
    catalog_step w (fst (executeTool w name args))
| cstep_reset w :
    catalog_step w (reset w).

Inductive catalog_reachable : GameWorld -> Prop :=
| catalog_reachable_init : catalog_reachable createWorld
| catalog_reachable_step w w' :
    catalog_reachable w -> catalog_step w w' -> catalog_reachable w'.

(** What may happen to an [Agent] and its world: the entry points of
    the loop with any service behind them, the host handlers, and any
    mutation of the world. *)
Inductive agent_step : Agent -> Agent -> Prop :=
| astep_start service a goal : agent_step a (start service a goal)
| astep_startAgent service a goalInput apiKeyInput :
    agent_step a (startAgent service a goalInput apiKeyInput)
| astep_round service a : agent_step a (fst (iterationBody service a))
| astep_stop a : agent_step a (stop a)
| astep_setApiKey a key : agent_step a (setApiKey a key)
| astep_resetWorld a : agent_step a (resetWorld a)
| astep_world a w' : world_step (game a) w' -> agent_step a (with_game a w').

Inductive agent_reachable : Agent -> Prop :=
| agent_reachable_init : agent_reachable (newAgent createWorld)
| agent_reachable_step a a' :
    agent_reachable a -> agent_step a a' -> agent_reachable a'.

(** The states in which the inventory is looked at: the catalog, a
    reset, a credit of a positive amount, a debit of an amount that is
    not negative. *)
Inductive inventory_step : GameWorld -> GameWorld -> Prop :=
| istep_catalog w w' : catalog_step w w' -> inventory_step w w'
| istep_credit w item amount :
    0 < amount -> inventory_step w (addToInventory w item amount)
| istep_debit w item amount :
    0 <= amount -> inventory_step w (fst (removeFromInventory w item amount)).

Inductive inventory_reachable : GameWorld -> Prop :=
| inventory_reachable_init : inventory_reachable createWorld
| inventory_reachable_step w w' :
    inventory_reachable w -> inventory_step w w' -> inventory_reachable w'.

(** The coordinate next to [p] in direction [d], as the [switch] of
    [move] computes it. *)
Definition adjacent (p : Position) (d : Direction) : Position :=
  match d with
  | north => mkPosition (pos_x p) (pos_y p - 1)
  | south => mkPosition (pos_x p) (pos_y p + 1)
  | east => mkPosition (pos_x p + 1) (pos_y p)
  | west => mkPosition (pos_x p - 1) (pos_y p)
  end.

(** The state in which [start] enters the loop. *)
Definition started (a : Agent) (goal : string) : Agent :=
  {| game := game a;
     isRunning := true;
     conversationHistory :=
       [ {| role := user;
            parts := Some [Part {| text := Some (systemPrompt goal);
                                   functionCall := None |}] |} ];
     apiKey := apiKey a;
     logged := logged a ++ [("Starting agent with goal: " +:+ goal, LogInfo)] |}.

(** The log entries that tell the terminal states of a run apart. *)
Definition completed_entry : string * LogType :=
  ("Agent completed its task", LogSuccess).

Definition max_iterations_entry : string * LogType :=
  ("Reached maximum iterations", LogInfo).

(** A round in which the service asks for one operation whose name the
    catalog does not have, and the host stays quiet. *)
Definition unknown_round (r : Round) : Prop :=
  duringCall r = [] /\ duringPause r = [] /\
  exists content name args,
    response r = ServiceReturns (Some content) /\
    extractFunctionCalls (Some content) = [(name, args)] /\
    name ∉ toolNames.

(** Every outcome a turn carries is a failure without payload. *)
Definition failed_turn (c : GeminiContent) : Prop :=
  forall ps r, parts c = Some ps -> ResponsePart r ∈ ps ->
               success (fr_response r) = false /\ data (fr_response r) = None.

(** The agent is as before but for one error entry in the log. *)
Definition rejected (a a' : Agent) (msg : string) : Prop :=
  game a' = game a /\ isRunning a' = isRunning a /\
  conversationHistory a' = conversationHistory a /\
  apiKey a' = apiKey a /\ logged a' = (logged a ++ [(msg, LogError)])%list.

(** The entry with which the loop logs the free text of a response. *)
Definition explanation_entries (content : GeminiContent) : list (string * LogType) :=
  if String.eqb (extractText (Some content)) "" then []
  else [("Agent: " +:+ extractText (Some content), LogSuccess)].

(** ** Sample inputs *)

(** A stand-in for the sine under which the start tile holds 8 wood. *)
Definition sample_sin (q : Q) : Q := ((q - 912.058) / 43758.5453)%Q.

Definition sample_call (name : string) (args : Args) : ContentPart :=
  Part {| text := None;
          functionCall := Some {| fc_name := name; fc_args := Some args |} |}.

(** A service that asks for the operation [fly] in every round. *)
Definition fly_service : Service :=
  fun _ => {| duringCall := [];
              response := ServiceReturns
                (Some {| role := model; parts := Some [sample_call "fly" []] |});
              duringPause := [] |}.

(** A service that answers with a text and no operation. *)
Definition done_service : Service :=
  fun _ => {| duringCall := [];
              response := ServiceReturns
                (Some {| role := model;
                         parts := Some [Part {| text := Some "done";
                                                functionCall := None |}] |});
              duringPause := [] |}.

(** A service that asks for [fly] in 29 rounds and then answers with a
    text; the conversation of round [n] has [2 * n - 1] turns. *)
Definition late_service : Service :=
  fun h => if (length h <? 59)%nat then fly_service h else done_service h.

(** A strip of three tiles, water to the west of the agent. *)
Definition sample_strip : GameWorld :=
  {| world_size := gridSize;
     grid := [[ mkTile water None None None;
                mkTile grass None None None;
                mkTile forest (Some wood) (Some 8) None ]];
     agent := {| position := mkPosition 1 0;
                 inventory := {["wood" := PNumber 2; "stone" := PNumber 2]};
                 isActive := false |} |}.

(** The generated world with 5 wood and 4 stone in the inventory. *)
Definition stocked_world : GameWorld :=
  addToInventory (addToInventory createWorld "wood" 5) "stone" 4.

(** U+00A0, the no-break space, in UTF-8. *)
Definition nbsp : string :=
  String (ascii_of_nat 194) (String (ascii_of_nat 160) EmptyString).

(** A service that asks for [fly] in the first round and then answers
    with a text. *)
Definition second_round_service : Service :=
  fun h => if (length h <? 3)%nat then fly_service h else done_service h.

(** A service that asks to craft [toString] while the host presses
    stop. *)
Definition toString_service : Service :=
  fun _ => {| duringCall := [EvStopAgent];
              response := ServiceReturns
                (Some {| role := model;
                         parts := Some [sample_call "craft" [("item", "toString")]] |});
              duringPause := [] |}.

(** ** Invariants *)

(** A tile has a resource kind exactly when it has a positive amount. *)
Definition tile_ok (t : Tile) : Prop :=
  match resource t, resourceAmount t with
  | Some _, Some q => 0 < q
  | None, None => True
  | _, _ => False
  end.

Definition grid_ok (w : GameWorld) : Prop := Forall (Forall tile_ok) (grid w).

(** The agent stands on a tile of the grid that is not water. *)
Definition on_land (w : GameWorld) : Prop :=
  exists t, getTileAt w (position (agent w)) = Some t /\ terrain t <> water.

Definition inactive (w : GameWorld) : Prop := isActive (agent w) = false.

(** Every number stored is positive. *)
Definition inventory_positive (inv : gmap string Primitive) : Prop :=
  forall k c, inv !! k = Some (PNumber c) -> 0 < c.

(** The kinds of entries the operations of the program leave behind: a
    number under a key that is not a member of [Object.prototype], or,
    under the name of a function member, the text made of that member. *)
Definition entry_shape (k : string) (p : Primitive) : Prop :=
  match p with
  | PNumber _ => inherited k = false
  | PNaN => False
  | PText m _ => m = k /\ k ∈ prototype_functions
  end.

Definition inventory_shape (inv : gmap string Primitive) : Prop :=
  forall k p, inv !! k = Some p -> entry_shape k p.

Definition shape_ok (w : GameWorld) : Prop := inventory_shape (inventory (agent w)).

Definition inv_ok (w : GameWorld) : Prop := inventory_positive (inventory (agent w)).

(** What every reachable world satisfies. *)
Definition world_inv (w : GameWorld) : Prop := grid_ok w /\ on_land w /\ inactive w.

(** The tile [removeResourceFromTile] leaves behind. *)
Definition depleted (tile : Tile) (r : ResourceType) (q amount : Z) : Tile :=
  if q - amount =? 0 then
    {| terrain := terrain tile; resource := None;
       resourceAmount := None; structure := structure tile |}
  else
    {| terrain := terrain tile; resource := Some r;
       resourceAmount := Some (q - amount); structure := structure tile |}.

(** ** Further relations on worlds and tiles *)

(** The grid is a square of [gridSize] rows of [gridSize] tiles. *)
Definition grid_shape (w : GameWorld) : Prop :=
  world_size w = gridSize /\
  length (grid w) = Z.to_nat gridSize /\
  Forall (fun row => length row = Z.to_nat gridSize) (grid w).

(** The terrain on which [generateTile] puts a resource kind. *)
Definition terrain_of (r : ResourceType) : TerrainType :=
  match r with
  | wood => forest | stone => mountain | sand => desert | food => grass
  end.

(** The least quantity [generateTile] gives a resource kind. *)
Definition least_amount (r : ResourceType) : Z :=
  match r with
  | wood => 5 | stone => 3 | sand => 2 | food => 1
  end.

Definition kind_matches_terrain (t : Tile) : Prop :=
  forall r, resource t = Some r -> terrain t = terrain_of r.

(** What an operation of the catalog may do to a tile: the terrain
    stays, a structure that is there stays, and the resource stays or
    loses a positive part of its quantity. *)
Definition tile_evolves (t t' : Tile) : Prop :=
  terrain t' = terrain t /\
  (truthy_str (structure t) = true -> structure t' = structure t) /\
  ((resource t' = resource t /\ resourceAmount t' = resourceAmount t) \/
   (exists r q a,
      resource t = Some r /\ resourceAmount t = Some q /\ 0 < a <= q /\
      resource t' = (if q - a =? 0 then None else Some r) /\
      resourceAmount t' = (if q - a =? 0 then None else Some (q - a)))).

(** The tile [t] descends from the generated tile [t0]: same terrain,
    and a resource of [t] is the resource of [t0] with no more of it. *)
Definition tile_from (t0 t : Tile) : Prop :=
  terrain t = terrain t0 /\
  forall r q, resource t = Some r -> resourceAmount t = Some q ->
    resource t0 = Some r /\ exists q0, resourceAmount t0 = Some q0 /\ q <= q0.

(** The tiles at the agent's position before and after a step. *)
Definition agent_tile_evolves (w w' : GameWorld) : Prop :=
  match getTileAt w (position (agent w)), getTileAt w' (position (agent w)) with
  | Some t, Some t' => tile_evolves t t'
  | None, None => True
  | _, _ => False
  end.

(** The grid after a step is the grid before it, or the grid before it
    with the tile under the agent replaced by one it evolves into. *)
Definition tile_update (w w' : GameWorld) : Prop :=
  grid w' = grid w \/
  exists t t',
    getTileAt w (position (agent w)) = Some t /\
    grid w' = grid (setTileAt w (position (agent w)) t') /\
    tile_evolves t t'.

(** The count the code reads for an item: [inventory[item] || 0] when
    that is a number, and 0 when it is not one. *)
Definition count (w : GameWorld) (item : string) : Z :=
  match js_or_zero (js_get (inventory (agent w)) item) with
  | Prim (PNumber n) => n
  | _ => 0
  end.

(** What a credit of [amount] leaves under a key that is not a member
    of [Object.prototype], given what the key held: a number grows by
    the amount, an absent or falsy entry starts from 0, a text gets the
    rendering of the amount appended. *)
Definition credited (held : option Primitive) (amount : Z) : Primitive :=
  match held with
  | Some (PNumber n) => PNumber (n + amount)
  | Some PNaN => PNumber amount
  | Some (PText m added) => PText m (added +:+ num_str amount)
  | None => PNumber amount
  end.

(** The entry of [item] after [addToInventory item amount], given the
    entry before; [None] is no entry. *)
Definition credit_entry (item : string) (held : option Primitive) (amount : Z)
  : option Primitive :=
  match held with
  | Some _ => Some (credited held amount)
  | None =>
      if String.eqb item "__proto__" then None
      else if inherited item then Some (PText item (num_str amount))
      else Some (PNumber amount)
  end.

(** The entry under [item] is a number, or there is none. *)
Definition numeric_at (w : GameWorld) (item : string) : Prop :=
  forall p, inventory (agent w) !! item = Some p -> exists n, p = PNumber n.

(** The integers that double precision represents exactly together
    with their sums and differences. *)
Definition safe (z : Z) : Prop := - 2 ^ 53 <= z <= 2 ^ 53.

(** The amount a recipe asks of a resource, 0 when it asks none. *)
Definition required (reqs : list (string * Z)) (res : string) : Z :=
  default 0 (table_lookup reqs res).

(** A recipe lists each resource once, with a positive amount. *)
Definition recipe_wf (reqs : list (string * Z)) : Prop :=
  NoDup (fst <$> reqs) /\ Forall (fun e => 0 < snd e) reqs.

(** The entry [look] reports for the tile [t] at offset [(dx, dy)] of [p]. *)
Definition tile_info (p : Position) (dx dy : Z) (t : Tile) : TileInfo :=
  {| ti_position := mkPosition (pos_x p + dx) (pos_y p + dy);
     ti_relativePosition := mkPosition dx dy;
     ti_terrain := terrain t;
     ti_resource := resource t;
     ti_resourceAmount := resourceAmount t;
     ti_structure := structure t |}.

Definition opposite (d : Direction) : Direction :=
  match d with
  | north => south | south => north | east => west | west => east
  end.

(** [n] calls of [gather] for the same resource, one after the other. *)
Definition gatherN (n : nat) (w : GameWorld) (res : string) : GameWorld :=
  Nat.iter n (fun w => fst (gather w res)) w.

(** ** Further notions: the conversation and the run *)

(** The turns [start] and the loop append to the conversation. *)
Definition prompt_turn (goal : string) : GeminiContent :=
  {| role := user;
     parts := Some [Part {| text := Some (systemPrompt goal); functionCall := None |}] |}.

Definition calls_turn (calls : list (string * Args)) : GeminiContent :=
  {| role := model;
     parts := Some ((fun c => Part {| text := None;
                       functionCall := Some {| fc_name := fst c;
                                               fc_args := Some (snd c) |} |})
                    <$> calls) |}.

Definition outcomes_turn (responses : list GeminiFunctionResponse) : GeminiContent :=
  {| role := user; parts := Some (ResponsePart <$> responses) |}.

(** The two turns of each round, round after round. *)
Definition round_turns
  (rounds : list (list (string * Args) * list GeminiFunctionResponse))
  : list GeminiContent :=
  rounds ≫= (fun r => [calls_turn (fst r); outcomes_turn (snd r)]).

(** A round asked for some operation and answers each request, in
    order, under its name. *)
Definition round_ok (r : list (string * Args) * list GeminiFunctionResponse) : Prop :=
  fst r <> [] /\ fr_name <$> snd r = fst <$> fst r.

(** The round of a request for an operation the catalog does not have:
    the request, and the failure recorded under its name. *)
Definition unknown_outcome (c : string * Args)
  : list (string * Args) * list GeminiFunctionResponse :=
  ([c], [ {| fr_name := fst c;
             fr_response := fail_result ("Unknown tool: " +:+ fst c) |} ]).

(** The log of such rounds, the first of them numbered [i]: the banner
    of the round and the error entry of its request. *)
Fixpoint unknown_log (i : Z) (calls : list (string * Args)) : list (string * LogType) :=
  match calls with
  | [] => []
  | c :: rest =>
      ("--- Iteration " +:+ num_str i +:+ " ---", LogInfo)
      :: (fst c +:+ "(" +:+ JSON_stringify (snd c) +:+ "): "
          +:+ ("Unknown tool: " +:+ fst c), LogError)
      :: unknown_log (i + 1) rest
  end.

(** [calls] are the requests the service makes round after round,
    starting from the conversation [h], when each is answered by the
    failure of an unknown operation. *)
Fixpoint requested (service : Service) (h : list GeminiContent)
  (calls : list (string * Args)) : Prop :=
  match calls with
  | [] => True
  | c :: rest =>
      (exists content,
         response (service h) = ServiceReturns (Some content) /\
         extractFunctionCalls (Some content) = [c]) /\
      requested service (h ++ round_turns [unknown_outcome c]) rest
  end.

(** What [runLoop] does once the [while] loop is left. *)
Definition finish (r : Z * Agent) : Agent :=
  with_isRunning
    (if fst r >=? maxIterations
     then onLog (snd r) "Reached maximum iterations" LogInfo else snd r)
    false.

(** The states in which a run started in [a0] enters a round: [a0]
    itself before round 1; and the state a round that ran operations
    leaves, provided the loop goes on. *)
Inductive loop_state (service : Service) (a0 : Agent) : Z -> Agent -> Prop :=
| loop_state_first : loop_state service a0 0 a0
| loop_state_next i b b' :
    loop_state service a0 i b ->
    isRunning b = true -> i < maxIterations ->
    iterationBody service
      (onLog b ("--- Iteration " +:+ num_str (i + 1) +:+ " ---") LogInfo) = (b', false) ->
    loop_state service a0 (i + 1) b'.

(** The world after the requested operations, run one after the other. *)
Definition runCalls (w : GameWorld) (calls : list (string * Args)) : GameWorld :=
  fold_left (fun w c => fst (executeTool w (fst c) (snd c))) calls w.

(** The error the loop logs for an outcome of the service call that
    ends the run, if the outcome is one. *)
Definition service_error (r : ServiceResult) : option string :=
  match r with
  | ServiceThrows err => Some ("Error: " +:+ err)
  | ServiceReturns None => Some "No response from Gemini"
  | ServiceReturns (Some _) => None
  end.

(** Whether the character [c] occurs in [s]. *)
Fixpoint has_char (c : ascii) (s : string) : bool :=
  match s with
  | EmptyString => false
  | String x s' => Ascii.eqb c x || has_char c s'
  end.

(** A log entry that is neither the completion entry nor the entry of
    the maximum. *)
Definition non_terminal (e : string * LogType) : Prop :=
  e <> completed_entry /\ e <> max_iterations_entry.

#[local] Instance HostEvent_eq_dec : EqDecision HostEvent.
Proof. solve_decision. Defined.

(** A service whose call throws. *)
Definition down_service : Service :=
  fun _ => {| duringCall := [];
              response := ServiceThrows "Error: Gemini API error: 503 - unavailable";
              duringPause := [] |}.

(** A service that asks for wood while the host presses stop. *)
Definition stopped_service : Service :=
  fun _ => {| duringCall := [EvStopAgent];
              response := ServiceReturns
                (Some {| role := model;
                         parts := Some [sample_call "gather" [("resource", "wood")]] |});
              duringPause := [] |}.

(** A request honours the declaration [d]: each declared property has
    one of its enumerated values. *)
Definition conforms (d : ToolDefinition) (args : Args) : Prop :=
  forall p, p ∈ td_properties d -> arg_string args (tp_name p) ∈ tp_enum p.

(** What the application does to the agent and its world: the entry
    points of [Agent] and the handlers of the host, nothing else. *)
Inductive app_step : Agent -> Agent -> Prop :=
| app_startAgent service a goalInput apiKeyInput :
    app_step a (startAgent service a goalInput apiKeyInput)
| app_start service a goal : app_step a (start service a goal)
| app_setApiKey a key : app_step a (setApiKey a key)
| app_stopAgent a : app_step a (stopAgent a)
| app_resetWorld a : app_step a (resetWorld a).

Inductive app_reachable : Agent -> Prop :=
| app_reachable_init : app_reachable (newAgent createWorld)
| app_reachable_step a a' : app_reachable a -> app_step a a' -> app_reachable a'.

(** ** The world engine *)

Lemma floor_scaled_nonneg (q k : Q) : (0 <= q)%Q -> (0 <= k)%Q -> 0 <= Qfloor (q * k).
Proof.
  intros Hq Hk. change 0 with (Qfloor (inject_Z 0)).
  apply Qfloor_resp_le. change (inject_Z 0) with 0%Q.
  apply Qmult_le_0_compat; assumption.
Qed.

Lemma fraction_nonneg (seed : Q) : (0 <= seed - inject_Z (Qfloor seed))%Q.
Proof.
  unfold Qminus. apply (proj1 (Qle_minus_iff _ _)), Qfloor_le.
Qed.

Lemma generateTile_ok x y : tile_ok (generateTile x y).
Proof.
  unfold generateTile.
  set (seed := (Math_sin _ * _)%Q).
  pose proof (fraction_nonneg seed) as Hr.
  set (random := (seed - inject_Z (Qfloor seed))%Q) in *.
  destruct (_ || _); [destruct (Qltb _ _); exact I|].
  repeat (destruct (Qltb _ _);
          [unfold tile_ok; cbn [resource resourceAmount];
           match goal with
           | |- 0 < Qfloor (_ * ?k) + _ =>
               assert (0 <= k)%Q as Hk by (unfold Qle; simpl; lia);
               pose proof (floor_scaled_nonneg random k Hr Hk); lia
           end|]).
  exact I.
Qed.

Lemma generateTile_interior x y :
  2 <= x < gridSize - 2 -> 2 <= y < gridSize - 2 ->
  terrain (generateTile x y) <> water.
Proof.
  intros Hx Hy. unfold generateTile.
  replace (_ || _) with false by (unfold gridSize in *; symmetry; rewrite !orb_false_iff; lia).
  repeat (destruct (Qltb _ _); [discriminate|]). discriminate.
Qed.

Lemma createWorld_lookup x y :
  0 <= x < gridSize -> 0 <= y < gridSize ->
  getTileAt createWorld (mkPosition x y) = Some (generateTile x y).
Proof.
  intros Hx Hy. unfold getTileAt, isValidPosition. simpl pos_x; simpl pos_y.
  replace (_ && _) with true by (symmetry; rewrite !andb_true_iff; lia).
  unfold createWorld; cbn [grid].
  rewrite list_lookup_fmap, lookup_seqZ_lt by lia. cbn [fmap option_fmap option_map mbind option_bind].
  rewrite list_lookup_fmap, lookup_seqZ_lt by lia. cbn [fmap option_fmap option_map].
  f_equal. f_equal; lia.
Qed.

Lemma createWorld_grid_ok : grid_ok createWorld.
Proof.
  unfold grid_ok, createWorld; cbn [grid].
  apply Forall_fmap, Forall_forall. intros y _. unfold compose.
  apply Forall_fmap, Forall_forall. intros x _. apply generateTile_ok.
Qed.

Lemma createWorld_on_land : on_land createWorld.
Proof.
  exists (generateTile 10 10). split.
  - apply (createWorld_lookup 10 10); unfold gridSize; lia.
  - apply generateTile_interior; unfold gridSize; lia.
Qed.

Lemma getTileAt_Some w pos t :
  getTileAt w pos = Some t ->
  isValidPosition pos = true /\
  exists row, grid w !! Z.to_nat (pos_y pos) = Some row /\
              row !! Z.to_nat (pos_x pos) = Some t.
Proof.
  unfold getTileAt. destruct (isValidPosition pos); [|discriminate].
  intros H. split; [reflexivity|].
  destruct (grid w !! Z.to_nat (pos_y pos)) as [row|]; [|discriminate].
  exists row. split; [reflexivity|exact H].
Qed.

Lemma grid_ok_lookup w pos t : grid_ok w -> getTileAt w pos = Some t -> tile_ok t.
Proof.
  intros Hok Ht. apply getTileAt_Some in Ht as (_ & row & Hrow & Hx).
  unfold grid_ok in Hok.
  eapply Forall_lookup_1 in Hok; [|exact Hrow].
  eapply Forall_lookup_1 in Hok; [exact Hok|exact Hx].
Qed.

Lemma getTileAt_setTileAt w pos t t' :
  getTileAt w pos = Some t -> getTileAt (setTileAt w pos t') pos = Some t'.
Proof.
  intros Ht. apply getTileAt_Some in Ht as (Hv & row & Hrow & Hx).
  unfold getTileAt, setTileAt. rewrite Hv. cbn [grid].
  rewrite list_lookup_alter_eq, Hrow. cbn.
  apply list_lookup_insert_eq. eapply lookup_lt_Some, Hx.
Qed.

Lemma terrain_setTileAt w pos t t' p :
  getTileAt w pos = Some t -> terrain t' = terrain t ->
  terrain <$> getTileAt (setTileAt w pos t') p = terrain <$> getTileAt w p.
Proof.
  intros Ht Hterr. apply getTileAt_Some in Ht as (Hv & row & Hrow & Hx).
  unfold getTileAt, setTileAt. cbn [grid].
  destruct (isValidPosition p); [|reflexivity].
  rewrite list_lookup_alter.
  destruct (decide (Z.to_nat (pos_y pos) = Z.to_nat (pos_y p))) as [Hy|Hy]; [|reflexivity].
  rewrite <- Hy, Hrow. cbn.
  rewrite list_lookup_insert.
  destruct (decide _) as [[Hxx _]|_]; [|reflexivity].
  rewrite <- Hxx, Hx. cbn. congruence.
Qed.

Lemma grid_ok_setTileAt w pos t' : grid_ok w -> tile_ok t' -> grid_ok (setTileAt w pos t').
Proof.
  unfold grid_ok, setTileAt. cbn [grid]. intros Hok Ht'.
  apply Forall_alter; [exact Hok|].
  intros row _ Hrow. apply Forall_insert; assumption.
Qed.

Lemma on_land_setTileAt w pos t t' :
  getTileAt w pos = Some t -> terrain t' = terrain t ->
  on_land w -> on_land (setTileAt w pos t').
Proof.
  intros Ht Hterr (t0 & Ht0 & Hland). unfold on_land.
  pose proof (terrain_setTileAt w pos t t' (position (agent w)) Ht Hterr) as H.
  rewrite Ht0 in H. cbn [agent setTileAt].
  change (agent (setTileAt w pos t')) with (agent w) in *.
  destruct (getTileAt (setTileAt w pos t') (position (agent w))) as [t1|]; [|discriminate].
  exists t1. split; [reflexivity|]. cbn in H. congruence.
Qed.

Lemma setAgentPosition_cases w pos :
  setAgentPosition w pos = (w, false) \/
  exists t, getTileAt w pos = Some t /\ terrain t <> water /\
            setAgentPosition w pos =
              (with_agent w {| position := pos; inventory := inventory (agent w);
                               isActive := isActive (agent w) |}, true).
Proof.
  unfold setAgentPosition. destruct (isValidPosition pos); [|left; reflexivity].
  destruct (getTileAt w pos) as [t|]; [|left; reflexivity].
  destruct (bool_decide (terrain t <> water)) eqn:E; [|left; reflexivity].
  right. exists t. apply bool_decide_eq_true in E. auto.
Qed.

Lemma removeResourceFromTile_cases w pos amount :
  removeResourceFromTile w pos amount = (w, false) \/
  exists t r q, getTileAt w pos = Some t /\ resource t = Some r /\
                resourceAmount t = Some q /\ q <> 0 /\ amount <= q /\
                removeResourceFromTile w pos amount =
                  (setTileAt w pos (depleted t r q amount), true).
Proof.
  unfold removeResourceFromTile.
  destruct (getTileAt w pos) as [t|]; [|left; reflexivity].
  destruct (resource t) as [r|] eqn:Er; [|left; reflexivity].
  destruct (resourceAmount t) as [q|] eqn:Eq; [|left; reflexivity].
  destruct (negb (q =? 0) && (q >=? amount)) eqn:E; [|left; reflexivity].
  right. exists t, r, q. apply andb_true_iff in E as [E1 E2].
  apply negb_true_iff, Z.eqb_neq in E1.
  repeat split; try assumption; try reflexivity. lia.
Qed.

Lemma depleted_ok t r q amount : 0 < q -> amount <= q -> tile_ok (depleted t r q amount).
Proof.
  intros Hq Ha. unfold depleted, tile_ok.
  destruct (q - amount =? 0) eqn:E; cbn; [exact I|].
  apply Z.eqb_neq in E. lia.
Qed.

Lemma placeStructure_cases w pos s :
  placeStructure w pos s = (w, false) \/
  exists t, getTileAt w pos = Some t /\ truthy_str (structure t) = false /\
            terrain t <> water /\
            placeStructure w pos s =
              (setTileAt w pos {| terrain := terrain t; resource := resource t;
                                  resourceAmount := resourceAmount t;
                                  structure := Some s |}, true).
Proof.
  unfold placeStructure.
  destruct (getTileAt w pos) as [t|]; [|left; reflexivity].
  destruct (negb (truthy_str (structure t)) && bool_decide (terrain t <> water)) eqn:E;
    [|left; reflexivity].
  right. exists t. apply andb_true_iff in E as [E1 E2].
  apply negb_true_iff in E1. apply bool_decide_eq_true in E2. auto.
Qed.

Lemma world_inv_createWorld : world_inv createWorld.
Proof.
  split; [apply createWorld_grid_ok|]. split; [apply createWorld_on_land|reflexivity].
Qed.

Lemma world_inv_setAgentPosition w pos :
  world_inv w -> world_inv (fst (setAgentPosition w pos)).
Proof.
  intros (Hg & Hl & Ha).
  destruct (setAgentPosition_cases w pos) as [->|(t & Ht & Hterr & ->)];
    [repeat split; assumption|].
  repeat split; [exact Hg| |exact Ha].
  exists t. split; [exact Ht|exact Hterr].
Qed.

Lemma world_inv_with_inventory w inv : world_inv w -> world_inv (with_inventory w inv).
Proof.
  intros (Hg & Hl & Ha). repeat split; assumption.
Qed.

Lemma world_inv_addToInventory w item amount :
  world_inv w -> world_inv (addToInventory w item amount).
Proof. apply world_inv_with_inventory. Qed.

Lemma world_inv_removeFromInventory w item amount :
  world_inv w -> world_inv (fst (removeFromInventory w item amount)).
Proof.
  intros H. unfold removeFromInventory.
  destruct (js_ge _ _); [|exact H].
  apply world_inv_with_inventory, H.
Qed.

Lemma world_inv_removeResourceFromTile w pos amount :
  world_inv w -> world_inv (fst (removeResourceFromTile w pos amount)).
Proof.
  intros (Hg & Hl & Ha).
  destruct (removeResourceFromTile_cases w pos amount)
    as [->|(t & r & q & Ht & Hr & Hq & Hq0 & Hle & ->)];
    [repeat split; assumption|].
  pose proof (grid_ok_lookup w pos t Hg Ht) as Hok.
  unfold tile_ok in Hok. rewrite Hr, Hq in Hok.
  repeat split; [| |exact Ha].
  - apply grid_ok_setTileAt; [exact Hg|]. apply depleted_ok; assumption.
  - eapply on_land_setTileAt; [exact Ht| |exact Hl].
    unfold depleted. destruct (_ =? _); reflexivity.
Qed.

Lemma world_inv_placeStructure w pos s :
  world_inv w -> world_inv (fst (placeStructure w pos s)).
Proof.
  intros (Hg & Hl & Ha).
  destruct (placeStructure_cases w pos s) as [->|(t & Ht & _ & _ & ->)];
    [repeat split; assumption|].
  pose proof (grid_ok_lookup w pos t Hg Ht) as Hok.
  repeat split; [| |exact Ha].
  - apply grid_ok_setTileAt; [exact Hg|exact Hok].
  - eapply on_land_setTileAt; [exact Ht|reflexivity|exact Hl].
Qed.

(** ** The catalog preserves what the primitives preserve *)

Section CatalogPreserves.

Variable P : GameWorld -> Prop.
Hypothesis P_position : forall w pos, P w -> P (fst (setAgentPosition w pos)).
Hypothesis P_credit :
  forall w item amount, 0 < amount -> P w -> P (addToInventory w item amount).
Hypothesis P_debit : forall w item amount, P w -> P (fst (removeFromInventory w item amount)).
Hypothesis P_deplete :
  forall w pos amount, P w -> P (fst (removeResourceFromTile w pos amount)).
Hypothesis P_place : forall w pos s, P w -> P (fst (placeStructure w pos s)).

Lemma consumeAll_preserves reqs w : P w -> P (consumeAll w reqs).
Proof.
  unfold consumeAll. revert w.
  induction reqs as [|e reqs IH]; intros w H; [exact H|].
  cbn [fold_left]. apply IH, P_debit, H.
Qed.

Lemma move_preserves w direction : P w -> P (fst (move w direction)).
Proof.
  intros H. unfold move. destruct (List.find _ _) as [d|]; [|exact H].
  match goal with |- context [setAgentPosition w ?p] =>
    pose proof (P_position w p H) as Hs;
    destruct (setAgentPosition w p) as [w' [|]] end; exact Hs.
Qed.

Lemma gather_preserves w res : P w -> P (fst (gather w res)).
Proof.
  intros H. unfold gather. destruct (getTileAt _ _) as [t|]; [|exact H].
  destruct (_ && _) eqn:E; [|exact H]. cbn [fst].
  apply andb_true_iff in E as [_ E].
  apply P_credit; [|apply P_deplete, H].
  destruct (resourceAmount t) as [q|]; cbn in E |- *; lia.
Qed.

Lemma craft_preserves w item : P w -> P (fst (craft w item)).
Proof.
  intros H. unfold craft. destruct (recipe_lookup _ _) as [recipe|]; [|exact H].
  destruct (firstShort _ _) as [[res amount]|]; [exact H|].
  apply P_credit; [lia|]. apply consumeAll_preserves, H.
Qed.

Lemma build_preserves w name : P w -> P (fst (build w name)).
Proof.
  intros H. unfold build. destruct (recipe_lookup _ _) as [reqs|]; [|exact H].
  destruct (firstShort _ _) as [[res amount]|]; [exact H|].
  match goal with |- context [placeStructure w ?p ?s] =>
    pose proof (P_place w p s H) as Hs;
    destruct (placeStructure w p s) as [w' [|]] end; cbn [negb fst] in *;
    [apply consumeAll_preserves|]; exact Hs.
Qed.

Lemma executeTool_preserves w name args : P w -> P (fst (executeTool w name args)).
Proof.
  intros H. unfold executeTool.
  repeat (destruct (String.eqb name _));
    auto using move_preserves, gather_preserves, craft_preserves, build_preserves.
Qed.

End CatalogPreserves.

Lemma world_inv_executeTool w name args :
  world_inv w -> world_inv (fst (executeTool w name args)).
Proof.
  apply executeTool_preserves.
  - apply world_inv_setAgentPosition.
  - intros w0 item amount _. apply world_inv_addToInventory.
  - apply world_inv_removeFromInventory.
  - apply world_inv_removeResourceFromTile.
  - apply world_inv_placeStructure.
Qed.

Lemma world_inv_step w w' : world_step w w' -> world_inv w -> world_inv w'.
Proof.
  intros Hstep H. destruct Hstep.
  - apply world_inv_setAgentPosition, H.
  - apply world_inv_addToInventory, H.
  - apply world_inv_removeFromInventory, H.
  - apply world_inv_removeResourceFromTile, H.
  - apply world_inv_placeStructure, H.
  - apply world_inv_createWorld.
  - apply world_inv_executeTool, H.
Qed.

Lemma world_inv_reachable w : world_reachable w -> world_inv w.
Proof.
  induction 1 as [|w w' _ IH Hstep]; [apply world_inv_createWorld|].
  eapply world_inv_step; eassumption.
Qed.

(** ** The loop preserves what the catalog and a reset preserve *)

Section LoopPreserves.

Variable P : GameWorld -> Prop.
Hypothesis P_tool : forall w name args, P w -> P (fst (executeTool w name args)).
Hypothesis P_reset : forall w, P (reset w).

Lemma hostEvent_preserves a e : P (game a) -> P (game (hostEvent a e)).
Proof.
  intros H. destruct e; cbn.
  - exact H.
  - apply P_reset.
Qed.

Lemma hostEvents_preserves es a : P (game a) -> P (game (hostEvents a es)).
Proof.
  unfold hostEvents. revert a.
  induction es as [|e es IH]; intros a H; [exact H|].
  cbn [fold_left]. apply IH, hostEvent_preserves, H.
Qed.

Lemma executeCalls_preserves calls a :
  P (game a) -> P (game (fst (executeCalls a calls))).
Proof.
  revert a. induction calls as [|[name args] calls IH]; intros a H; [exact H|].
  cbn [executeCalls].
  pose proof (P_tool (game a) name args H) as Ht.
  destruct (executeTool (game a) name args) as [w result]. cbn [fst] in Ht.
  match goal with |- context [executeCalls ?b calls] =>
    specialize (IH b Ht); destruct (executeCalls b calls) as [a' responses] end.
  exact IH.
Qed.

Lemma iterationBody_preserves service a :
  P (game a) -> P (game (fst (iterationBody service a))).
Proof.
  intros H. unfold iterationBody.
  pose proof (hostEvents_preserves (duringCall (service (conversationHistory a))) a H) as He.
  set (a1 := hostEvents a _) in *.
  destruct (response _) as [err|[content|]]; [exact He| |exact He].
  destruct (extractFunctionCalls (Some content)) as [|c calls] eqn:Ec.
  - destruct (negb _); exact He.
  - pose proof (executeCalls_preserves (c :: calls) a1 He) as Hc.
    destruct (executeCalls a1 (c :: calls)) as [a2 responses]. cbn [fst] in *.
    apply hostEvents_preserves. exact Hc.
Qed.

Lemma whileLoop_preserves service fuel iteration a :
  P (game a) -> P (game (snd (whileLoop fuel service iteration a))).
Proof.
  revert iteration a. induction fuel as [|fuel IH]; intros iteration a H; [exact H|].
  cbn [whileLoop]. destruct (isRunning a && _); [|exact H].
  match goal with |- context [iterationBody service ?b] =>
    pose proof (iterationBody_preserves service b H) as Hb;
    destruct (iterationBody service b) as [a' [|]] end; cbn [fst] in Hb.
  - exact Hb.
  - apply IH, Hb.
Qed.

Lemma runLoop_preserves service a : P (game a) -> P (game (runLoop service a)).
Proof.
  intros H. unfold runLoop.
  pose proof (whileLoop_preserves service (Z.to_nat maxIterations) 0 a H) as Hw.
  destruct (whileLoop _ service 0 a) as [iteration a']. cbn [snd] in Hw.
  destruct (iteration >=? maxIterations); exact Hw.
Qed.

Lemma start_preserves service a goal : P (game a) -> P (game (start service a goal)).
Proof.
  intros H. unfold start. destruct (String.eqb (apiKey a) ""); [exact H|].
  apply runLoop_preserves. exact H.
Qed.

Lemma startAgent_preserves service a goalInput apiKeyInput :
  P (game a) -> P (game (startAgent service a goalInput apiKeyInput)).
Proof.
  intros H. unfold startAgent.
  destruct (String.eqb (trim goalInput) ""); [exact H|].
  destruct (String.eqb (trim apiKeyInput) ""); [exact H|].
  apply start_preserves. exact H.
Qed.

End LoopPreserves.

Lemma agent_reachable_world a : agent_reachable a -> world_reachable (game a).
Proof.
  assert (Htool : forall w name args,
             world_reachable w -> world_reachable (fst (executeTool w name args))).
  { intros w name args Hw. eapply world_reachable_step; [exact Hw|constructor]. }
  induction 1 as [|a a' Ha IH Hstep]; [constructor|].
  destruct Hstep.
  - apply start_preserves; [exact Htool| |exact IH].
    intros w. eapply world_reachable_step; [exact IH|apply (step_reset (game a))].
  - apply startAgent_preserves; [exact Htool| |exact IH].
    intros w. eapply world_reachable_step; [exact IH|apply (step_reset (game a))].
  - apply iterationBody_preserves; [exact Htool| |exact IH].
    intros w. eapply world_reachable_step; [exact IH|apply (step_reset (game a))].
  - exact IH.
  - exact IH.
  - eapply world_reachable_step; [exact IH|apply (step_reset (game a))].
  - eapply world_reachable_step; [exact IH|assumption].
Qed.

(** ** Properties of the specification: the world *)

(** C1. In every reachable world (the generated world, and whatever
    mutations of the world and operations of the catalog follow) every
    tile of the grid has a resource kind exactly when it has a remaining
    quantity greater than 0, and the two fields are set or unset
    together; a depletion that takes the whole remaining quantity
    succeeds and leaves the tile with neither field. *)
Theorem resource_depletion_invariant (w : GameWorld) :
  world_reachable w ->
  (forall row t, row ∈ grid w -> t ∈ row ->
     (is_Some (resource t) <-> exists q, resourceAmount t = Some q /\ 0 < q) /\
     (resource t = None <-> resourceAmount t = None)) /\
  (forall pos t q, getTileAt w pos = Some t -> resourceAmount t = Some q ->
     exists w' t',
       removeResourceFromTile w pos q = (w', true) /\
       getTileAt w' pos = Some t' /\
       resource t' = None /\ resourceAmount t' = None).
Proof.
  intros Hreach. apply world_inv_reachable in Hreach as (Hg & _ & _). split.
  - intros row t Hrow Ht.
    unfold grid_ok in Hg. rewrite Forall_forall in Hg.
    specialize (Hg row Hrow). rewrite Forall_forall in Hg. specialize (Hg t Ht).
    unfold tile_ok in Hg.
    destruct (resource t) as [r|], (resourceAmount t) as [q|]; try contradiction.
    + split; [split; [eauto|intros _; eexists; reflexivity]|split; discriminate].
    + split; [split; [intros [? [=]]|intros (q & [=] & _)]|split; reflexivity].
  - intros pos t q Ht Hq.
    pose proof (grid_ok_lookup w pos t Hg Ht) as Hok. unfold tile_ok in Hok.
    rewrite Hq in Hok. destruct (resource t) as [r|] eqn:Hr; [|contradiction].
    exists (setTileAt w pos (depleted t r q q)), (depleted t r q q).
    split; [|split].
    + unfold removeResourceFromTile. rewrite Ht, Hr, Hq.
      replace (negb (q =? 0) && (q >=? q)) with true
        by (symmetry; apply andb_true_iff; split; [apply negb_true_iff, Z.eqb_neq|]; lia).
      reflexivity.
    + eapply getTileAt_setTileAt, Ht.
    + unfold depleted. rewrite Z.sub_diag. split; reflexivity.
Qed.

(** C5. In every reachable world the agent's position has both
    coordinates in [0, gridSize) and the tile there is not water; the
    generated world has the agent at (10, 10). *)
Theorem agent_position_on_land (w : GameWorld) :
  world_reachable w ->
  position (agent createWorld) = mkPosition 10 10 /\
  0 <= pos_x (position (agent w)) < gridSize /\
  0 <= pos_y (position (agent w)) < gridSize /\
  exists t, getTileAt w (position (agent w)) = Some t /\ terrain t <> water.
Proof.
  intros Hreach. apply world_inv_reachable in Hreach as (_ & (t & Ht & Hland) & _).
  split; [reflexivity|].
  pose proof (getTileAt_Some w _ t Ht) as [Hv _].
  unfold isValidPosition in Hv. rewrite !andb_true_iff in Hv.
  repeat split; try lia. exists t. split; assumption.
Qed.

(** C10. The [isActive] flag of the agent state is false in every
    reachable state: in the generated world, after a reset, and after
    any step of the loop, of the host or of the world. *)
Theorem isActive_always_false (a : Agent) :
  agent_reachable a ->
  isActive (agent (game a)) = false /\
  isActive (agent createWorld) = false /\
  isActive (agent (reset (game a))) = false /\
  forall a', agent_step a a' -> isActive (agent (game a')) = false.
Proof.
  intros Hreach.
  assert (Hall : forall b, agent_reachable b -> isActive (agent (game b)) = false).
  { intros b Hb. apply agent_reachable_world, world_inv_reachable in Hb as (_ & _ & Hb).
    exact Hb. }
  split; [apply Hall, Hreach|]. split; [reflexivity|]. split; [reflexivity|].
  intros a' Hstep. apply Hall. eapply agent_reachable_step; eassumption.
Qed.

(** ** Properties of the specification: the inventory *)

(** *** The primitives, entry by entry *)

Lemma inherited_cases k :
  inherited k = true -> k = "__proto__" \/ k ∈ prototype_functions.
Proof.
  unfold inherited, prototype_members. intros H. apply bool_decide_eq_true in H.
  apply elem_of_cons in H. exact H.
Qed.

Lemma prototype_functions_inherited k :
  k ∈ prototype_functions -> inherited k = true /\ k <> "__proto__".
Proof.
  intros H. split.
  - apply bool_decide_eq_true. right. exact H.
  - intros ->. revert H. unfold prototype_functions.
    rewrite !elem_of_cons, elem_of_nil. intros H.
    repeat (destruct H as [H|H]; [discriminate H|]). exact H.
Qed.

Lemma lookup_js_set inv item p k :
  js_set inv item p !! k =
    if decide (item = k)
    then match inv !! item with
         | None => if String.eqb item "__proto__" then None else Some p
         | Some _ => Some p
         end
    else inv !! k.
Proof.
  unfold js_set. destruct (decide (item = k)) as [<-|Hne].
  - destruct (inv !! item) eqn:E; [apply lookup_insert_eq|].
    destruct (String.eqb item "__proto__"); [exact E|apply lookup_insert_eq].
  - destruct (inv !! item); [apply lookup_insert_ne, Hne|].
    destruct (String.eqb item "__proto__"); [reflexivity|apply lookup_insert_ne, Hne].
Qed.

Lemma inventory_addToInventory w item amount k :
  inventory (agent (addToInventory w item amount)) !! k =
    if decide (item = k)
    then credit_entry item (inventory (agent w) !! item) amount
    else inventory (agent w) !! k.
Proof.
  unfold addToInventory. cbn [with_inventory with_agent agent inventory].
  set (inv := inventory (agent w)).
  destruct (decide (item = k)) as [<-|Hne].
  - rewrite lookup_js_set, decide_True by reflexivity.
    unfold credit_entry, js_get.
    destruct (inv !! item) as [p|] eqn:E.
    + destruct p as [n| |m added]; cbn [js_truthy negb].
      * destruct (n =? 0) eqn:En; cbn [negb].
        -- rewrite lookup_js_set, decide_True, E by reflexivity.
           apply Z.eqb_eq in En. subst n. reflexivity.
        -- rewrite E. reflexivity.
      * rewrite lookup_js_set, decide_True, E by reflexivity. reflexivity.
      * rewrite E. reflexivity.
    + destruct (inherited item) eqn:Ei; cbn [js_truthy negb].
      * rewrite E. destruct (String.eqb item "__proto__"); reflexivity.
      * rewrite lookup_js_set, decide_True, E by reflexivity.
        destruct (String.eqb_spec item "__proto__") as [->|_]; [discriminate Ei|].
        reflexivity.
  - rewrite lookup_js_set, decide_False by exact Hne.
    destruct (negb _); [|reflexivity].
    rewrite lookup_js_set, decide_False by exact Hne. reflexivity.
Qed.

Lemma removeFromInventory_unfold w item amount :
  removeFromInventory w item amount =
    match inventory (agent w) !! item with
    | Some (PNumber c) =>
        if c >=? amount then
          (with_inventory w
             (if c - amount =? 0 then delete item (inventory (agent w))
              else <[item := PNumber (c - amount)]> (inventory (agent w))),
           true)
        else (w, false)
    | _ => (w, false)
    end.
Proof.
  unfold removeFromInventory, js_get.
  destruct (inventory (agent w) !! item) as [[c| |m added]|] eqn:E; cbn [js_ge js_minus];
    [|reflexivity|reflexivity|destruct (inherited item); reflexivity].
  destruct (c >=? amount); [|reflexivity].
  unfold js_set. rewrite E, lookup_insert_eq. cbn [js_is_zero].
  destruct (c - amount =? 0); [|reflexivity].
  rewrite delete_insert_eq. reflexivity.
Qed.

Lemma hasInInventory_unfold w item amount :
  hasInInventory w item amount =
    match inventory (agent w) !! item with
    | Some (PNumber c) => c >=? amount
    | Some PNaN => 0 >=? amount
    | Some (PText _ _) => false
    | None => if inherited item then false else 0 >=? amount
    end.
Proof.
  unfold hasInInventory, js_get, js_or_zero.
  destruct (inventory (agent w) !! item) as [[c| |m added]|]; cbn [js_truthy js_ge];
    [|reflexivity|reflexivity|destruct (inherited item); reflexivity].
  destruct (c =? 0) eqn:E; [|reflexivity].
  apply Z.eqb_eq in E. subst c. reflexivity.
Qed.

Lemma count_unfold w item :
  count w item =
    match inventory (agent w) !! item with
    | Some (PNumber c) => c
    | _ => 0
    end.
Proof.
  unfold count, js_get, js_or_zero.
  destruct (inventory (agent w) !! item) as [[c| |m added]|]; cbn [js_truthy];
    [|reflexivity|reflexivity|destruct (inherited item); reflexivity].
  destruct (c =? 0) eqn:E; [|reflexivity].
  apply Z.eqb_eq in E. subst c. reflexivity.
Qed.

Lemma hasInInventory_count w item amount :
  0 < amount -> hasInInventory w item amount = true <-> amount <= count w item.
Proof.
  intros Ha. rewrite hasInInventory_unfold, count_unfold.
  destruct (inventory (agent w) !! item) as [[c| |m added]|];
    [|split; [intros H; apply Z.geb_le in H|]; lia
     |split; [discriminate|lia]
     |destruct (inherited item);
      (split; [intros H; try discriminate H; apply Z.geb_le in H|]; lia)].
  split; [intros H; apply Z.geb_le in H; lia|intros H; apply Z.geb_le; lia].
Qed.

Lemma credit_entry_own item held amount :
  inherited item = false -> credit_entry item held amount = Some (credited held amount).
Proof.
  intros Hitem. unfold credit_entry. destruct held as [p|]; [reflexivity|].
  rewrite Hitem. destruct (String.eqb_spec item "__proto__") as [->|_]; [discriminate|].
  reflexivity.
Qed.

Lemma resource_name_own r : inherited (resource_name r) = false.
Proof. destruct r; vm_compute; reflexivity. Qed.

Lemma credited_numeric w item amount :
  numeric_at w item ->
  credited (inventory (agent w) !! item) amount = PNumber (count w item + amount).
Proof.
  intros Hnum. rewrite count_unfold. unfold credited.
  destruct (inventory (agent w) !! item) as [p|] eqn:E; [|reflexivity].
  destruct (Hnum p E) as [n ->]. reflexivity.
Qed.

(** *** Invariants of the inventory *)

Lemma shape_ok_addToInventory w item amount :
  shape_ok w -> shape_ok (addToInventory w item amount).
Proof.
  unfold shape_ok, inventory_shape. intros H k p.
  rewrite inventory_addToInventory.
  destruct (decide (item = k)) as [<-|Hne]; [|apply H].
  unfold credit_entry, credited.
  destruct (inventory (agent w) !! item) as [[n| |m added]|] eqn:E.
  - intros [= <-]. exact (H _ _ E).
  - destruct (H _ _ E).
  - intros [= <-]. exact (H _ _ E).
  - destruct (String.eqb_spec item "__proto__") as [->|Hp]; [discriminate|].
    destruct (inherited item) eqn:Ei; intros [= <-]; cbn [entry_shape]; [|exact Ei].
    split; [reflexivity|]. destruct (inherited_cases _ Ei); [contradiction|assumption].
Qed.

Lemma shape_ok_removeFromInventory w item amount :
  shape_ok w -> shape_ok (fst (removeFromInventory w item amount)).
Proof.
  unfold shape_ok, inventory_shape. intros H. rewrite removeFromInventory_unfold.
  destruct (inventory (agent w) !! item) as [[c| |m added]|] eqn:E; try exact H.
  destruct (c >=? amount); [|exact H].
  cbn [fst with_inventory with_agent agent inventory]. intros k p.
  destruct (c - amount =? 0).
  - intros Hk. apply lookup_delete_Some in Hk as [_ Hk]. exact (H _ _ Hk).
  - destruct (decide (item = k)) as [<-|Hne].
    + rewrite lookup_insert_eq. intros [= <-]. exact (H _ _ E).
    + rewrite lookup_insert_ne by exact Hne. apply H.
Qed.

Lemma inv_ok_addToInventory w item amount :
  0 < amount -> inv_ok w -> inv_ok (addToInventory w item amount).
Proof.
  unfold inv_ok, inventory_positive. intros Ha H k c.
  rewrite inventory_addToInventory.
  destruct (decide (item = k)) as [<-|Hne]; [|apply H].
  unfold credit_entry, credited.
  destruct (inventory (agent w) !! item) as [[n| |m added]|] eqn:E.
  - intros [= <-]. specialize (H _ _ E). lia.
  - intros [= <-]. exact Ha.
  - discriminate.
  - destruct (String.eqb item "__proto__"); [discriminate|].
    destruct (inherited item); [discriminate|]. intros [= <-]. exact Ha.
Qed.

Lemma inv_ok_removeFromInventory w item amount :
  inv_ok w -> inv_ok (fst (removeFromInventory w item amount)).
Proof.
  unfold inv_ok, inventory_positive. intros H. rewrite removeFromInventory_unfold.
  destruct (inventory (agent w) !! item) as [[q| |m added]|] eqn:Eq; try exact H.
  destruct (q >=? amount) eqn:Ege; [|exact H].
  cbn [fst with_inventory with_agent agent inventory]. intros k c.
  destruct (q - amount =? 0) eqn:E.
  - intros Hk. apply lookup_delete_Some in Hk as [_ Hk]. eapply H, Hk.
  - destruct (decide (item = k)) as [->|Hne].
    + rewrite lookup_insert_eq. intros [= <-]. apply Z.eqb_neq in E. lia.
    + rewrite lookup_insert_ne by exact Hne. apply H.
Qed.

Lemma inventory_setAgentPosition w pos :
  inventory (agent (fst (setAgentPosition w pos))) = inventory (agent w).
Proof.
  destruct (setAgentPosition_cases w pos) as [->|(t & _ & _ & ->)]; reflexivity.
Qed.

Lemma agent_removeResourceFromTile w pos amount :
  agent (fst (removeResourceFromTile w pos amount)) = agent w.
Proof.
  destruct (removeResourceFromTile_cases w pos amount)
    as [->|(t & r & q & _ & _ & _ & _ & _ & ->)]; reflexivity.
Qed.

Lemma agent_placeStructure w pos s : agent (fst (placeStructure w pos s)) = agent w.
Proof.
  destruct (placeStructure_cases w pos s) as [->|(t & _ & _ & _ & ->)]; reflexivity.
Qed.

Lemma inv_ok_executeTool w name args : inv_ok w -> inv_ok (fst (executeTool w name args)).
Proof.
  apply executeTool_preserves; unfold inv_ok.
  - intros w0 pos. rewrite inventory_setAgentPosition. exact id.
  - apply inv_ok_addToInventory.
  - apply inv_ok_removeFromInventory.
  - intros w0 pos amount. rewrite agent_removeResourceFromTile. exact id.
  - intros w0 pos s0. rewrite agent_placeStructure. exact id.
Qed.

Lemma shape_ok_executeTool w name args :
  shape_ok w -> shape_ok (fst (executeTool w name args)).
Proof.
  apply executeTool_preserves; unfold shape_ok.
  - intros w0 pos. rewrite inventory_setAgentPosition. exact id.
  - intros w0 item amount _. apply shape_ok_addToInventory.
  - apply shape_ok_removeFromInventory.
  - intros w0 pos amount. rewrite agent_removeResourceFromTile. exact id.
  - intros w0 pos s0. rewrite agent_placeStructure. exact id.
Qed.

Lemma inv_ok_createWorld : inv_ok createWorld.
Proof. intros k c Hk. cbn in Hk. rewrite lookup_empty in Hk. discriminate. Qed.

Lemma shape_ok_createWorld : shape_ok createWorld.
Proof. intros k c Hk. cbn in Hk. rewrite lookup_empty in Hk. discriminate. Qed.



Lemma shape_ok_inventory_reachable w : inventory_reachable w -> shape_ok w.
Proof.
  induction 1 as [|w w' _ IH Hstep]; [apply shape_ok_createWorld|].
  destruct Hstep as [w w' [w0 name args|w0]|w item amount Ha|w item amount Ha].
  - apply shape_ok_executeTool, IH.
  - apply shape_ok_createWorld.
  - apply shape_ok_addToInventory, IH.
  - apply shape_ok_removeFromInventory, IH.
Qed.

Lemma inv_ok_inventory_reachable w : inventory_reachable w -> inv_ok w.
Proof.
  induction 1 as [|w w' _ IH Hstep]; [apply inv_ok_createWorld|].
  destruct Hstep as [w w' [w0 name args|w0]|w item amount Ha|w item amount Ha].
  - apply inv_ok_executeTool, IH.
  - apply inv_ok_createWorld.
  - apply inv_ok_addToInventory; assumption.
  - apply inv_ok_removeFromInventory, IH.
Qed.

(** C6, as the code has it. In every state that the catalog, a reset,
    credits of a positive amount and debits of a non-negative amount
    lead to, every entry stored under a key that is not the name of a
    member of [Object.prototype] is a number, and a strictly positive
    one: no such key persists with count 0. *)
Theorem inventory_entries_positive (w : GameWorld) :
  inventory_reachable w ->
  forall item p,
    inherited item = false ->
    inventory (agent w) !! item = Some p ->
    exists c, p = PNumber c /\ 0 < c.
Proof.
  intros Hreach item p Hitem Hp.
  pose proof (shape_ok_inventory_reachable w Hreach item p Hp) as Hshape.
  pose proof (inv_ok_inventory_reachable w Hreach item) as Hpos.
  destruct p as [c| |m added].
  - exists c. split; [reflexivity|]. apply Hpos, Hp.
  - destruct Hshape.
  - destruct Hshape as [_ Hin].
    apply prototype_functions_inherited in Hin as [Hin _]. congruence.
Qed.

(** ** Properties of the specification: the catalog *)

Lemma gather_available w res t r q :
  getTileAt w (position (agent w)) = Some t ->
  resource t = Some r -> resource_name r = res ->
  resourceAmount t = Some q -> 0 < q ->
  gather w res =
    (addToInventory (setTileAt w (position (agent w)) (depleted t r q (Z.min 5 q)))
                    res (Z.min 5 q),
     {| success := true;
        message := "Gathered " +:+ num_str (Z.min 5 q) +:+ " " +:+ res;
        data := Some (DataGather res (Z.min 5 q)) |}).
Proof.
  intros Ht Hr Hname Hq Hpos. unfold gather, getAgent. rewrite Ht, Hr, Hq. cbn [fmap option_fmap option_map].
  rewrite Hname, bool_decide_eq_true_2 by reflexivity.
  change (default 0 (Some q)) with q. cbn [truthy_num num_gt andb].
  replace (negb (q =? 0)) with true by (symmetry; apply negb_true_iff, Z.eqb_neq; lia).
  replace (q >? 0) with true by (symmetry; lia). cbn [andb].
  unfold removeResourceFromTile. rewrite Ht, Hr, Hq.
  replace (negb (q =? 0) && (q >=? Z.min 5 q)) with true
    by (symmetry; apply andb_true_iff; split; [apply negb_true_iff, Z.eqb_neq|]; lia).
  reflexivity.
Qed.

Lemma gather_success_inv w res :
  success (snd (gather w res)) = true ->
  exists t r q, getTileAt w (position (agent w)) = Some t /\ resource t = Some r /\
                resource_name r = res /\ resourceAmount t = Some q /\ 0 < q.
Proof.
  unfold gather, getAgent.
  destruct (getTileAt w (position (agent w))) as [t|]; [|discriminate].
  destruct (_ && _) eqn:E; [|discriminate]. intros _.
  apply andb_true_iff in E as [E Hgt]. apply andb_true_iff in E as [Hres _].
  apply bool_decide_eq_true in Hres.
  destruct (resource t) as [r|] eqn:Er; [|discriminate].
  destruct (resourceAmount t) as [q|] eqn:Eq; [|discriminate].
  exists t, r, q. cbn in Hres, Hgt. injection Hres as Hres.
  repeat split; try assumption. lia.
Qed.

Lemma gather_failure w res : success (snd (gather w res)) = false -> fst (gather w res) = w.
Proof.
  unfold gather. destruct (getTileAt _ _) as [t|]; [|reflexivity].
  destruct (_ && _); [discriminate|reflexivity].
Qed.

(** C2. [gather r] succeeds exactly when the tile under the agent
    carries a resource of kind [r] with a positive quantity [q]; it then
    reports and takes [min 5 q] units from that tile (the tile keeps
    [q - 5] units of the resource, or neither resource nor quantity when
    [q <= 5]) and credits the same amount to the entry of [r] in the
    inventory (a count grows by it, an absent entry starts from 0),
    leaving every other entry as it was; when it fails the world is
    unchanged.  On the generated world, with 8 wood under the
    agent, [gather "wood"] reports 5, leaves 3 wood on the tile and 5
    wood in the inventory. *)
Theorem gather_spec (w : GameWorld) (res : string) :
  let pos := position (agent w) in
  let w' := fst (gather w res) in
  let result := snd (gather w res) in
  (success result = true <->
   exists t r q, getTileAt w pos = Some t /\ resource t = Some r /\
                 resource_name r = res /\ resourceAmount t = Some q /\ 0 < q) /\
  (forall t r q,
     getTileAt w pos = Some t -> resource t = Some r -> resource_name r = res ->
     resourceAmount t = Some q -> 0 < q ->
     data result = Some (DataGather res (Z.min 5 q)) /\
     position (agent w') = pos /\
     (exists t', getTileAt w' pos = Some t' /\
                 num_or_zero (resourceAmount t') = q - Z.min 5 q /\
                 resourceAmount t' = (if q <=? 5 then None else Some (q - 5)) /\
                 resource t' = (if q <=? 5 then None else Some r) /\
                 terrain t' = terrain t /\ structure t' = structure t) /\
     inventory (agent w') !! res =
       Some (credited (inventory (agent w) !! res) (Z.min 5 q)) /\
     (numeric_at w res ->
      inventory (agent w') !! res = Some (PNumber (count w res + Z.min 5 q))) /\
     (forall k, k <> res -> inventory (agent w') !! k = inventory (agent w) !! k)) /\
  (success result = false -> w' = w) /\
  (forall t,
     getTileAt createWorld (position (agent createWorld)) = Some t ->
     resource t = Some wood -> resourceAmount t = Some 8 ->
     let fresh' := fst (gather createWorld "wood") in
     data (snd (gather createWorld "wood")) = Some (DataGather "wood" 5) /\
     (exists t', getTileAt fresh' (position (agent createWorld)) = Some t' /\
                 resource t' = Some wood /\ resourceAmount t' = Some 3) /\
     inventory (agent fresh') !! "wood" = Some (PNumber 5)).
Proof.
  cbv zeta. split; [split|split; [|split]].
  - apply gather_success_inv.
  - intros (t & r & q & Ht & Hr & Hname & Hq & Hpos).
    rewrite (gather_available w res t r q Ht Hr Hname Hq Hpos). reflexivity.
  - intros t r q Ht Hr Hname Hq Hpos.
    rewrite (gather_available w res t r q Ht Hr Hname Hq Hpos). cbn [fst snd data].
    assert (Hentry : inventory (agent (addToInventory
                (setTileAt w (position (agent w)) (depleted t r q (Z.min 5 q)))
                res (Z.min 5 q))) !! res
              = Some (credited (inventory (agent w) !! res) (Z.min 5 q))).
    { rewrite inventory_addToInventory, decide_True by reflexivity.
      apply credit_entry_own. rewrite <- Hname. apply resource_name_own. }
    split; [reflexivity|]. split; [reflexivity|]. split; [|split; [|split]].
    + exists (depleted t r q (Z.min 5 q)). split.
      * change (getTileAt (addToInventory ?v _ _) ?p) with (getTileAt v p).
        eapply getTileAt_setTileAt, Ht.
      * assert (q <= 5 /\ Z.min 5 q = q \/ 5 < q /\ Z.min 5 q = 5) as [[H5 ->]|[H5 ->]] by lia;
          unfold depleted, num_or_zero.
        -- rewrite Z.sub_diag, (proj2 (Z.leb_le q 5) H5). cbn. repeat split.
        -- rewrite (proj2 (Z.eqb_neq (q - 5) 0)), (proj2 (Z.leb_gt q 5) H5) by lia.
           cbn [resourceAmount resource terrain structure truthy_num].
           rewrite (proj2 (Z.eqb_neq (q - 5) 0)) by lia. repeat split.
    + exact Hentry.
    + intros Hnum. rewrite Hentry. f_equal. apply credited_numeric, Hnum.
    + intros k Hk. rewrite inventory_addToInventory, decide_False by congruence. reflexivity.
  - apply gather_failure.
  - intros t Ht Hr Hq.
    rewrite (gather_available createWorld "wood" t wood 8 Ht Hr eq_refl Hq ltac:(lia)).
    cbn [fst snd data]. split; [reflexivity|]. split.
    + exists (depleted t wood 8 (Z.min 5 8)). split; [|split; reflexivity].
      change (getTileAt (addToInventory ?v _ _) ?p) with (getTileAt v p).
      eapply getTileAt_setTileAt, Ht.
    + rewrite inventory_addToInventory, decide_True by reflexivity. reflexivity.
Qed.

Lemma firstShort_None w reqs :
  firstShort w reqs = None ->
  forall e, e ∈ reqs -> hasInInventory w (fst e) (snd e) = true.
Proof.
  unfold firstShort. intros H e He. apply list_elem_of_In in He.
  pose proof (find_none _ _ H e He) as Hf. cbn in Hf.
  apply negb_false_iff in Hf. exact Hf.
Qed.

Lemma firstShort_short w reqs res amount :
  (res, amount) ∈ reqs -> hasInInventory w res amount = false ->
  exists e, firstShort w reqs = Some e.
Proof.
  intros He Hshort. destruct (firstShort w reqs) as [e|] eqn:E; [eauto|].
  pose proof (firstShort_None w reqs E (res, amount) He) as H. cbn in H. congruence.
Qed.

Lemma craft_failure w item : success (snd (craft w item)) = false -> fst (craft w item) = w.
Proof.
  unfold craft. destruct (recipe_lookup _ _) as [recipe|]; [|reflexivity].
  destruct (firstShort _ _) as [[res amount]|]; [reflexivity|discriminate].
Qed.

Lemma build_failure w name : success (snd (build w name)) = false -> fst (build w name) = w.
Proof.
  unfold build. destruct (recipe_lookup _ _) as [reqs|]; [|reflexivity].
  destruct (firstShort _ _) as [[res amount]|]; [reflexivity|].
  destruct (placeStructure_cases w (position (getAgent w)) name) as [->|(t & _ & _ & _ & ->)];
    [reflexivity|discriminate].
Qed.

(** C3. [craft] and [build] are all or nothing: whatever recipe the
    lookup of the name answers, when some required resource is short of
    its count the operation fails and the world (inventory and grid) is
    unchanged; [build] with enough resources
    fails and leaves the world unchanged when [placeStructure] refuses
    the tile; any failure of either leaves the world unchanged; a
    successful [craft] is the debit of the recipe followed by the credit
    of the item, and a successful [build] is the debit of the
    requirements applied to the world in which [placeStructure] has
    succeeded. *)
Theorem craft_build_all_or_nothing (w : GameWorld) (name : string) :
  (forall recipe res amount,
     recipe_lookup recipes name = Some recipe ->
     (res, amount) ∈ recipe -> hasInInventory w res amount = false ->
     fst (craft w name) = w /\ success (snd (craft w name)) = false) /\
  (forall reqs res amount,
     recipe_lookup buildRequirements name = Some reqs ->
     (res, amount) ∈ reqs -> hasInInventory w res amount = false ->
     fst (build w name) = w /\ success (snd (build w name)) = false) /\
  (forall reqs,
     recipe_lookup buildRequirements name = Some reqs ->
     snd (placeStructure w (position (agent w)) name) = false ->
     fst (build w name) = w /\ success (snd (build w name)) = false) /\
  (success (snd (craft w name)) = false -> fst (craft w name) = w) /\
  (success (snd (build w name)) = false -> fst (build w name) = w) /\
  (success (snd (craft w name)) = true ->
   exists recipe,
     recipe_lookup recipes name = Some recipe /\
     firstShort w recipe = None /\
     fst (craft w name) = addToInventory (consumeAll w recipe) name 1) /\
  (success (snd (build w name)) = true ->
   exists reqs w1,
     recipe_lookup buildRequirements name = Some reqs /\
     firstShort w reqs = None /\
     placeStructure w (position (agent w)) name = (w1, true) /\
     fst (build w name) = consumeAll w1 reqs).
Proof.
  repeat apply conj.
  - intros recipe res amount Hrec Hin Hshort.
    destruct (firstShort_short w recipe res amount Hin Hshort) as [[res' amount'] Hf].
    unfold craft. rewrite Hrec, Hf. split; reflexivity.
  - intros reqs res amount Hreq Hin Hshort.
    destruct (firstShort_short w reqs res amount Hin Hshort) as [[res' amount'] Hf].
    unfold build. rewrite Hreq, Hf. split; reflexivity.
  - intros reqs Hreq Hplace. unfold build, getAgent. rewrite Hreq.
    destruct (firstShort w reqs) as [[res amount]|]; [split; reflexivity|].
    destruct (placeStructure_cases w (position (agent w)) name) as [E|(t & _ & _ & _ & E)];
      rewrite E in Hplace |- *; [split; reflexivity|discriminate].
  - apply craft_failure.
  - apply build_failure.
  - unfold craft. destruct (recipe_lookup _ _) as [recipe|]; [|discriminate].
    destruct (firstShort w recipe) as [[res amount]|] eqn:Ef; [discriminate|].
    intros _. exists recipe. repeat split. exact Ef.
  - unfold build, getAgent. destruct (recipe_lookup _ _) as [reqs|]; [|discriminate].
    destruct (firstShort w reqs) as [[res amount]|] eqn:Ef; [discriminate|].
    destruct (placeStructure w (position (agent w)) name) as [w1 [|]] eqn:Ep;
      [|discriminate].
    intros _. exists reqs, w1. repeat split. exact Ef.
Qed.

Lemma find_direction d :
  List.find (fun d' => String.eqb (direction_name d') (direction_name d)) validDirections
  = Some d.
Proof. destruct d; reflexivity. Qed.

Lemma find_direction_None direction :
  direction ∉ direction_name <$> validDirections ->
  List.find (fun d' => String.eqb (direction_name d') direction) validDirections = None.
Proof.
  unfold validDirections. cbn [fmap list_fmap direction_name].
  rewrite !not_elem_of_cons. intros (Hn & Hs & He & Hw & _).
  cbn [List.find direction_name].
  rewrite !(proj2 (String.eqb_neq _ _)) by congruence. reflexivity.
Qed.

Lemma move_unfold w d :
  move w (direction_name d) =
    let newPos := adjacent (position (agent w)) d in
    if snd (setAgentPosition w newPos) then
      (fst (setAgentPosition w newPos),
       {| success := true;
          message := "Moved " +:+ direction_name d +:+ " to position ("
                     +:+ num_str (pos_x newPos) +:+ ", "
                     +:+ num_str (pos_y newPos) +:+ ")";
          data := Some (DataPosition newPos) |})
    else
      (fst (setAgentPosition w newPos),
       fail_result ("Cannot move " +:+ direction_name d
                    +:+ " - obstacle or boundary in the way")).
Proof.
  unfold move. rewrite find_direction. cbv zeta. unfold getAgent.
  replace (match d with
           | north => _ | south => _ | east => _ | west => _ end)
    with (adjacent (position (agent w)) d) by (destruct d; reflexivity).
  destruct (setAgentPosition w _) as [w' [|]]; reflexivity.
Qed.

(** C4. [move] with a string that is not one of north, south, east,
    west fails with a message that lists the four and leaves the world
    unchanged; with a valid direction whose adjacent coordinate is out
    of bounds, or is a water tile, it fails and leaves the world (so the
    position) unchanged; with a valid direction whose adjacent
    coordinate is a tile that is not water it succeeds and the position
    becomes that coordinate, grid and inventory being unchanged. *)
Theorem move_spec (w : GameWorld) :
  (forall direction,
     direction ∉ ["north"; "south"; "east"; "west"] ->
     move w direction =
       (w, {| success := false;
              message := "Invalid direction: " +:+ direction
                         +:+ ". Must be one of: north, south, east, west";
              data := None |})) /\
  (forall d,
     let target := adjacent (position (agent w)) d in
     isValidPosition target = false \/
     (exists t, getTileAt w target = Some t /\ terrain t = water) ->
     fst (move w (direction_name d)) = w /\
     success (snd (move w (direction_name d))) = false /\
     message (snd (move w (direction_name d))) =
       "Cannot move " +:+ direction_name d +:+ " - obstacle or boundary in the way") /\
  (forall d t,
     let target := adjacent (position (agent w)) d in
     getTileAt w target = Some t -> terrain t <> water ->
     let w' := fst (move w (direction_name d)) in
     success (snd (move w (direction_name d))) = true /\
     data (snd (move w (direction_name d))) = Some (DataPosition target) /\
     position (agent w') = target /\
     grid w' = grid w /\
     inventory (agent w') = inventory (agent w)).
Proof.
  repeat apply conj.
  - intros direction Hnot. unfold move.
    rewrite (find_direction_None direction Hnot). reflexivity.
  - intros d target Hblocked. rewrite move_unfold. cbv zeta. fold target.
    assert (setAgentPosition w target = (w, false)) as ->; [|repeat split].
    unfold setAgentPosition. destruct Hblocked as [->|(t & Ht & Hwater)]; [reflexivity|].
    rewrite Ht, (proj1 (getTileAt_Some w target t Ht)), Hwater.
    reflexivity.
  - intros d t target Ht Hland w'. subst w'. rewrite move_unfold. cbv zeta. fold target.
    assert (setAgentPosition w target =
              (with_agent w {| position := target; inventory := inventory (agent w);
                               isActive := isActive (agent w) |}, true)) as ->;
      [|repeat split].
    unfold setAgentPosition.
    rewrite Ht, (proj1 (getTileAt_Some w target t Ht)), bool_decide_eq_true_2 by exact Hland.
    reflexivity.
Qed.

(** ** Properties of the specification: the loop *)

Lemma executeTool_unknown w name args :
  name ∉ toolNames ->
  executeTool w name args = (w, fail_result ("Unknown tool: " +:+ name)).
Proof.
  unfold toolNames. rewrite !not_elem_of_cons. intros (H1 & H2 & H3 & H4 & H5 & H6 & _).
  unfold executeTool.
  rewrite !(proj2 (String.eqb_neq _ _)) by assumption. reflexivity.
Qed.

Lemma start_started service a goal :
  apiKey a <> "" -> start service a goal = runLoop service (started a goal).
Proof.
  intros Hkey. unfold start. rewrite (proj2 (String.eqb_neq _ _) Hkey). reflexivity.
Qed.

(** Fuel beyond the iterations that remain changes nothing. *)
Lemma whileLoop_fuel service fuel fuel' iteration a :
  (Z.to_nat (maxIterations - iteration) <= fuel)%nat ->
  (Z.to_nat (maxIterations - iteration) <= fuel')%nat ->
  whileLoop fuel service iteration a = whileLoop fuel' service iteration a.
Proof.
  revert fuel' iteration a.
  induction fuel as [|fuel IH]; intros fuel' iteration a H H'.
  - destruct fuel' as [|fuel']; [reflexivity|]. cbn [whileLoop].
    replace (iteration <? maxIterations) with false by (symmetry; apply Z.ltb_ge; lia).
    rewrite andb_false_r. reflexivity.
  - destruct fuel' as [|fuel'].
    + cbn [whileLoop].
      replace (iteration <? maxIterations) with false by (symmetry; apply Z.ltb_ge; lia).
      rewrite andb_false_r. reflexivity.
    + cbn [whileLoop].
      destruct (isRunning a && (iteration <? maxIterations)) eqn:E; [|reflexivity].
      apply andb_true_iff in E as [_ E]. apply Z.ltb_lt in E.
      destruct (iterationBody service _) as [a' [|]]; [reflexivity|].
      apply IH; lia.
Qed.

Lemma whileLoop_bound service fuel iteration a :
  iteration <= maxIterations ->
  iteration <= fst (whileLoop fuel service iteration a) <= maxIterations.
Proof.
  revert iteration a. induction fuel as [|fuel IH]; intros iteration a H; cbn [whileLoop].
  - cbn. lia.
  - destruct (isRunning a && (iteration <? maxIterations)) eqn:E; [|cbn; lia].
    apply andb_true_iff in E as [_ E]. apply Z.ltb_lt in E.
    destruct (iterationBody service _) as [a' [|]]; [cbn; lia|].
    specialize (IH (iteration + 1) a' ltac:(lia)). lia.
Qed.

Lemma iterationBody_unknown service a content name args :
  duringCall (service (conversationHistory a)) = [] ->
  duringPause (service (conversationHistory a)) = [] ->
  response (service (conversationHistory a)) = ServiceReturns (Some content) ->
  extractFunctionCalls (Some content) = [(name, args)] ->
  name ∉ toolNames ->
    iterationBody service a =
      ({| game := game a; isRunning := isRunning a;
          conversationHistory :=
            (conversationHistory a ++
             [ {| role := model; parts := Some [sample_call name args] |} ]) ++
             [ {| role := user;
                  parts := Some [ResponsePart
                                   {| fr_name := name;
                                      fr_response :=
                                        fail_result ("Unknown tool: " +:+ name) |}] |} ];
          apiKey := apiKey a;
          logged := logged a ++
                    [(name +:+ "(" +:+ JSON_stringify args +:+ "): "
                      +:+ ("Unknown tool: " +:+ name), LogError)] |}, false).
Proof.
  intros Hcall Hpause Hresp Hcalls Hname.
  unfold iterationBody. rewrite Hcall, Hpause, Hresp, Hcalls.
  cbn [hostEvents fold_left executeCalls].
  rewrite (executeTool_unknown _ name args Hname). reflexivity.
Qed.

Lemma unknown_log_entries i calls :
  Forall (fun e => snd e <> LogSuccess) (unknown_log i calls).
Proof.
  revert i. induction calls as [|c calls IH]; intros i; [constructor|].
  cbn [unknown_log]. constructor; [discriminate|]. constructor; [discriminate|apply IH].
Qed.

Lemma unknown_turns calls :
  length (round_turns (unknown_outcome <$> calls)) = (2 * length calls)%nat /\
  Forall failed_turn (round_turns (unknown_outcome <$> calls)).
Proof.
  induction calls as [|c calls [IHl IHf]]; [split; [reflexivity|constructor]|].
  unfold round_turns in *. rewrite fmap_cons, bind_cons.
  cbn [unknown_outcome fst snd app]. split; [cbn [length]; rewrite IHl; lia|].
  constructor; [|constructor; [|exact IHf]].
  - intros ps r [= <-] Hr. apply list_elem_of_singleton in Hr. discriminate.
  - intros ps r [= <-] Hr. apply list_elem_of_singleton in Hr.
    injection Hr as ->. split; reflexivity.
Qed.

Lemma whileLoop_unknown service :
  (forall h, unknown_round (service h)) ->
  forall fuel iteration a,
    isRunning a = true -> iteration + Z.of_nat fuel = maxIterations ->
    exists a' calls,
      whileLoop fuel service iteration a = (maxIterations, a') /\
      isRunning a' = true /\ game a' = game a /\
      length calls = fuel /\
      Forall (fun c => fst c ∉ toolNames) calls /\
      requested service (conversationHistory a) calls /\
      conversationHistory a' =
        (conversationHistory a ++ round_turns (unknown_outcome <$> calls))%list /\
      logged a' = (logged a ++ unknown_log (iteration + 1) calls)%list.
Proof.
  intros Hservice. induction fuel as [|fuel IH]; intros iteration a Hrun Hit.
  - exists a, []. cbn [whileLoop]. rewrite !app_nil_r.
    repeat split; try constructor; [f_equal; lia|exact Hrun].
  - cbn [whileLoop]. rewrite Hrun.
    replace (iteration <? maxIterations) with true by (symmetry; apply Z.ltb_lt; lia).
    cbn [andb].
    set (a1 := onLog a _ LogInfo).
    destruct (Hservice (conversationHistory a1))
      as (Hq1 & Hq2 & content & name & args & Hresp & Hcalls & Hname).
    rewrite (iterationBody_unknown service a1 content name args Hq1 Hq2 Hresp Hcalls Hname).
    match goal with |- context [whileLoop fuel service _ ?b] =>
      destruct (IH (iteration + 1) b Hrun ltac:(lia))
        as (a' & calls & -> & Hrun' & Hgame & Hlen & Hnames & Hreq & Hhist & Hlog)
    end.
    cbn [game conversationHistory logged] in *.
    exists a', ((name, args) :: calls).
    split; [reflexivity|]. split; [exact Hrun'|]. split; [exact Hgame|].
    split; [cbn [length]; rewrite Hlen; reflexivity|].
    split; [constructor; [exact Hname|exact Hnames]|].
    split; [|split].
    + cbn [requested]. split; [exists content; split; assumption|].
      unfold round_turns. cbn [mbind list_bind unknown_outcome fst snd app].
      rewrite <- app_assoc in Hreq. exact Hreq.
    + rewrite Hhist. unfold round_turns. rewrite fmap_cons, bind_cons.
      cbn [unknown_outcome fst snd]. rewrite <- !app_assoc. reflexivity.
    + rewrite Hlog. subst a1. cbn [logged onLog unknown_log fst snd].
      rewrite <- !app_assoc. reflexivity.
Qed.

(** C7. A run makes at most 30 rounds, whatever the service answers;
    an operation whose name the catalog does not have yields the outcome
    [success = false], "Unknown tool: ..." and leaves the world alone;
    and when the service asks for one such operation in every round (the
    host not interfering) the run makes all 30 rounds: the conversation
    it leaves is the instruction turn followed, for each of the 30
    requests the service made, by the turn of the request and the turn
    that answers it with the failure "Unknown tool: ..." under its name;
    the log is the start entry, then for each round its banner and the
    error entry of its request, then "Reached maximum iterations"; the
    completion entry is never logged; the run stops running and leaves
    the world as it was. *)
Theorem unknown_operations_reach_max_iterations
  (service : Service) (a : Agent) (goal : string) :
  apiKey a <> "" ->
  (forall h, unknown_round (service h)) ->
  let final := start service a goal in
  (forall service' fuel a', fst (whileLoop fuel service' 0 a') <= maxIterations) /\
  (forall w name args,
     name ∉ toolNames ->
     executeTool w name args =
       (w, {| success := false; message := "Unknown tool: " +:+ name; data := None |})) /\
  fst (whileLoop (Z.to_nat maxIterations) service 0 (started a goal)) = 30 /\
  (exists calls,
     length calls = 30%nat /\
     Forall (fun c => fst c ∉ toolNames) calls /\
     requested service [prompt_turn goal] calls /\
     conversationHistory final = prompt_turn goal :: round_turns (unknown_outcome <$> calls) /\
     logged final =
       (logged a ++ [("Starting agent with goal: " +:+ goal, LogInfo)]
        ++ unknown_log 1 calls ++ [max_iterations_entry])%list) /\
  (exists entries,
     logged final = (logged a ++ entries)%list /\
     last entries = Some max_iterations_entry /\
     completed_entry ∉ entries) /\
  (exists turns,
     conversationHistory final = (conversationHistory (started a goal) ++ turns)%list /\
     length turns = 60%nat /\ Forall failed_turn turns) /\
  isRunning final = false /\
  game final = game a.
Proof.
  intros Hkey Hservice final. subst final.
  split; [intros service' fuel a'; apply whileLoop_bound; discriminate|].
  split; [apply executeTool_unknown|].
  rewrite (start_started service a goal Hkey). unfold runLoop.
  destruct (whileLoop_unknown service Hservice (Z.to_nat maxIterations) 0 (started a goal)
              eq_refl eq_refl)
    as (a' & calls & -> & Hrun & Hgame & Hlen & Hnames & Hreq & Hhist & Hlog).
  cbn [fst]. split; [reflexivity|].
  replace (maxIterations >=? maxIterations) with true by reflexivity.
  cbn [with_isRunning onLog logged conversationHistory isRunning game].
  assert (Hlogged : (logged a' ++ [("Reached maximum iterations", LogInfo)])%list =
                    (logged a ++ [("Starting agent with goal: " +:+ goal, LogInfo)]
                     ++ unknown_log 1 calls ++ [max_iterations_entry])%list).
  { rewrite Hlog. cbn [started logged]. rewrite <- !app_assoc. reflexivity. }
  destruct (unknown_turns calls) as [Hturns Hfailed].
  split; [|split; [|split; [|split; [reflexivity|exact Hgame]]]].
  - exists calls. split; [exact Hlen|]. split; [exact Hnames|].
    split; [exact Hreq|]. split; [exact Hhist|exact Hlogged].
  - exists ([("Starting agent with goal: " +:+ goal, LogInfo)]
            ++ unknown_log 1 calls ++ [max_iterations_entry])%list.
    split; [exact Hlogged|]. split.
    + rewrite !app_assoc. apply last_snoc.
    + rewrite !not_elem_of_app, not_elem_of_cons. repeat split.
      * discriminate.
      * apply not_elem_of_nil.
      * intros Hin. pose proof (unknown_log_entries 1 calls) as Hentries.
        rewrite Forall_forall in Hentries. apply (Hentries _ Hin). reflexivity.
      * rewrite list_elem_of_singleton. discriminate.
  - exists (round_turns (unknown_outcome <$> calls)).
    split; [exact Hhist|]. split; [rewrite Hturns, Hlen; reflexivity|exact Hfailed].
Qed.

Lemma iterationBody_no_calls service b c :
  response (service (conversationHistory b)) = ServiceReturns (Some c) ->
  extractFunctionCalls (Some c) = [] ->
  let b1 := hostEvents b (duringCall (service (conversationHistory b))) in
  iterationBody service b =
    ({| game := game b1; isRunning := isRunning b1;
        conversationHistory := conversationHistory b1; apiKey := apiKey b1;
        logged := (logged b1 ++ explanation_entries c) ++ [completed_entry] |}, true).
Proof.
  intros Hresp Hcalls b1. unfold iterationBody. fold b1. rewrite Hresp, Hcalls.
  unfold explanation_entries.
  destruct (String.eqb (extractText (Some c)) ""); cbn [negb onLog logged];
    rewrite ?app_nil_r; reflexivity.
Qed.

Lemma loop_state_whileLoop service a0 i b :
  loop_state service a0 i b ->
  0 <= i <= maxIterations /\
  whileLoop (Z.to_nat maxIterations) service 0 a0 =
    whileLoop (Z.to_nat (maxIterations - i)) service i b.
Proof.
  induction 1 as [|i b b' _ [IHi IH] Hrun Hlt Hbody].
  - split; [unfold maxIterations; lia|reflexivity].
  - split; [lia|]. rewrite IH.
    replace (Z.to_nat (maxIterations - i)) with (S (Z.to_nat (maxIterations - (i + 1))))
      by lia.
    cbn [whileLoop]. rewrite Hrun, (proj2 (Z.ltb_lt _ _) Hlt). cbn [andb].
    rewrite Hbody. reflexivity.
Qed.

(** X25. A response without any requested operation ends the run in
    whatever round it comes: when a run enters round [i + 1] and the
    response of that round asks for no operation, no operation is
    executed and no turn is added in that round (the world and the
    conversation are those the host events of the round left), the log
    gains the free text of the response, if any, and the completion
    entry, the run has made [i + 1] rounds and stops running.  When
    that round is the 30th the entry "Reached maximum iterations"
    follows the completion entry; in every earlier round the completion
    entry is the last of the log. *)
Theorem completion_ends_run
  (service : Service) (a : Agent) (goal : string) (i : Z) (b : Agent)
  (content : GeminiContent) :
  apiKey a <> "" ->
  loop_state service (started a goal) i b ->
  isRunning b = true -> i < maxIterations ->
  response (service (conversationHistory b)) = ServiceReturns (Some content) ->
  extractFunctionCalls (Some content) = [] ->
  let b1 := hostEvents
              (onLog b ("--- Iteration " +:+ num_str (i + 1) +:+ " ---") LogInfo)
              (duringCall (service (conversationHistory b))) in
  let final := start service a goal in
  fst (whileLoop (Z.to_nat maxIterations) service 0 (started a goal)) = i + 1 /\
  game final = game b1 /\
  conversationHistory final = conversationHistory b1 /\
  logged final =
    (logged b1 ++ explanation_entries content ++ [completed_entry]
     ++ (if i + 1 =? maxIterations then [max_iterations_entry] else []))%list /\
  isRunning final = false.
Proof.
  intros Hkey Hstate Hrun Hlt Hresp Hcalls b1 final. subst final.
  rewrite (start_started service a goal Hkey). unfold runLoop.
  destruct (loop_state_whileLoop service _ i b Hstate) as [Hi ->].
  replace (Z.to_nat (maxIterations - i)) with (S (Z.to_nat (maxIterations - (i + 1))))
    by lia.
  cbn [whileLoop]. rewrite Hrun, (proj2 (Z.ltb_lt _ _) Hlt). cbn [andb].
  rewrite (iterationBody_no_calls service (onLog b _ LogInfo) content Hresp Hcalls).
  cbn [fst]. split; [reflexivity|].
  change (hostEvents (onLog b ("--- Iteration " +:+ num_str (i + 1) +:+ " ---") LogInfo)
            (duringCall (service (conversationHistory
               (onLog b ("--- Iteration " +:+ num_str (i + 1) +:+ " ---") LogInfo)))))
    with b1.
  destruct (i + 1 =? maxIterations) eqn:Elast;
    [apply Z.eqb_eq in Elast|apply Z.eqb_neq in Elast].
  - replace (i + 1 >=? maxIterations) with true by (symmetry; apply Z.geb_le; lia).
    cbn [with_isRunning onLog logged conversationHistory game isRunning].
    repeat split. rewrite <- !app_assoc. reflexivity.
  - replace (i + 1 >=? maxIterations) with false
      by (symmetry; rewrite Z.geb_leb; apply Z.leb_gt; lia).
    cbn [with_isRunning onLog logged conversationHistory game isRunning].
    repeat split. rewrite app_nil_r, <- !app_assoc. reflexivity.
Qed.

Lemma start_without_key service a goal :
  apiKey a = "" -> start service a goal = onLog a "Error: API key not provided" LogError.
Proof. intros Hkey. unfold start. rewrite Hkey. reflexivity. Qed.

(** C9, as the code has it. [start] rejects a missing credential before
    any change of state: the world, the running flag, the conversation
    and the key are as before and the log gains one error entry.  The
    goal is checked by the host's start handler, which rejects an empty
    goal, and then an empty credential, in the same way; [start] itself
    does not look at the goal. *)
Theorem start_rejects_missing_configuration
  (service : Service) (a : Agent) (goal goalInput apiKeyInput : string) :
  (apiKey a = "" ->
   rejected a (start service a goal) "Error: API key not provided") /\
  (trim goalInput = "" ->
   rejected a (startAgent service a goalInput apiKeyInput)
            "Please enter a goal for the agent") /\
  (trim goalInput <> "" -> trim apiKeyInput = "" ->
   rejected a (startAgent service a goalInput apiKeyInput)
            "Please enter your Gemini API key").
Proof.
  repeat apply conj.
  - intros Hkey. rewrite start_without_key by exact Hkey. repeat split.
  - intros Hgoal. unfold startAgent. rewrite Hgoal. repeat split.
  - intros Hgoal Hkey. unfold startAgent.
    rewrite (proj2 (String.eqb_neq _ _) Hgoal), Hkey. repeat split.
Qed.

(** ** Further properties: the grid *)

Lemma getTileAt_grid w1 w2 pos : grid w1 = grid w2 -> getTileAt w1 pos = getTileAt w2 pos.
Proof. unfold getTileAt. intros ->. reflexivity. Qed.

Lemma getTileAt_setTileAt_ne w pos t t' p :
  getTileAt w pos = Some t -> p <> pos ->
  getTileAt (setTileAt w pos t') p = getTileAt w p.
Proof.
  intros Ht Hne. apply getTileAt_Some in Ht as (Hv & row & Hrow & Hx).
  unfold getTileAt, setTileAt. cbn [grid].
  destruct (isValidPosition p) eqn:Hvp; [|reflexivity].
  rewrite list_lookup_alter.
  destruct (decide (Z.to_nat (pos_y pos) = Z.to_nat (pos_y p))) as [Hy|Hy]; [|reflexivity].
  rewrite <- Hy, Hrow. cbn.
  apply list_lookup_insert_ne. intros Hxx. apply Hne.
  unfold isValidPosition in Hv, Hvp. rewrite !andb_true_iff in Hv, Hvp.
  destruct p as [px py], pos as [qx qy]; cbn in *. f_equal; lia.
Qed.

Lemma grid_shape_createWorld : grid_shape createWorld.
Proof.
  split; [reflexivity|]. split; [reflexivity|].
  unfold createWorld; cbn [grid]. apply Forall_fmap, Forall_forall.
  intros y _. reflexivity.
Qed.

Lemma grid_shape_setTileAt w pos t : grid_shape w -> grid_shape (setTileAt w pos t).
Proof.
  intros (Hs & Hl & Hrows). split; [exact Hs|]. unfold setTileAt; cbn [grid].
  split; [rewrite length_alter; exact Hl|].
  apply Forall_alter; [exact Hrows|].
  intros row _ Hrow. rewrite length_insert. exact Hrow.
Qed.

Lemma grid_shape_step w w' : world_step w w' -> grid_shape w -> grid_shape w'.
Proof.
  intros Hstep H. destruct Hstep.
  - destruct (setAgentPosition_cases w pos) as [->|(t & _ & _ & ->)]; exact H.
  - exact H.
  - unfold removeFromInventory. destruct (js_ge _ _); exact H.
  - destruct (removeResourceFromTile_cases w pos amount)
      as [->|(t & r & q & _ & _ & _ & _ & _ & ->)]; [exact H|].
    apply grid_shape_setTileAt, H.
  - destruct (placeStructure_cases w pos s) as [->|(t & _ & _ & _ & ->)]; [exact H|].
    apply grid_shape_setTileAt, H.
  - apply grid_shape_createWorld.
  - revert H. apply executeTool_preserves; clear w name args.
    + intros w pos H.
      destruct (setAgentPosition_cases w pos) as [->|(t & _ & _ & ->)]; exact H.
    + intros w item amount _ H. exact H.
    + intros w item amount H. unfold removeFromInventory.
      destruct (js_ge _ _); exact H.
    + intros w pos amount H.
      destruct (removeResourceFromTile_cases w pos amount)
        as [->|(t & r & q & _ & _ & _ & _ & _ & ->)]; [exact H|].
      apply grid_shape_setTileAt, H.
    + intros w pos s H.
      destruct (placeStructure_cases w pos s) as [->|(t & _ & _ & _ & ->)]; [exact H|].
      apply grid_shape_setTileAt, H.
Qed.

Lemma grid_shape_reachable w : world_reachable w -> grid_shape w.
Proof.
  induction 1 as [|w w' _ IH Hstep]; [apply grid_shape_createWorld|].
  eapply grid_shape_step; eassumption.
Qed.

(** X1. In every reachable world the grid is a square of 20 rows of 20
    tiles and [world_size] is 20, so that [getTileAt] answers a tile
    exactly for the positions [isValidPosition] accepts, that is for
    both coordinates in [0, 20), and [null] for every other position. *)
Theorem getTileAt_total_on_grid (w : GameWorld) (pos : Position) :
  world_reachable w ->
  world_size w = 20 /\
  length (grid w) = 20%nat /\
  (forall row, row ∈ grid w -> length row = 20%nat) /\
  (is_Some (getTileAt w pos) <->
   0 <= pos_x pos < 20 /\ 0 <= pos_y pos < 20) /\
  (getTileAt w pos = None <-> isValidPosition pos = false).
Proof.
  intros Hreach. apply grid_shape_reachable in Hreach as (Hs & Hl & Hrows).
  split; [exact Hs|]. split; [exact Hl|].
  split; [intros row Hrow; rewrite Forall_forall in Hrows; apply (Hrows row Hrow)|].
  assert (Hvalid : isValidPosition pos = true -> is_Some (getTileAt w pos)).
  { intros Hv. unfold getTileAt. rewrite Hv.
    unfold isValidPosition, gridSize in Hv. rewrite !andb_true_iff in Hv.
    destruct (lookup_lt_is_Some_2 (grid w) (Z.to_nat (pos_y pos))) as [row Hrow];
      [rewrite Hl; unfold gridSize; lia|].
    rewrite Hrow. cbn. apply lookup_lt_is_Some_2.
    rewrite (proj1 (Forall_lookup _ _) Hrows _ _ Hrow). unfold gridSize. lia. }
  split; [split|split].
  - intros [t Ht]. apply getTileAt_Some in Ht as [Hv _].
    unfold isValidPosition, gridSize in Hv. rewrite !andb_true_iff in Hv. lia.
  - intros Hb. apply Hvalid. unfold isValidPosition, gridSize.
    rewrite !andb_true_iff. lia.
  - intros Hnone. destruct (isValidPosition pos) eqn:Hv; [|reflexivity].
    destruct (Hvalid eq_refl) as [t Ht]. congruence.
  - intros Hv. unfold getTileAt. rewrite Hv. reflexivity.
Qed.

(** *** What [generateTile] produces *)

Lemma generateTile_profile x y :
  let t := generateTile x y in
  structure t = None /\
  (forall r, resource t = Some r ->
     terrain t = terrain_of r /\
     exists q, resourceAmount t = Some q /\ least_amount r <= q) /\
  (resource t = None -> resourceAmount t = None) /\
  ((x < 2 \/ gridSize - 2 <= x \/ y < 2 \/ gridSize - 2 <= y) ->
   resource t = None /\ (terrain t = water \/ terrain t = grass)) /\
  (2 <= x < gridSize - 2 -> 2 <= y < gridSize - 2 -> terrain t <> water).
Proof.
  cbv zeta. unfold generateTile.
  set (seed := (Math_sin _ * _)%Q).
  pose proof (fraction_nonneg seed) as Hr.
  set (random := (seed - inject_Z (Qfloor seed))%Q) in *.
  destruct ((x <? 2) || (x >=? gridSize - 2) || (y <? 2) || (y >=? gridSize - 2)) eqn:Eb.
  - destruct (Qltb random 0.3); cbn [terrain resource resourceAmount structure];
      (split; [reflexivity|]); (split; [intros r [=]|]); (split; [reflexivity|]);
      (split; [intros _; split; [reflexivity|auto]|]);
      intros Hx Hy; rewrite !orb_true_iff in Eb; unfold gridSize in *; lia.
  - rewrite !orb_false_iff in Eb. destruct Eb as [[[E1 E2] E3] E4].
    assert (Hin : ~ (x < 2 \/ gridSize - 2 <= x \/ y < 2 \/ gridSize - 2 <= y))
      by (unfold gridSize in *; lia).
    repeat (destruct (Qltb _ _);
      [cbn [terrain resource resourceAmount structure];
       split; [reflexivity|];
       split; [intros r [= <-]; split; [reflexivity|]; eexists; split; [reflexivity|];
               match goal with
               | |- _ <= Qfloor (_ * ?k) + _ =>
                   assert (0 <= k)%Q as Hk by (unfold Qle; simpl; lia);
                   pose proof (floor_scaled_nonneg random k Hr Hk);
                   cbn [least_amount]; lia
               end|];
       split; [discriminate|];
       split; [intros Hb; contradiction|intros _ _; discriminate]|]).
    cbn [terrain resource resourceAmount structure].
    split; [reflexivity|]. split; [intros r [=]|]. split; [reflexivity|].
    split; [intros Hb; contradiction|intros _ _; discriminate].
Qed.

(** X2. The generated world, tile by tile: no tile has a structure; a
    tile within two tiles of an edge is water or grass and has no
    resource; a tile of the interior is never water; and a resource
    stands on its own terrain with at least its least quantity (wood
    on forest, at least 5; stone on mountain, at least 3; sand on
    desert, at least 2; food on grass, at least 1). *)
Theorem createWorld_profile (x y : Z) :
  0 <= x < gridSize -> 0 <= y < gridSize ->
  exists t,
    getTileAt createWorld (mkPosition x y) = Some t /\
    structure t = None /\
    (forall r, resource t = Some r ->
       terrain t = terrain_of r /\
       exists q, resourceAmount t = Some q /\ least_amount r <= q) /\
    ((x < 2 \/ gridSize - 2 <= x \/ y < 2 \/ gridSize - 2 <= y) ->
     resource t = None /\ (terrain t = water \/ terrain t = grass)) /\
    (2 <= x < gridSize - 2 -> 2 <= y < gridSize - 2 -> terrain t <> water).
Proof.
  intros Hx Hy. exists (generateTile x y).
  split; [apply createWorld_lookup; assumption|].
  pose proof (generateTile_profile x y) as (H1 & H2 & _ & H4 & H5).
  split; [exact H1|]. split; [exact H2|]. split; [exact H4|exact H5].
Qed.

(** ** Further properties: what the catalog does to the grid *)

Lemma tile_evolves_refl t : tile_evolves t t.
Proof. split; [reflexivity|]. split; [reflexivity|]. left. split; reflexivity. Qed.

Lemma grid_removeFromInventory w item amount :
  grid (fst (removeFromInventory w item amount)) = grid w.
Proof.
  unfold removeFromInventory. destruct (js_ge _ _); reflexivity.
Qed.

Lemma grid_consumeAll reqs w : grid (consumeAll w reqs) = grid w.
Proof.
  unfold consumeAll. revert w. induction reqs as [|e reqs IH]; intros w; [reflexivity|].
  cbn [fold_left]. rewrite IH. apply grid_removeFromInventory.
Qed.

Lemma position_consumeAll reqs w : position (agent (consumeAll w reqs)) = position (agent w).
Proof.
  unfold consumeAll. revert w. induction reqs as [|e reqs IH]; intros w; [reflexivity|].
  cbn [fold_left]. rewrite IH. unfold removeFromInventory.
  destruct (js_ge _ _); reflexivity.
Qed.

Lemma tile_update_gather w res : tile_update w (fst (gather w res)).
Proof.
  destruct (success (snd (gather w res))) eqn:Es.
  - apply gather_success_inv in Es as (t & r & q & Ht & Hr & Hname & Hq & Hpos).
    rewrite (gather_available w res t r q Ht Hr Hname Hq Hpos). cbn [fst].
    right. exists t, (depleted t r q (Z.min 5 q)). split; [exact Ht|]. split; [reflexivity|].
    unfold depleted. split; [destruct (_ =? _); reflexivity|].
    split; [intros _; destruct (_ =? _); reflexivity|].
    right. exists r, q, (Z.min 5 q). split; [exact Hr|]. split; [exact Hq|].
    split; [lia|]. destruct (_ =? _); split; reflexivity.
  - rewrite (gather_failure w res Es). left. reflexivity.
Qed.

Lemma tile_update_build w name : tile_update w (fst (build w name)).
Proof.
  unfold build, getAgent. destruct (recipe_lookup _ _) as [reqs|]; [|left; reflexivity].
  destruct (firstShort _ _) as [[res amount]|]; [left; reflexivity|].
  destruct (placeStructure_cases w (position (agent w)) name)
    as [->|(t & Ht & Hfree & _ & ->)]; [left; reflexivity|].
  cbn [negb fst]. right. eexists t, _. split; [exact Ht|].
  split; [apply grid_consumeAll|].
  split; [reflexivity|]. split; [rewrite Hfree; discriminate|].
  left. split; reflexivity.
Qed.

Lemma tile_update_executeTool w name args : tile_update w (fst (executeTool w name args)).
Proof.
  unfold executeTool. repeat (destruct (String.eqb name _)).
  - left. unfold move. destruct (List.find _ _) as [d|]; [|reflexivity].
    match goal with |- context [setAgentPosition w ?p] =>
      destruct (setAgentPosition_cases w p) as [->|(t & _ & _ & ->)] end; reflexivity.
  - left. reflexivity.
  - apply tile_update_gather.
  - left. unfold craft. destruct (recipe_lookup _ _) as [recipe|]; [|reflexivity].
    destruct (firstShort _ _) as [[res amount]|]; [reflexivity|].
    cbn [fst]. apply (grid_consumeAll recipe w).
  - apply tile_update_build.
  - left. reflexivity.
  - left. reflexivity.
Qed.

Lemma tile_update_elsewhere w w' pos :
  tile_update w w' -> pos <> position (agent w) -> getTileAt w' pos = getTileAt w pos.
Proof.
  intros [Hg|(t & t' & Ht & Hg & _)] Hne.
  - apply getTileAt_grid, Hg.
  - rewrite (getTileAt_grid _ _ pos Hg). eapply getTileAt_setTileAt_ne; eassumption.
Qed.

Lemma tile_update_agent_tile w w' : tile_update w w' -> agent_tile_evolves w w'.
Proof.
  unfold agent_tile_evolves. intros [Hg|(t & t' & Ht & Hg & Hev)].
  - rewrite (getTileAt_grid _ _ _ Hg).
    destruct (getTileAt w _) as [t|]; [apply tile_evolves_refl|exact I].
  - rewrite (getTileAt_grid _ _ _ Hg), Ht, (getTileAt_setTileAt w _ t t' Ht). exact Hev.
Qed.

(** X3. An operation of the catalog changes no tile but the one under
    the agent, and that one only so: the terrain stays, a structure
    that stands there stays, the resource stays or loses a positive
    part of its quantity (both fields unset when nothing is left). *)
Theorem catalog_touches_only_agent_tile (w : GameWorld) (name : string) (args : Args) :
  let w' := fst (executeTool w name args) in
  (forall pos, pos <> position (agent w) -> getTileAt w' pos = getTileAt w pos) /\
  agent_tile_evolves w w'.
Proof.
  cbv zeta. pose proof (tile_update_executeTool w name args) as H. split.
  - intros pos Hne. apply tile_update_elsewhere; assumption.
  - apply tile_update_agent_tile, H.
Qed.

(** X4. A structure that stands on a tile survives every operation of
    the catalog: the tile still carries the same structure afterwards. *)
Theorem structures_persist
  (w : GameWorld) (name : string) (args : Args) (pos : Position) (t : Tile) (s : string) :
  getTileAt w pos = Some t -> structure t = Some s -> s <> "" ->
  exists t', getTileAt (fst (executeTool w name args)) pos = Some t' /\
             structure t' = Some s.
Proof.
  intros Ht Hs Hne.
  pose proof (tile_update_executeTool w name args) as H.
  destruct (decide (pos = position (agent w))) as [->|Hpos].
  - apply tile_update_agent_tile in H. unfold agent_tile_evolves in H. rewrite Ht in H.
    destruct (getTileAt (fst (executeTool w name args)) (position (agent w))) as [t'|];
      [|contradiction].
    exists t'. split; [reflexivity|]. destruct H as (_ & Hst & _).
    rewrite Hst, Hs; [reflexivity|]. rewrite Hs. cbn.
    apply negb_true_iff, String.eqb_neq, Hne.
  - exists t. rewrite (tile_update_elsewhere _ _ pos H Hpos). split; assumption.
Qed.

Lemma catalog_reachable_world w : catalog_reachable w -> world_reachable w.
Proof.
  induction 1 as [|w w' _ IH Hstep]; [constructor|].
  eapply world_reachable_step; [exact IH|].
  destruct Hstep; [apply step_executeTool|apply step_reset].
Qed.

Lemma tile_from_evolves t0 t t' : tile_from t0 t -> tile_evolves t t' -> tile_from t0 t'.
Proof.
  intros [Hterr Hres] (Hterr' & _ & Hev). split; [congruence|].
  intros r' q' Hr' Hq'.
  destruct Hev as [[Er Eq]|(r & q & a & Er & Eq & Ha & Er' & Eq')].
  - apply Hres; congruence.
  - destruct (q - a =? 0); [congruence|].
    destruct (Hres r q Er Eq) as (Hr0 & q0 & Hq0 & Hle).
    assert (r' = r) by congruence. assert (q' = q - a) by congruence. subst.
    split; [exact Hr0|]. exists q0. split; [exact Hq0|lia].
Qed.

(** X5. In every world the catalog and resets lead to, every tile has
    the terrain of the generated tile at its position, and a resource
    it carries is the resource the generated tile had, on the terrain
    of its kind, with a quantity that is positive and not above the
    generated one: resources are never created, moved or refilled. *)
Theorem tiles_descend_from_generated (w : GameWorld) (pos : Position) (t : Tile) :
  catalog_reachable w ->
  getTileAt w pos = Some t ->
  exists t0,
    getTileAt createWorld pos = Some t0 /\
    terrain t = terrain t0 /\
    forall r q, resource t = Some r -> resourceAmount t = Some q ->
      resource t0 = Some r /\ terrain t = terrain_of r /\
      exists q0, resourceAmount t0 = Some q0 /\ 0 < q <= q0.
Proof.
  intros Hreach Ht.
  assert (Hfrom : exists t0, getTileAt createWorld pos = Some t0 /\ tile_from t0 t).
  { clear - Hreach Ht. revert pos t Ht.
    induction Hreach as [|w w' _ IH Hstep]; intros pos t Ht.
    - exists t. split; [exact Ht|]. split; [reflexivity|].
      intros r q Hr Hq. split; [exact Hr|]. exists q. split; [exact Hq|lia].
    - destruct Hstep as [w name args|w].
      + pose proof (tile_update_executeTool w name args) as H.
        destruct (decide (pos = position (agent w))) as [->|Hpos].
        * apply tile_update_agent_tile in H. unfold agent_tile_evolves in H.
          rewrite Ht in H.
          destruct (getTileAt w (position (agent w))) as [t1|] eqn:Ht1; [|contradiction].
          destruct (IH _ _ Ht1) as (t0 & Ht0 & Hfrom).
          exists t0. split; [exact Ht0|]. eapply tile_from_evolves; eassumption.
        * rewrite (tile_update_elsewhere _ _ pos H Hpos) in Ht. apply IH, Ht.
      + exists t. split; [exact Ht|]. split; [reflexivity|].
        intros r q Hr Hq. split; [exact Hr|]. exists q. split; [exact Hq|lia]. }
  destruct Hfrom as (t0 & Ht0 & Hterr & Hres).
  exists t0. split; [exact Ht0|]. split; [exact Hterr|].
  intros r q Hr Hq. destruct (Hres r q Hr Hq) as (Hr0 & q0 & Hq0 & Hle).
  split; [exact Hr0|].
  pose proof (world_inv_reachable w (catalog_reachable_world w Hreach)) as (Hok & _ & _).
  pose proof (grid_ok_lookup w pos t Hok Ht) as Htile. unfold tile_ok in Htile.
  rewrite Hr, Hq in Htile.
  pose proof (getTileAt_Some _ _ _ Ht0) as [Hv _].
  unfold isValidPosition in Hv. rewrite !andb_true_iff in Hv.
  destruct pos as [x y]. cbn [pos_x pos_y] in Hv.
  rewrite (createWorld_lookup x y) in Ht0 by lia. injection Ht0 as <-.
  pose proof (generateTile_profile x y) as (_ & Hprof & _).
  destruct (Hprof r Hr0) as [Hkind _].
  split; [congruence|]. exists q0. split; [exact Hq0|lia].
Qed.

(** ** Further properties: the inventory *)

Lemma world_eta w :
  {| world_size := world_size w; grid := grid w;
     agent := {| position := position (agent w);
                 inventory := inventory (agent w);
                 isActive := isActive (agent w) |} |} = w.
Proof. destruct w as [sz g [p i act]]. reflexivity. Qed.

Lemma with_inventory_id w inv : inv = inventory (agent w) -> with_inventory w inv = w.
Proof. intros ->. apply world_eta. Qed.

Lemma with_inventory_twice w inv inv' :
  with_inventory (with_inventory w inv) inv' = with_inventory w inv'.
Proof. reflexivity. Qed.

Lemma addToInventory_with_inventory w item amount :
  addToInventory w item amount =
    with_inventory w (inventory (agent (addToInventory w item amount))).
Proof. reflexivity. Qed.

(** X6. For an item whose name is not a member of [Object.prototype]
    and whose entry, if any, is a positive count, crediting an amount
    and then debiting the same amount succeeds and gives back the very
    world it started from, key present or absent as before.  The
    amount, the count and their sum are taken in the range in which the
    arithmetic of the source is exact. *)
Theorem credit_then_debit (w : GameWorld) (item : string) (amount : Z) :
  inherited item = false ->
  (forall p, inventory (agent w) !! item = Some p -> exists c, p = PNumber c /\ 0 < c) ->
  safe amount -> safe (count w item) -> safe (count w item + amount) ->
  removeFromInventory (addToInventory w item amount) item amount = (w, true).
Proof.
  intros Hitem Hpos _ _ _.
  pose proof (inventory_addToInventory w item amount) as Hlook.
  rewrite removeFromInventory_unfold.
  rewrite (Hlook item), decide_True, credit_entry_own by (reflexivity || exact Hitem).
  set (n := count w item).
  assert (Hn : (inventory (agent w) !! item = None /\ n = 0 \/
                inventory (agent w) !! item = Some (PNumber n) /\ 0 < n) /\
               credited (inventory (agent w) !! item) amount = PNumber (n + amount)).
  { subst n. rewrite count_unfold.
    destruct (inventory (agent w) !! item) as [p|] eqn:Ep.
    - destruct (Hpos p eq_refl) as (c & -> & Hc). split; [right; split; [reflexivity|exact Hc]|].
      reflexivity.
    - split; [left; split; reflexivity|reflexivity]. }
  destruct Hn as [Hn ->].
  destruct (n + amount >=? amount) eqn:Ege; [|lia]. f_equal.
  rewrite addToInventory_with_inventory, with_inventory_twice.
  apply with_inventory_id, map_eq. intros k.
  destruct (n + amount - amount =? 0) eqn:E0;
    [apply Z.eqb_eq in E0|apply Z.eqb_neq in E0];
    destruct (decide (item = k)) as [<-|Hne].
  - rewrite lookup_delete_eq. destruct Hn as [[-> _]|[_ Hn]]; [reflexivity|lia].
  - rewrite lookup_delete_ne, Hlook, decide_False by exact Hne. reflexivity.
  - rewrite lookup_insert_eq. destruct Hn as [[_ Hn]|[-> _]]; [lia|do 2 f_equal; lia].
  - rewrite lookup_insert_ne, Hlook, decide_False by exact Hne. reflexivity.
Qed.


Lemma removeFromInventory_short w item amount :
  hasInInventory w item amount = false -> removeFromInventory w item amount = (w, false).
Proof.
  rewrite hasInInventory_unfold, removeFromInventory_unfold.
  destruct (inventory (agent w) !! item) as [[c| |m added]|]; try reflexivity.
  intros ->. reflexivity.
Qed.

Lemma hasInInventory_number w item amount :
  0 < amount -> hasInInventory w item amount = true ->
  exists c, inventory (agent w) !! item = Some (PNumber c) /\ amount <= c.
Proof.
  intros Ha. rewrite hasInInventory_unfold.
  destruct (inventory (agent w) !! item) as [[c| |m added]|].
  - intros H. exists c. split; [reflexivity|]. apply Z.geb_le in H. exact H.
  - intros H. apply Z.geb_le in H. lia.
  - discriminate.
  - destruct (inherited item); [discriminate|]. intros H. apply Z.geb_le in H. lia.
Qed.

Lemma removeFromInventory_enough w item amount :
  0 < amount -> hasInInventory w item amount = true ->
  snd (removeFromInventory w item amount) = true /\
  grid (fst (removeFromInventory w item amount)) = grid w /\
  position (agent (fst (removeFromInventory w item amount))) = position (agent w) /\
  (forall k, k <> item ->
     inventory (agent (fst (removeFromInventory w item amount))) !! k
       = inventory (agent w) !! k) /\
  forall k, count (fst (removeFromInventory w item amount)) k =
            count w k - (if decide (item = k) then amount else 0).
Proof.
  intros Ha Hhas. destruct (hasInInventory_number w item amount Ha Hhas) as (c & Ec & Hc).
  rewrite removeFromInventory_unfold, Ec.
  replace (c >=? amount) with true by (symmetry; apply Z.geb_le; exact Hc).
  cbn [fst snd].
  split; [reflexivity|]. split; [reflexivity|]. split; [reflexivity|].
  split.
  - intros k Hk. cbn [with_inventory with_agent agent inventory].
    destruct (c - amount =? 0);
      [apply lookup_delete_ne|apply lookup_insert_ne]; congruence.
  - intros k. rewrite !count_unfold. cbn [with_inventory with_agent agent inventory].
    destruct (decide (item = k)) as [<-|Hne].
    + rewrite Ec. destruct (c - amount =? 0) eqn:E0.
      * apply Z.eqb_eq in E0. rewrite lookup_delete_eq. lia.
      * rewrite lookup_insert_eq. reflexivity.
    + destruct (c - amount =? 0).
      * rewrite lookup_delete_ne by exact Hne. lia.
      * rewrite lookup_insert_ne by exact Hne. lia.
Qed.

(** X8. For a positive amount, a debit succeeds exactly when
    [hasInInventory] says the inventory holds that much; when it does
    not, the world is unchanged; when it does, the count of the item
    goes down by the amount (the key disappears when nothing is left)
    and no other count, nor the grid or the position, changes. *)
Theorem debit_agrees_with_hasInInventory (w : GameWorld) (item : string) (amount : Z) :
  0 < amount ->
  snd (removeFromInventory w item amount) = hasInInventory w item amount /\
  (hasInInventory w item amount = false -> fst (removeFromInventory w item amount) = w) /\
  (hasInInventory w item amount = true ->
   count (fst (removeFromInventory w item amount)) item = count w item - amount /\
   (count w item = amount ->
    inventory (agent (fst (removeFromInventory w item amount))) !! item = None) /\
   (forall k, k <> item ->
      inventory (agent (fst (removeFromInventory w item amount))) !! k
        = inventory (agent w) !! k) /\
   grid (fst (removeFromInventory w item amount)) = grid w /\
   position (agent (fst (removeFromInventory w item amount))) = position (agent w)).
Proof.
  intros Ha. destruct (hasInInventory w item amount) eqn:Eh.
  - pose proof (removeFromInventory_enough w item amount Ha Eh) as (Hs & Hg & Hp & Hk & Hc).
    split; [exact Hs|]. split; [discriminate|]. intros _.
    split; [rewrite Hc, decide_True by reflexivity; reflexivity|].
    split; [|split; [exact Hk|split; assumption]].
    destruct (hasInInventory_number w item amount Ha Eh) as (c & Ec & Hle).
    rewrite count_unfold, removeFromInventory_unfold, Ec. intros ->.
    replace (amount >=? amount) with true by (symmetry; apply Z.geb_le; lia).
    cbn [fst with_inventory with_agent agent inventory].
    rewrite Z.sub_diag. cbn [Z.eqb]. apply lookup_delete_eq.
  - rewrite (removeFromInventory_short w item amount Eh).
    split; [reflexivity|]. split; [reflexivity|discriminate].
Qed.

Lemma table_lookup_notin {A : Type} (tbl : list (string * A)) k :
  k ∉ fst <$> tbl -> table_lookup tbl k = None.
Proof.
  unfold table_lookup. induction tbl as [|[k' v] tbl IH]; [reflexivity|].
  cbn [fmap list_fmap fst]. rewrite not_elem_of_cons. intros [Hne Hnot].
  cbn [List.find fst]. rewrite (proj2 (String.eqb_neq k' k)) by congruence.
  apply IH, Hnot.
Qed.

Lemma count_consumeAll reqs w :
  recipe_wf reqs ->
  firstShort w reqs = None ->
  grid (consumeAll w reqs) = grid w /\
  position (agent (consumeAll w reqs)) = position (agent w) /\
  (forall k, k ∉ fst <$> reqs ->
     inventory (agent (consumeAll w reqs)) !! k = inventory (agent w) !! k) /\
  forall k, count (consumeAll w reqs) k = count w k - required reqs k.
Proof.
  intros Hwf Hshort.
  split; [apply grid_consumeAll|]. split; [apply position_consumeAll|].
  revert w Hwf Hshort. induction reqs as [|[res amount] reqs IH]; intros w [Hnd Hpos] Hshort.
  - split; [reflexivity|]. intros k. unfold required, table_lookup. cbn. lia.
  - cbn [fmap list_fmap fst] in Hnd. apply NoDup_cons in Hnd as [Hnot Hnd].
    apply Forall_cons in Hpos as [Ha Hpos]. cbn [snd] in Ha.
    pose proof (firstShort_None w _ Hshort) as Hall.
    pose proof (Hall (res, amount) ltac:(apply list_elem_of_here)) as Hhas. cbn [fst snd] in Hhas.
    pose proof (removeFromInventory_enough w res amount Ha Hhas) as (_ & _ & _ & Hk & Hc).
    unfold consumeAll. cbn [fold_left fst snd].
    change (fold_left _ reqs ?v) with (consumeAll v reqs).
    assert (Hrest : firstShort (fst (removeFromInventory w res amount)) reqs = None).
    { unfold firstShort.
      destruct (List.find _ reqs) as [[res' amount']|] eqn:Ef; [|reflexivity].
      exfalso. apply find_some in Ef as [Hin Hneg]. cbn [fst snd] in Hneg.
      apply negb_true_iff in Hneg.
      assert (Hres : res' <> res).
      { intros ->. apply Hnot. apply list_elem_of_fmap. exists (res, amount').
        split; [reflexivity|]. apply list_elem_of_In, Hin. }
      pose proof (Hall (res', amount') ltac:(apply list_elem_of_further, list_elem_of_In, Hin))
        as Hhas'. cbn [fst snd] in Hhas'.
      rewrite hasInInventory_unfold in Hneg, Hhas'.
      rewrite Hk in Hneg by exact Hres. congruence. }
    destruct (IH (fst (removeFromInventory w res amount)) (conj Hnd Hpos) Hrest)
      as [IHk IHc].
    split.
    + intros k Hnotin. cbn [fmap list_fmap fst] in Hnotin.
      apply not_elem_of_cons in Hnotin as [Hne Hnotin].
      rewrite IHk by exact Hnotin. apply Hk, Hne.
    + intros k. rewrite IHc, Hc. unfold required, table_lookup. cbn [List.find fst].
      destruct (decide (res = k)) as [<-|Hne].
      * rewrite String.eqb_refl. cbn [fmap option_fmap option_map snd default from_option id].
        fold (table_lookup reqs res). rewrite (table_lookup_notin reqs res Hnot). cbn. lia.
      * rewrite (proj2 (String.eqb_neq res k) Hne). lia.
Qed.

Lemma recipes_wf item recipe :
  table_lookup recipes item = Some recipe ->
  recipe_wf recipe /\ (item ∉ fst <$> recipe) /\
  item ∈ ["axe"; "pickaxe"; "campfire"].
Proof.
  unfold table_lookup, recipes. cbn [List.find fst].
  repeat (match goal with |- context [String.eqb ?k item] =>
            destruct (String.eqb_spec k item) as [<-|_] end;
          [cbn [fmap option_fmap option_map snd]; intros [= <-]; split;
           [split; [apply (bool_decide_unpack _); vm_compute; exact I
                   |repeat (constructor; [cbn [snd]; lia|]); constructor]
           |split; [apply (bool_decide_unpack _); vm_compute; exact I|set_solver]]|]).
  discriminate.
Qed.

Lemma buildRequirements_wf name reqs :
  table_lookup buildRequirements name = Some reqs ->
  recipe_wf reqs /\ name ∈ ["shelter"; "campfire"].
Proof.
  unfold table_lookup, buildRequirements. cbn [List.find fst].
  repeat (match goal with |- context [String.eqb ?k name] =>
            destruct (String.eqb_spec k name) as [<-|_] end;
          [cbn [fmap option_fmap option_map snd]; intros [= <-]; split;
           [split; [apply (bool_decide_unpack _); vm_compute; exact I
                   |repeat (constructor; [cbn [snd]; lia|]); constructor]
           |set_solver]|]).
  discriminate.
Qed.

(** What [recipe_lookup] answers: the own recipe, or no entry at all
    for an inherited name. *)
Lemma recipe_lookup_cases tbl k reqs :
  recipe_lookup tbl k = Some reqs <->
  table_lookup tbl k = Some reqs \/
  (table_lookup tbl k = None /\ inherited k = true /\ reqs = []).
Proof.
  unfold recipe_lookup. destruct (table_lookup tbl k) as [r|].
  - split; [intros [= <-]; left; reflexivity|].
    intros [H|(H & _)]; [exact H|discriminate H].
  - destruct (inherited k); split.
    + intros [= <-]. right. repeat split.
    + intros [H|(_ & _ & ->)]; [discriminate H|reflexivity].
    + discriminate.
    + intros [H|(_ & H & _)]; discriminate H.
Qed.

Lemma recipe_wf_nil : recipe_wf [].
Proof. split; constructor. Qed.

Lemma recipes_lookup_wf item recipe :
  recipe_lookup recipes item = Some recipe -> recipe_wf recipe.
Proof.
  intros H. apply recipe_lookup_cases in H as [H|(_ & _ & ->)];
    [apply (recipes_wf item recipe H)|apply recipe_wf_nil].
Qed.

Lemma buildRequirements_lookup_wf name reqs :
  recipe_lookup buildRequirements name = Some reqs -> recipe_wf reqs.
Proof.
  intros H. apply recipe_lookup_cases in H as [H|(_ & _ & ->)];
    [apply (buildRequirements_wf name reqs H)|apply recipe_wf_nil].
Qed.

Lemma firstShort_iff w reqs :
  Forall (fun e => 0 < snd e) reqs ->
  firstShort w reqs = None <->
  forall res amount, (res, amount) ∈ reqs -> amount <= count w res.
Proof.
  intros Hpos. rewrite Forall_forall in Hpos. split.
  - intros H res amount Hin. pose proof (firstShort_None w reqs H _ Hin) as Hh.
    cbn [fst snd] in Hh. apply (hasInInventory_count w res amount); [|exact Hh].
    apply (Hpos (res, amount) Hin).
  - intros H. unfold firstShort.
    destruct (List.find _ reqs) as [[res amount]|] eqn:Ef; [|reflexivity].
    apply find_some in Ef as [Hin Hneg]. cbn [fst snd] in Hneg.
    apply negb_true_iff in Hneg. apply list_elem_of_In in Hin.
    specialize (H res amount Hin).
    apply (hasInInventory_count w res amount (Hpos (res, amount) Hin)) in H. congruence.
Qed.

Lemma count_addToInventory_ne w item amount k :
  k <> item -> count (addToInventory w item amount) k = count w k.
Proof.
  intros Hk. rewrite !count_unfold, inventory_addToInventory, decide_False by congruence.
  reflexivity.
Qed.

Lemma craft_unfold w item recipe :
  recipe_lookup recipes item = Some recipe -> firstShort w recipe = None ->
  craft w item =
    (addToInventory (consumeAll w recipe) item 1,
     {| success := true; message := "Crafted " +:+ item; data := Some (DataCraft item) |}).
Proof. intros Hrec Hshort. unfold craft. rewrite Hrec, Hshort. reflexivity. Qed.

(** X9. [craft] succeeds exactly for an item for which [recipes[item]]
    is not [undefined] and of whose recipe the inventory holds every
    amount.  For an item of the table (axe, pickaxe, campfire) it takes
    each amount of the recipe from the count of its resource, credits 1
    to the entry of the item (a count grows by 1, an absent entry
    becomes 1) and changes no other count, nor the grid or the
    position.  For the name of a member of [Object.prototype] the
    lookup finds that member, which lists no resource: the operation
    succeeds whatever the inventory holds, takes nothing, and credits 1
    to the entry of that name, which makes a text of it (for
    [__proto__] the assignment is ignored and nothing changes).  Any
    other item is refused with the list of the three. *)
Theorem craft_spec (w : GameWorld) (item : string) :
  (success (snd (craft w item)) = true <->
   exists recipe,
     recipe_lookup recipes item = Some recipe /\
     forall res amount, (res, amount) ∈ recipe -> amount <= count w res) /\
  (forall recipe,
     table_lookup recipes item = Some recipe ->
     success (snd (craft w item)) = true ->
     inventory (agent (fst (craft w item))) !! item =
       Some (credited (inventory (agent w) !! item) 1) /\
     (numeric_at w item -> count (fst (craft w item)) item = count w item + 1) /\
     (forall k, k <> item ->
        count (fst (craft w item)) k = count w k - required recipe k) /\
     grid (fst (craft w item)) = grid w /\
     position (agent (fst (craft w item))) = position (agent w)) /\
  (inherited item = true ->
   recipe_lookup recipes item = Some [] /\
   craft w item =
     (addToInventory w item 1,
      {| success := true; message := "Crafted " +:+ item; data := Some (DataCraft item) |}) /\
   (inventory (agent w) !! item = None ->
    inventory (agent (fst (craft w item))) !! item =
      (if String.eqb item "__proto__" then None else Some (PText item "1")) /\
    forall k, k <> item ->
      inventory (agent (fst (craft w item))) !! k = inventory (agent w) !! k)) /\
  (recipe_lookup recipes item = None ->
   (item ∉ ["axe"; "pickaxe"; "campfire"]) /\ inherited item = false /\
   craft w item =
     (w, fail_result ("Unknown item: " +:+ item
                      +:+ ". Available items: axe, pickaxe, campfire"))).
Proof.
  split; [split|split; [|split]].
  - unfold craft. destruct (recipe_lookup recipes item) as [recipe|] eqn:Hrec; [|discriminate].
    destruct (firstShort w recipe) as [[res amount]|] eqn:Ef; [discriminate|].
    intros _. exists recipe. split; [reflexivity|].
    apply firstShort_iff; [apply (recipes_lookup_wf item recipe Hrec)|exact Ef].
  - intros (recipe & Hrec & Hall).
    rewrite (craft_unfold w item recipe Hrec); [reflexivity|].
    apply firstShort_iff; [apply (recipes_lookup_wf item recipe Hrec)|exact Hall].
  - intros recipe Hrec.
    assert (Hlook : recipe_lookup recipes item = Some recipe)
      by (apply recipe_lookup_cases; left; exact Hrec).
    unfold craft. rewrite Hlook.
    destruct (firstShort w recipe) as [[res amount]|] eqn:Ef; [discriminate|].
    intros _. cbn [fst].
    destruct (recipes_wf item recipe Hrec) as (Hwf & Hitem & Hin).
    destruct (count_consumeAll recipe w Hwf Ef) as (Hg & Hp & Hk & Hc).
    assert (Hown : inherited item = false).
    { revert Hin. rewrite !elem_of_cons, elem_of_nil.
      intros [->|[->|[->|[]]]]; vm_compute; reflexivity. }
    assert (Hentry : inventory (agent (addToInventory (consumeAll w recipe) item 1)) !! item
                     = Some (credited (inventory (agent w) !! item) 1)).
    { rewrite inventory_addToInventory, decide_True, credit_entry_own, Hk
        by (reflexivity || assumption). reflexivity. }
    split; [exact Hentry|]. split; [|split; [|split; [exact Hg|exact Hp]]].
    + intros Hnum. rewrite count_unfold, Hentry, (credited_numeric w item 1 Hnum).
      reflexivity.
    + intros k Hne. rewrite count_addToInventory_ne by exact Hne. apply Hc.
  - intros Hinh.
    assert (Hlook : recipe_lookup recipes item = Some []).
    { apply recipe_lookup_cases. right. split; [|split; [exact Hinh|reflexivity]].
      apply table_lookup_notin. intros Hin.
      revert Hin Hinh. cbn [fmap list_fmap recipes fst]. rewrite !elem_of_cons, elem_of_nil.
      intros [->|[->|[->|[]]]]; vm_compute; discriminate. }
    split; [exact Hlook|].
    split; [apply (craft_unfold w item [] Hlook); reflexivity|].
    intros Hnone. rewrite (craft_unfold w item [] Hlook) by reflexivity. cbn [fst consumeAll fold_left].
    split.
    + rewrite inventory_addToInventory, decide_True, Hnone by reflexivity.
      unfold credit_entry. rewrite Hinh. reflexivity.
    + intros k Hne. rewrite inventory_addToInventory, decide_False by congruence. reflexivity.
  - intros Hnone. unfold recipe_lookup in Hnone.
    destruct (table_lookup recipes item) as [r|] eqn:Htab; [discriminate|].
    destruct (inherited item) eqn:Hinh; [discriminate|].
    split; [|split; [reflexivity|]].
    + unfold table_lookup, recipes in Htab. cbn [List.find fst] in Htab.
      repeat (match goal with H : context [String.eqb ?k item] |- _ =>
                destruct (String.eqb_spec k item); [discriminate H|] end).
      rewrite !not_elem_of_cons. repeat split; auto. apply not_elem_of_nil.
    + unfold craft, recipe_lookup. rewrite Htab, Hinh. reflexivity.
Qed.

Lemma build_unfold w name reqs t :
  recipe_lookup buildRequirements name = Some reqs -> firstShort w reqs = None ->
  getTileAt w (position (agent w)) = Some t ->
  truthy_str (structure t) = false -> terrain t <> water ->
  build w name =
    (consumeAll (setTileAt w (position (agent w))
                   {| terrain := terrain t; resource := resource t;
                      resourceAmount := resourceAmount t; structure := Some name |}) reqs,
     {| success := true;
        message := "Built " +:+ name +:+ " at position ("
                   +:+ num_str (pos_x (position (agent w))) +:+ ", "
                   +:+ num_str (pos_y (position (agent w))) +:+ ")";
        data := Some (DataBuild name (position (agent w))) |}).
Proof.
  intros Hreq Hshort Ht Hfree Hland. unfold build, getAgent. rewrite Hreq, Hshort.
  unfold placeStructure. rewrite Ht, Hfree, bool_decide_eq_true_2 by exact Hland.
  reflexivity.
Qed.

(** X10. [build] succeeds exactly for a structure for which
    [buildRequirements[structure]] is not [undefined], of whose
    requirements the inventory holds every amount, when the tile under
    the agent has no structure and is not water.  It then puts the
    structure on that tile, leaving its terrain and resource, takes
    each required amount from the count of its resource and changes no
    other count nor the position.  For a structure of the table
    (shelter, campfire) the requirements are those of the table; for
    the name of a member of [Object.prototype] the lookup finds that
    member, which requires nothing, and the structure is placed without
    any resource being taken.  Any other name is refused with the list
    of the two. *)
Theorem build_spec (w : GameWorld) (name : string) :
  (success (snd (build w name)) = true <->
   exists reqs t,
     recipe_lookup buildRequirements name = Some reqs /\
     (forall res amount, (res, amount) ∈ reqs -> amount <= count w res) /\
     getTileAt w (position (agent w)) = Some t /\
     truthy_str (structure t) = false /\ terrain t <> water) /\
  (forall reqs t,
     recipe_lookup buildRequirements name = Some reqs ->
     getTileAt w (position (agent w)) = Some t ->
     success (snd (build w name)) = true ->
     getTileAt (fst (build w name)) (position (agent w)) =
       Some {| terrain := terrain t; resource := resource t;
               resourceAmount := resourceAmount t; structure := Some name |} /\
     (forall k, count (fst (build w name)) k = count w k - required reqs k) /\
     (forall k, k ∉ fst <$> reqs ->
        inventory (agent (fst (build w name))) !! k = inventory (agent w) !! k) /\
     position (agent (fst (build w name))) = position (agent w)) /\
  (forall reqs,
     recipe_lookup buildRequirements name = Some reqs <->
     table_lookup buildRequirements name = Some reqs \/
     (inherited name = true /\ reqs = [])) /\
  (inherited name = true ->
   forall t,
     getTileAt w (position (agent w)) = Some t ->
     truthy_str (structure t) = false -> terrain t <> water ->
     success (snd (build w name)) = true /\
     fst (build w name) =
       setTileAt w (position (agent w))
         {| terrain := terrain t; resource := resource t;
            resourceAmount := resourceAmount t; structure := Some name |}) /\
  (recipe_lookup buildRequirements name = None ->
   (name ∉ ["shelter"; "campfire"]) /\ inherited name = false /\
   build w name =
     (w, fail_result ("Unknown structure: " +:+ name
                      +:+ ". Available: shelter, campfire"))).
Proof.
  assert (Hlookup : forall reqs,
             recipe_lookup buildRequirements name = Some reqs <->
             table_lookup buildRequirements name = Some reqs \/
             (inherited name = true /\ reqs = [])).
  { intros reqs. rewrite recipe_lookup_cases. split.
    - intros [H|(_ & H1 & H2)]; [left; exact H|right; split; assumption].
    - intros [H|(H1 & H2)]; [left; exact H|]. right.
      split; [|split; assumption].
      apply table_lookup_notin. intros Hin. revert Hin H1.
      cbn [fmap list_fmap buildRequirements fst]. rewrite !elem_of_cons, elem_of_nil.
      intros [->|[->|[]]]; vm_compute; discriminate. }
  split; [split|split; [|split; [exact Hlookup|split]]].
  - unfold build, getAgent.
    destruct (recipe_lookup buildRequirements name) as [reqs|] eqn:Hreq; [|discriminate].
    destruct (firstShort w reqs) as [[res amount]|] eqn:Ef; [discriminate|].
    destruct (placeStructure_cases w (position (agent w)) name)
      as [->|(t & Ht & Hfree & Hland & ->)]; [discriminate|].
    intros _. exists reqs, t. split; [reflexivity|].
    split; [apply firstShort_iff; [apply (buildRequirements_lookup_wf name reqs Hreq)|exact Ef]|].
    split; [exact Ht|]. split; assumption.
  - intros (reqs & t & Hreq & Hall & Ht & Hfree & Hland).
    rewrite (build_unfold w name reqs t Hreq); try assumption; [reflexivity|].
    apply firstShort_iff; [apply (buildRequirements_lookup_wf name reqs Hreq)|exact Hall].
  - intros reqs t Hreq Ht. unfold build, getAgent. rewrite Hreq.
    destruct (firstShort w reqs) as [[res amount]|] eqn:Ef; [discriminate|].
    unfold placeStructure. rewrite Ht.
    destruct (negb (truthy_str (structure t)) && bool_decide (terrain t <> water));
      [|discriminate].
    intros _. cbn [negb fst].
    pose proof (buildRequirements_lookup_wf name reqs Hreq) as Hwf.
    match goal with |- context [consumeAll ?v reqs] =>
      destruct (count_consumeAll reqs v Hwf) as (Hg & Hp & Hk & Hc); [exact Ef|] end.
    split; [|split; [exact Hc|split; [exact Hk|exact Hp]]].
    rewrite (getTileAt_grid _ _ _ Hg). eapply getTileAt_setTileAt, Ht.
  - intros Hinh t Ht Hfree Hland.
    assert (Hreq : recipe_lookup buildRequirements name = Some [])
      by (apply Hlookup; right; split; [exact Hinh|reflexivity]).
    rewrite (build_unfold w name [] t Hreq eq_refl Ht Hfree Hland).
    split; reflexivity.
  - intros Hnone. unfold recipe_lookup in Hnone.
    destruct (table_lookup buildRequirements name) as [r|] eqn:Htab; [discriminate|].
    destruct (inherited name) eqn:Hinh; [discriminate|].
    split; [|split; [reflexivity|]].
    + unfold table_lookup, buildRequirements in Htab. cbn [List.find fst] in Htab.
      repeat (match goal with H : context [String.eqb ?k name] |- _ =>
                destruct (String.eqb_spec k name); [discriminate H|] end).
      rewrite !not_elem_of_cons. repeat split; auto. apply not_elem_of_nil.
    + unfold build, recipe_lookup. rewrite Htab, Hinh. reflexivity.
Qed.

(** ** Further properties: the catalog *)

Lemma move_failure w direction :
  success (snd (move w direction)) = false -> fst (move w direction) = w.
Proof.
  unfold move. destruct (List.find _ _) as [d|]; [|reflexivity].
  match goal with |- context [setAgentPosition w ?p] =>
    destruct (setAgentPosition_cases w p) as [->|(t & _ & _ & ->)] end;
    [reflexivity|discriminate].
Qed.

(** X11. No operation of the catalog leaves a partial change behind:
    whatever the name and the arguments, an outcome with
    [success = false] comes with the world unchanged; and [look] and
    [getInventory] always succeed and never change the world. *)
Theorem failed_operation_changes_nothing (w : GameWorld) (name : string) (args : Args) :
  (success (snd (executeTool w name args)) = false -> fst (executeTool w name args) = w) /\
  (name = "look" \/ name = "getInventory" ->
   fst (executeTool w name args) = w /\ success (snd (executeTool w name args)) = true).
Proof.
  split.
  - unfold executeTool. repeat (destruct (String.eqb name _));
      auto using move_failure, gather_failure, craft_failure, build_failure.
  - intros [-> | ->]; split; reflexivity.
Qed.

(** X12. An operation asked for without its argument (or with the
    empty string for it) fails and changes nothing: [move] answers that
    the direction is invalid, [craft] and [build] that the item or the
    structure is unknown, [gather] that nothing of that kind is there. *)
Theorem missing_argument_fails (w : GameWorld) (args : Args) :
  arg_string [] "direction" = "" /\
  (arg_string args "direction" = "" ->
   executeTool w "move" args =
     (w, fail_result "Invalid direction: . Must be one of: north, south, east, west")) /\
  (arg_string args "resource" = "" ->
   fst (executeTool w "gather" args) = w /\
   success (snd (executeTool w "gather" args)) = false) /\
  (arg_string args "item" = "" ->
   executeTool w "craft" args =
     (w, fail_result "Unknown item: . Available items: axe, pickaxe, campfire")) /\
  (arg_string args "structure" = "" ->
   executeTool w "build" args =
     (w, fail_result "Unknown structure: . Available: shelter, campfire")).
Proof.
  split; [reflexivity|]. unfold executeTool. cbn [String.eqb Ascii.eqb Bool.eqb].
  repeat apply conj; intros ->; try reflexivity.
  assert (Hf : success (snd (gather w "")) = false).
  { destruct (success (snd (gather w ""))) eqn:Es; [|reflexivity].
    apply gather_success_inv in Es as (t & r & q & _ & _ & Hname & _).
    destruct r; discriminate. }
  split; [apply gather_failure, Hf|exact Hf].
Qed.

Lemma length_bind_le {A B : Type} (f : A -> list B) (l : list A) (k : nat) :
  (forall x, (length (f x) <= k)%nat) -> (length (l ≫= f) <= length l * k)%nat.
Proof.
  intros Hf. induction l as [|x l IH]; [cbn; lia|].
  rewrite bind_cons, length_app. specialize (Hf x). cbn [length]. lia.
Qed.

(** X13. [look] always succeeds and never changes the world.  It
    reports, once each and at most 25 in all, exactly the tiles that
    exist at an offset of at most 2 in each axis from the agent, each
    with its absolute position, its offset and the terrain, resource,
    quantity and structure the grid has there; a coordinate without a
    tile is left out. *)
Theorem look_spec (w : GameWorld) :
  fst (look w) = w /\
  success (snd (look w)) = true /\
  exists tiles,
    data (snd (look w)) = Some (DataLook tiles (position (agent w))) /\
    NoDup tiles /\
    (length tiles <= 25)%nat /\
    forall info,
      info ∈ tiles <->
      exists dx dy t,
        -2 <= dx <= 2 /\ -2 <= dy <= 2 /\
        getTileAt w (mkPosition (pos_x (position (agent w)) + dx)
                                (pos_y (position (agent w)) + dy)) = Some t /\
        info = tile_info (position (agent w)) dx dy t.
Proof.
  split; [reflexivity|]. split; [reflexivity|].
  unfold look, getAgent. cbn [snd data]. eexists. split; [reflexivity|].
  set (p := position (agent w)).
  set (cell := fun dy dx : Z =>
         match getTileAt w (mkPosition (pos_x p + dx) (pos_y p + dy)) with
         | Some tile => [tile_info p dx dy tile]
         | None => []
         end).
  change (NoDup (seqZ (- viewRadius) (2 * viewRadius + 1) ≫=
                   (fun dy => seqZ (- viewRadius) (2 * viewRadius + 1) ≫= cell dy)) /\
          (length (seqZ (- viewRadius) (2 * viewRadius + 1) ≫=
                     (fun dy => seqZ (- viewRadius) (2 * viewRadius + 1) ≫= cell dy))
           <= 25)%nat /\
          forall info,
            info ∈ seqZ (- viewRadius) (2 * viewRadius + 1) ≫=
                     (fun dy => seqZ (- viewRadius) (2 * viewRadius + 1) ≫= cell dy) <->
            exists dx dy t,
              -2 <= dx <= 2 /\ -2 <= dy <= 2 /\
              getTileAt w (mkPosition (pos_x p + dx) (pos_y p + dy)) = Some t /\
              info = tile_info p dx dy t).
  assert (Hcell : forall dy dx info,
             info ∈ cell dy dx <->
             exists t, getTileAt w (mkPosition (pos_x p + dx) (pos_y p + dy)) = Some t /\
                       info = tile_info p dx dy t).
  { intros dy dx info. unfold cell.
    destruct (getTileAt w _) as [t|].
    - rewrite list_elem_of_singleton. split; [intros ->; eauto|].
      intros (t' & [= <-] & ->). reflexivity.
    - split; [intros H; inversion H|intros (t' & [=] & _)]. }
  assert (Hrow : forall dy info,
             info ∈ seqZ (- viewRadius) (2 * viewRadius + 1) ≫= cell dy <->
             exists dx t, -2 <= dx <= 2 /\
               getTileAt w (mkPosition (pos_x p + dx) (pos_y p + dy)) = Some t /\
               info = tile_info p dx dy t).
  { intros dy info. rewrite list_elem_of_bind. split.
    - intros (dx & Hin & Hdx). apply elem_of_seqZ in Hdx. apply Hcell in Hin as (t & Ht & ->).
      exists dx, t. unfold viewRadius in Hdx. repeat split; try lia; assumption.
    - intros (dx & t & Hdx & Ht & ->). exists dx. split.
      + apply Hcell. eauto.
      + apply elem_of_seqZ. unfold viewRadius. lia. }
  split; [|split].
  - apply NoDup_bind; [| |apply NoDup_seqZ].
    + intros dy1 dy2 info _ _ H1 H2.
      apply Hrow in H1 as (dx1 & t1 & _ & _ & ->).
      apply Hrow in H2 as (dx2 & t2 & _ & _ & [=]). congruence.
    + intros dy _. apply NoDup_bind; [| |apply NoDup_seqZ].
      * intros dx1 dx2 info _ _ H1 H2.
        apply Hcell in H1 as (t1 & _ & ->). apply Hcell in H2 as (t2 & _ & [=]).
        congruence.
      * intros dx _. unfold cell. destruct (getTileAt w _);
          [apply NoDup_singleton|apply NoDup_nil_2].
  - etransitivity;
      [apply (length_bind_le _ _ 5)|rewrite length_seqZ; unfold viewRadius; simpl; lia].
    intros dy. etransitivity;
      [apply (length_bind_le _ _ 1)|rewrite length_seqZ; unfold viewRadius; simpl; lia].
    intros dx. unfold cell. destruct (getTileAt w _); cbn; lia.
  - intros info. rewrite list_elem_of_bind. split.
    + intros (dy & Hin & Hdy). apply elem_of_seqZ in Hdy.
      apply Hrow in Hin as (dx & t & Hdx & Ht & ->).
      exists dx, dy, t. unfold viewRadius in Hdy. repeat split; try lia; assumption.
    + intros (dx & dy & t & Hdx & Hdy & Ht & ->). exists dy. split.
      * apply Hrow. eauto.
      * apply elem_of_seqZ. unfold viewRadius. lia.
Qed.

(** X14. [getInventory] always succeeds and never changes the world.
    Its list has one pair per key of the inventory, with the count
    stored for it, no key twice; its message counts the keys; and the
    list is empty exactly when the inventory is. *)
Theorem getInventory_spec (w : GameWorld) :
  fst (getInventory w) = w /\
  success (snd (getInventory w)) = true /\
  exists items,
    data (snd (getInventory w)) = Some (DataInventory items) /\
    (forall k c, (k, c) ∈ items <-> inventory (agent w) !! k = Some c) /\
    NoDup (fst <$> items) /\
    (items = [] <-> inventory (agent w) = ∅) /\
    message (snd (getInventory w)) =
      "Inventory contains " +:+ num_str (Z.of_nat (size (inventory (agent w))))
      +:+ " item types".
Proof.
  split; [reflexivity|]. split; [reflexivity|].
  exists (map_to_list (inventory (agent w))). split; [reflexivity|].
  split; [intros k c; apply elem_of_map_to_list|].
  split; [apply NoDup_fst_map_to_list|].
  split; [apply map_to_list_empty_iff|].
  unfold getInventory, getAgent. cbn [snd message]. rewrite length_map_to_list. reflexivity.
Qed.

Lemma adjacent_opposite p d : adjacent (adjacent p d) (opposite d) = p.
Proof. destruct p as [x y], d; cbn; f_equal; lia. Qed.

(** X15. From a tile that is not water, a move that succeeds can be
    taken back: the move in the opposite direction succeeds too and
    gives back the very world the first move started from. *)
Theorem move_and_back (w : GameWorld) (d : Direction) (t0 : Tile) :
  getTileAt w (position (agent w)) = Some t0 -> terrain t0 <> water ->
  success (snd (move w (direction_name d))) = true ->
  success (snd (move (fst (move w (direction_name d))) (direction_name (opposite d)))) = true /\
  fst (move (fst (move w (direction_name d))) (direction_name (opposite d))) = w.
Proof.
  intros Ht0 Hland. rewrite (move_unfold w d). cbv zeta.
  destruct (setAgentPosition_cases w (adjacent (position (agent w)) d))
    as [->|(t & Ht & Hterr & ->)]; [discriminate|].
  cbn [fst snd success]. intros _.
  set (w1 := with_agent w _).
  rewrite (move_unfold w1 (opposite d)). cbv zeta.
  change (position (agent w1)) with (adjacent (position (agent w)) d).
  rewrite adjacent_opposite.
  assert (Hback : setAgentPosition w1 (position (agent w)) = (w, true)).
  { unfold setAgentPosition.
    change (getTileAt w1 (position (agent w))) with (getTileAt w (position (agent w))).
    rewrite Ht0, (proj1 (getTileAt_Some w _ t0 Ht0)), bool_decide_eq_true_2 by exact Hland.
    f_equal. subst w1. unfold with_agent.
    cbn [agent inventory isActive world_size grid]. apply world_eta. }
  rewrite Hback. split; reflexivity.
Qed.

Lemma gatherN_S n w res : gatherN (S n) w res = fst (gather (gatherN n w res) res).
Proof. reflexivity. Qed.

Lemma count_addToInventory w item amount k :
  inherited item = false -> numeric_at w item ->
  count (addToInventory w item amount) k =
    count w k + (if decide (item = k) then amount else 0).
Proof.
  intros Hitem Hnum. destruct (decide (item = k)) as [<-|Hne].
  - rewrite count_unfold, inventory_addToInventory, decide_True, credit_entry_own
      by (reflexivity || assumption).
    rewrite (credited_numeric w item amount Hnum). reflexivity.
  - rewrite count_addToInventory_ne by congruence. lia.
Qed.

Lemma numeric_at_addToInventory w item amount :
  inherited item = false -> numeric_at w item ->
  numeric_at (addToInventory w item amount) item.
Proof.
  intros Hitem Hnum p.
  rewrite inventory_addToInventory, decide_True, credit_entry_own
    by (reflexivity || assumption).
  rewrite (credited_numeric w item amount Hnum). intros [= <-]. eauto.
Qed.

(** X16. Gathering again and again from the same tile: with a positive
    quantity [q] of the requested kind under the agent, after [n] calls
    the count of the resource has grown by [min q (5 n)], the tile
    keeps [q - 5 n] of it, or neither resource nor quantity once
    [5 n >= q], and the position and every other count are as before;
    calls on the emptied tile change nothing.  The entry of the
    resource, if there is one to begin with, is taken to be a number. *)
Theorem repeated_gather
  (n : nat) (w : GameWorld) (res : string) (t : Tile) (r : ResourceType) (q : Z) :
  getTileAt w (position (agent w)) = Some t ->
  resource t = Some r -> resource_name r = res ->
  resourceAmount t = Some q -> 0 < q ->
  numeric_at w res ->
  let w' := gatherN n w res in
  position (agent w') = position (agent w) /\
  (forall k, count w' k =
             count w k + (if decide (res = k) then Z.min q (5 * Z.of_nat n) else 0)) /\
  exists t',
    getTileAt w' (position (agent w)) = Some t' /\
    resource t' = (if q <=? 5 * Z.of_nat n then None else Some r) /\
    resourceAmount t' = (if q <=? 5 * Z.of_nat n then None else Some (q - 5 * Z.of_nat n)) /\
    terrain t' = terrain t /\ structure t' = structure t.
Proof.
  intros Ht Hr Hname Hq Hpos Hnum. cbv zeta.
  assert (Hown : inherited res = false) by (rewrite <- Hname; apply resource_name_own).
  apply (proj2 (A := numeric_at (gatherN n w res) res)).
  induction n as [|n (IHnum & IHp & IHc & t1 & Ht1 & Hr1 & Hq1 & Hterr1 & Hs1)].
  - change (gatherN 0 w res) with w. split; [exact Hnum|]. split; [reflexivity|].
    split; [intros k; destruct (decide _); lia|].
    exists t. replace (q <=? 5 * Z.of_nat 0) with false by (symmetry; apply Z.leb_gt; lia).
    repeat split; try assumption. rewrite Hq. f_equal. lia.
  - rewrite gatherN_S. set (w1 := gatherN n w res) in *.
    destruct (q <=? 5 * Z.of_nat n) eqn:En;
      [apply Z.leb_le in En|apply Z.leb_gt in En].
    + assert (Hf : success (snd (gather w1 res)) = false).
      { destruct (success (snd (gather w1 res))) eqn:Es; [|reflexivity].
        apply gather_success_inv in Es as (t2 & r2 & q2 & Ht2 & Hr2 & _).
        rewrite IHp in Ht2. congruence. }
      rewrite (gather_failure w1 res Hf).
      replace (q <=? 5 * Z.of_nat (S n)) with true by (symmetry; apply Z.leb_le; lia).
      split; [exact IHnum|]. split; [exact IHp|]. split.
      * intros k. rewrite IHc. destruct (decide _); lia.
      * exists t1. repeat split; assumption.
    + assert (Ht1' : getTileAt w1 (position (agent w1)) = Some t1)
        by (rewrite IHp; exact Ht1).
      rewrite (gather_available w1 res t1 r (q - 5 * Z.of_nat n) Ht1' Hr1 Hname Hq1 ltac:(lia)).
      cbn [fst].
      split; [apply numeric_at_addToInventory; [exact Hown|exact IHnum]|].
      split; [exact IHp|]. split.
      * intros k. rewrite count_addToInventory by (exact Hown || exact IHnum).
        change (count (setTileAt w1 ?p ?x) k) with (count w1 k).
        rewrite IHc. destruct (decide _); lia.
      * exists (depleted t1 r (q - 5 * Z.of_nat n) (Z.min 5 (q - 5 * Z.of_nat n))). split.
        -- change (getTileAt (addToInventory ?v _ _) ?p) with (getTileAt v p).
           rewrite IHp. eapply getTileAt_setTileAt. exact Ht1.
        -- unfold depleted.
           destruct (q <=? 5 * Z.of_nat (S n)) eqn:En';
             [apply Z.leb_le in En'|apply Z.leb_gt in En'].
           ++ replace (q - 5 * Z.of_nat n - Z.min 5 (q - 5 * Z.of_nat n) =? 0) with true
                by (symmetry; apply Z.eqb_eq; lia).
              cbn [resource resourceAmount terrain structure]. repeat split; assumption.
           ++ replace (q - 5 * Z.of_nat n - Z.min 5 (q - 5 * Z.of_nat n) =? 0) with false
                by (symmetry; apply Z.eqb_neq; lia).
              cbn [resource resourceAmount terrain structure].
              repeat split; try assumption. f_equal. lia.
Qed.

(** ** Further properties: the conversation and the run *)

(** X17. The turn in which the loop records the requests of a round
    reads back as those requests: [extractFunctionCalls] of it is the
    list of calls, in order; the turn that carries the outcomes, a
    content without parts, and no content at all hold no request, and
    the outcomes turn holds no text. *)
Theorem recorded_calls_read_back
  (calls : list (string * Args)) (responses : list GeminiFunctionResponse) (r : Role) :
  extractFunctionCalls (Some (calls_turn calls)) = calls /\
  extractFunctionCalls (Some (outcomes_turn responses)) = [] /\
  extractText (Some (outcomes_turn responses)) = "" /\
  extractFunctionCalls (Some {| role := r; parts := None |}) = [] /\
  extractFunctionCalls None = [].
Proof.
  split; [|split; [|split; [|split; reflexivity]]].
  - unfold calls_turn, extractFunctionCalls.
    induction calls as [|[name args] calls IH]; [reflexivity|].
    rewrite fmap_cons, bind_cons, IH. reflexivity.
  - unfold outcomes_turn, extractFunctionCalls.
    induction responses as [|x responses IH]; [reflexivity|].
    rewrite fmap_cons, bind_cons, IH. reflexivity.
  - induction responses as [|x responses IH]; [reflexivity|].
    unfold outcomes_turn, extractText in *. rewrite fmap_cons, bind_cons. exact IH.
Qed.

Lemma hostEvent_fields a e :
  conversationHistory (hostEvent a e) = conversationHistory a /\
  apiKey (hostEvent a e) = apiKey a /\
  isRunning (hostEvent a e) = false.
Proof.
  destruct e; cbn; [repeat split|]. unfold resetWorld.
  destruct (isRunning a) eqn:E; cbn; rewrite ?E; repeat split.
Qed.

Lemma hostEvents_fields es a :
  conversationHistory (hostEvents a es) = conversationHistory a /\
  apiKey (hostEvents a es) = apiKey a /\
  (es <> [] -> isRunning (hostEvents a es) = false) /\
  (isRunning a = false -> isRunning (hostEvents a es) = false).
Proof.
  unfold hostEvents. revert a. induction es as [|e es IH]; intros a.
  - cbn. repeat split; [congruence|auto].
  - cbn [fold_left]. destruct (IH (hostEvent a e)) as (Hh & Hk & _ & Hoff).
    destruct (hostEvent_fields a e) as (Hh' & Hk' & Hr').
    repeat split; [congruence|congruence|auto|auto].
Qed.

Lemma executeCalls_fields calls a :
  conversationHistory (fst (executeCalls a calls)) = conversationHistory a /\
  apiKey (fst (executeCalls a calls)) = apiKey a /\
  isRunning (fst (executeCalls a calls)) = isRunning a /\
  game (fst (executeCalls a calls)) = runCalls (game a) calls /\
  fr_name <$> snd (executeCalls a calls) = fst <$> calls.
Proof.
  unfold runCalls. revert a. induction calls as [|[name args] calls IH]; intros a.
  - repeat split.
  - cbn [executeCalls fold_left fst snd].
    destruct (executeTool (game a) name args) as [w result] eqn:Et.
    match goal with |- context [executeCalls ?b calls] =>
      specialize (IH b); destruct (executeCalls b calls) as [a' responses] end.
    cbn [fst snd] in *. destruct IH as (Hh & Hk & Hr & Hg & Hn).
    cbn [onLog with_game conversationHistory apiKey isRunning game] in *.
    repeat split; try assumption.
    rewrite fmap_cons. cbn [fr_name]. rewrite Hn. reflexivity.
Qed.

Lemma iterationBody_turns service a :
  (snd (iterationBody service a) = true /\
   conversationHistory (fst (iterationBody service a)) = conversationHistory a) \/
  (snd (iterationBody service a) = false /\
   exists r, round_ok r /\
     conversationHistory (fst (iterationBody service a))
       = (conversationHistory a ++ round_turns [r])%list).
Proof.
  unfold iterationBody.
  destruct (hostEvents_fields (duringCall (service (conversationHistory a))) a)
    as (Hh & _).
  set (a1 := hostEvents a _) in *.
  destruct (response _) as [err|[content|]]; [left; split; [reflexivity|exact Hh]|
                                              |left; split; [reflexivity|exact Hh]].
  destruct (extractFunctionCalls (Some content)) as [|c calls] eqn:Ec.
  - left. split; [reflexivity|]. destruct (negb _); exact Hh.
  - right.
    destruct (executeCalls_fields (c :: calls) a1) as (Hh2 & _ & _ & _ & Hn).
    destruct (executeCalls a1 (c :: calls)) as [a2 responses]. cbn [fst snd] in *.
    split; [reflexivity|]. exists (c :: calls, responses).
    split; [split; [discriminate|exact Hn]|].
    match goal with |- conversationHistory (hostEvents ?b ?es) = _ =>
      rewrite (proj1 (hostEvents_fields es b)) end.
    cbn [with_history conversationHistory]. rewrite Hh2, Hh, <- app_assoc. reflexivity.
Qed.

Lemma whileLoop_turns service fuel iteration a :
  exists rounds,
    conversationHistory (snd (whileLoop fuel service iteration a))
      = (conversationHistory a ++ round_turns rounds)%list /\
    Forall round_ok rounds /\
    (Z.of_nat (length rounds) <= fst (whileLoop fuel service iteration a) - iteration) /\
    (length rounds <= fuel)%nat.
Proof.
  revert iteration a. induction fuel as [|fuel IH]; intros iteration a.
  - exists []. cbn. rewrite app_nil_r. repeat split; [constructor|lia|lia].
  - cbn [whileLoop]. destruct (isRunning a && (iteration <? maxIterations));
      [|exists []; cbn; rewrite app_nil_r; repeat split; [constructor|lia|lia]].
    set (a1 := onLog a _ LogInfo).
    destruct (iterationBody_turns service a1) as [[Hb Hh]|(Hb & r & Hr & Hh)];
      destruct (iterationBody service a1) as [a2 b]; cbn [fst snd] in *; subst b.
    + exists []. cbn [snd fst length]. rewrite Hh. cbn. rewrite app_nil_r.
      repeat split; [constructor|lia|lia].
    + destruct (IH (iteration + 1) a2) as (rounds & Hh' & Hok & Hlen & Hfuel).
      exists (r :: rounds). rewrite Hh', Hh.
      change (conversationHistory a1) with (conversationHistory a).
      unfold round_turns. rewrite !bind_cons, <- !app_assoc. cbn [mbind list_bind app].
      repeat split; [constructor; assumption|cbn [length]; lia|cbn [length]; lia].
Qed.

(** X18. Whatever the service answers and whatever the host does in
    between, the conversation a run leaves behind is the instruction
    turn followed by the two turns of each completed round: the model
    turn with the requests of the round and the user turn with one
    outcome for each request, in order and under the same name.  There
    are at most 30 such rounds, so the conversation alternates between
    user and model, begins and ends with a user turn and has at most 61
    turns. *)
Theorem conversation_structure (service : Service) (a : Agent) (goal : string) :
  apiKey a <> "" ->
  exists rounds,
    conversationHistory (start service a goal) = prompt_turn goal :: round_turns rounds /\
    Forall round_ok rounds /\
    (length rounds <= 30)%nat /\
    length (conversationHistory (start service a goal)) = (1 + 2 * length rounds)%nat.
Proof.
  intros Hkey. rewrite (start_started service a goal Hkey). unfold runLoop.
  destruct (whileLoop_turns service (Z.to_nat maxIterations) 0 (started a goal))
    as (rounds & Hh & Hok & _ & Hlen).
  destruct (whileLoop _ service 0 (started a goal)) as [iteration a']. cbn [snd] in Hh.
  exists rounds.
  assert (Hfinal : conversationHistory
            (with_isRunning
               (if iteration >=? maxIterations
                then onLog a' "Reached maximum iterations" LogInfo else a') false)
          = prompt_turn goal :: round_turns rounds).
  { destruct (iteration >=? maxIterations); cbn [with_isRunning onLog conversationHistory];
      exact Hh. }
  split; [exact Hfinal|]. split; [exact Hok|]. split; [exact Hlen|].
  rewrite Hfinal. cbn [length]. f_equal.
  clear. unfold round_turns. induction rounds as [|r rounds IH]; [reflexivity|].
  rewrite bind_cons, length_app, IH. cbn [length]. lia.
Qed.

Lemma start_first_round service a goal :
  apiKey a <> "" ->
  snd (iterationBody service (onLog (started a goal) "--- Iteration 1 ---" LogInfo)) = true \/
  isRunning (fst (iterationBody service
                    (onLog (started a goal) "--- Iteration 1 ---" LogInfo))) = false ->
  start service a goal =
    with_isRunning
      (fst (iterationBody service (onLog (started a goal) "--- Iteration 1 ---" LogInfo)))
      false /\
  fst (whileLoop (Z.to_nat maxIterations) service 0 (started a goal)) = 1.
Proof.
  intros Hkey Hend. rewrite (start_started service a goal Hkey). unfold runLoop.
  change (Z.to_nat maxIterations) with (S (S 28)). cbn [whileLoop].
  change (isRunning (started a goal) && (0 <? maxIterations)) with true. cbv iota.
  change (num_str (0 + 1)) with "1".
  change ("--- Iteration " +:+ "1" +:+ " ---") with "--- Iteration 1 ---".
  destruct (iterationBody service _) as [a1 b]. cbn [fst snd] in *.
  destruct b.
  - cbn [fst]. split; reflexivity.
  - destruct Hend as [Hb|Hoff]; [discriminate|]. rewrite Hoff. cbn [andb fst].
    split; reflexivity.
Qed.

(** X19. A service call that throws, or that returns no content, ends
    the run in its round: when this happens in the first round (the
    host not interfering) the run makes one round, logs the start, the
    round and the error (the rendering of the exception after
    "Error: ", or "No response from Gemini") with severity error, logs
    neither completion nor the maximum, runs no operation, adds no turn
    and stops running. *)
Theorem service_failure_ends_run
  (service : Service) (a : Agent) (goal msg : string) :
  apiKey a <> "" ->
  duringCall (service [prompt_turn goal]) = [] ->
  service_error (response (service [prompt_turn goal])) = Some msg ->
  fst (whileLoop (Z.to_nat maxIterations) service 0 (started a goal)) = 1 /\
  logged (start service a goal) =
    (logged a ++ [ ("Starting agent with goal: " +:+ goal, LogInfo);
                   ("--- Iteration 1 ---", LogInfo);
                   (msg, LogError) ])%list /\
  conversationHistory (start service a goal) = [prompt_turn goal] /\
  game (start service a goal) = game a /\
  isRunning (start service a goal) = false.
Proof.
  intros Hkey Hquiet Herr.
  assert (Hbody : iterationBody service (onLog (started a goal) "--- Iteration 1 ---" LogInfo)
                  = (onLog (onLog (started a goal) "--- Iteration 1 ---" LogInfo) msg LogError,
                     true)).
  { unfold iterationBody.
    change (conversationHistory (onLog (started a goal) _ LogInfo)) with [prompt_turn goal].
    rewrite Hquiet. cbn [hostEvents fold_left].
    destruct (response (service [prompt_turn goal])) as [err|[content|]];
      cbn in Herr; try discriminate; injection Herr as <-; reflexivity. }
  destruct (start_first_round service a goal Hkey) as [-> Hone];
    [left; rewrite Hbody; reflexivity|].
  rewrite Hbody. cbn [fst]. split; [exact Hone|].
  cbn [with_isRunning onLog started logged conversationHistory game isRunning].
  rewrite <- !app_assoc. repeat split.
Qed.

Lemma has_char_append c s1 s2 :
  has_char c (s1 +:+ s2) = has_char c s1 || has_char c s2.
Proof.
  induction s1 as [|x s1 IH]; [reflexivity|].
  simpl. rewrite IH. apply orb_assoc.
Qed.

Lemma hostEvent_logged e a :
  exists entries,
    logged (hostEvent a e) = (logged a ++ entries)%list /\ Forall non_terminal entries.
Proof.
  destruct e.
  - exists [("Agent stopped", LogInfo)]. split; [reflexivity|].
    constructor; [split; discriminate|constructor].
  - unfold hostEvent, resetWorld. destruct (isRunning a).
    + exists [("Agent stopped", LogInfo); ("World reset!", LogInfo)].
      split; [cbn; rewrite <- app_assoc; reflexivity|].
      constructor; [split; discriminate|]. constructor; [split; discriminate|constructor].
    + exists [("World reset!", LogInfo)]. split; [reflexivity|].
      constructor; [split; discriminate|constructor].
Qed.

Lemma hostEvents_logged es a :
  exists entries,
    logged (hostEvents a es) = (logged a ++ entries)%list /\ Forall non_terminal entries.
Proof.
  unfold hostEvents. revert a. induction es as [|e es IH]; intros a.
  - exists []. rewrite app_nil_r. split; [reflexivity|constructor].
  - cbn [fold_left]. destruct (IH (hostEvent a e)) as (entries & Hl & Hok).
    destruct (hostEvent_logged e a) as (entries0 & Hl0 & Hok0).
    exists (entries0 ++ entries)%list. rewrite Hl, Hl0, <- app_assoc.
    split; [reflexivity|apply Forall_app_2; assumption].
Qed.

Lemma executeCalls_logged calls a :
  exists entries,
    logged (fst (executeCalls a calls)) = (logged a ++ entries)%list /\
    Forall non_terminal entries.
Proof.
  revert a. induction calls as [|[name args] calls IH]; intros a.
  - exists []. cbn. rewrite app_nil_r. split; [reflexivity|constructor].
  - cbn [executeCalls].
    destruct (executeTool (game a) name args) as [w result].
    match goal with |- context [executeCalls ?b calls] =>
      destruct (IH b) as (entries & Hl & Hok);
      destruct (executeCalls b calls) as [a' responses] end.
    cbn [fst] in *. rewrite Hl. cbn [onLog logged with_game]. rewrite <- app_assoc.
    eexists (_ :: entries). split; [reflexivity|].
    constructor; [|exact Hok].
    assert (Hparen : has_char "("%char
               (name +:+ "(" +:+ JSON_stringify args +:+ "): " +:+ message result) = true).
    { rewrite has_char_append. apply orb_true_iff. right. reflexivity. }
    split; intros [= Heq _]; rewrite Heq in Hparen; discriminate.
Qed.

Lemma game_hostEvents es a :
  (EvResetWorld ∈ es -> game (hostEvents a es) = createWorld) /\
  (EvResetWorld ∉ es -> game (hostEvents a es) = game a).
Proof.
  unfold hostEvents. revert a. induction es as [|e es IH]; intros a.
  - split; [intros H; inversion H|reflexivity].
  - cbn [fold_left]. destruct (IH (hostEvent a e)) as [Hin Hnot]. split.
    + intros H. destruct (decide (EvResetWorld ∈ es)) as [Hes|Hes]; [apply Hin, Hes|].
      rewrite (Hnot Hes). apply elem_of_cons in H as [<-|H]; [reflexivity|contradiction].
    + rewrite not_elem_of_cons. intros [Hne Hes]. rewrite (Hnot Hes).
      destruct e; [reflexivity|congruence].
Qed.

(** X20. A stop or a reset that arrives while the request of the first
    round is in flight does not cancel that round: when the response
    asks for operations they are all executed, one after the other, on
    the world the host left (the fresh world after a reset, the world
    as it was after a stop), and their two turns are recorded; the run
    then ends with that single round, logging neither completion nor
    the maximum. *)
Theorem host_event_ends_run_after_round
  (service : Service) (a : Agent) (goal : string) (content : GeminiContent) :
  apiKey a <> "" ->
  duringCall (service [prompt_turn goal]) <> [] ->
  duringPause (service [prompt_turn goal]) = [] ->
  response (service [prompt_turn goal]) = ServiceReturns (Some content) ->
  extractFunctionCalls (Some content) <> [] ->
  let calls := extractFunctionCalls (Some content) in
  let es := duringCall (service [prompt_turn goal]) in
  fst (whileLoop (Z.to_nat maxIterations) service 0 (started a goal)) = 1 /\
  (EvResetWorld ∈ es -> game (start service a goal) = runCalls createWorld calls) /\
  (EvResetWorld ∉ es -> game (start service a goal) = runCalls (game a) calls) /\
  (exists responses,
     conversationHistory (start service a goal)
       = [prompt_turn goal; calls_turn calls; outcomes_turn responses] /\
     fr_name <$> responses = fst <$> calls) /\
  (completed_entry ∉ drop (length (logged a)) (logged (start service a goal))) /\
  (max_iterations_entry ∉ drop (length (logged a)) (logged (start service a goal))) /\
  isRunning (start service a goal) = false.
Proof.
  intros Hkey Hes Hpause Hresp Hcalls calls es.
  set (a0 := onLog (started a goal) "--- Iteration 1 ---" LogInfo).
  set (a1 := hostEvents a0 es).
  destruct (hostEvents_fields es a0) as (Hh1 & _ & Hoff1 & _). specialize (Hoff1 Hes).
  destruct (executeCalls_fields calls a1) as (Hh2 & _ & Hr2 & Hg2 & Hn2).
  assert (Hbody : iterationBody service a0 =
            (with_history
               (with_history (fst (executeCalls a1 calls))
                  (conversationHistory (fst (executeCalls a1 calls)) ++ [calls_turn calls]))
               ((conversationHistory (fst (executeCalls a1 calls)) ++ [calls_turn calls])
                ++ [outcomes_turn (snd (executeCalls a1 calls))]), false)).
  { unfold iterationBody.
    change (conversationHistory a0) with [prompt_turn goal].
    fold es. fold a1. rewrite Hresp, Hpause. fold calls.
    destruct calls as [|c calls'] eqn:Ecalls; [contradiction|].
    destruct (executeCalls a1 (c :: calls')) as [a2 responses]. reflexivity. }
  destruct (start_first_round service a goal Hkey) as [-> Hone].
  { right. fold a0. rewrite Hbody. cbn [fst with_history isRunning].
    rewrite Hr2. exact Hoff1. }
  fold a0. rewrite Hbody. cbn [fst with_isRunning with_history game conversationHistory
                                  logged isRunning].
  split; [exact Hone|].
  destruct (game_hostEvents es a0) as [Hreset Hkeep].
  split; [intros Hin; rewrite Hg2; unfold a1; rewrite (Hreset Hin); reflexivity|].
  split; [intros Hnot; rewrite Hg2; unfold a1; rewrite (Hkeep Hnot); reflexivity|].
  split.
  { exists (snd (executeCalls a1 calls)). split; [|exact Hn2].
    rewrite Hh2. unfold a1. rewrite Hh1. reflexivity. }
  destruct (executeCalls_logged calls a1) as (entries2 & -> & Hok2).
  unfold a1. destruct (hostEvents_logged es a0) as (entries1 & -> & Hok1).
  cbn [a0 onLog started logged]. rewrite <- !app_assoc, drop_app_length.
  assert (Hall : Forall non_terminal
            ([("Starting agent with goal: " +:+ goal, LogInfo)] ++
             [("--- Iteration 1 ---", LogInfo)] ++ entries1 ++ entries2)).
  { repeat apply Forall_app_2; try assumption;
      (constructor; [split; discriminate|constructor]). }
  rewrite Forall_forall in Hall.
  repeat split; try reflexivity; intros Hin; destruct (Hall _ Hin) as [Hc Hm]; congruence.
Qed.

(** ** Further properties: the declarations and the display *)

(** X21. A request that honours a declaration sent to the service is
    dispatched to the operation of that name with a value the operation
    knows: a direction of [move], a resource kind of [gather], an item
    with a recipe for [craft], a structure with requirements for
    [build]; it is never answered as an unknown tool, direction, item
    or structure.  The declared names are the names the dispatch knows. *)
Theorem declared_requests_are_understood
  (w : GameWorld) (d : ToolDefinition) (args : Args) :
  d ∈ toolDefinitions -> conforms d args ->
  td_name <$> toolDefinitions = toolNames /\
  ((td_name d = "move" /\
    exists dir, executeTool w (td_name d) args = move w (direction_name dir)) \/
   (td_name d = "look" /\ executeTool w (td_name d) args = look w) \/
   (td_name d = "gather" /\
    exists r, executeTool w (td_name d) args = gather w (resource_name r)) \/
   (td_name d = "craft" /\
    exists item recipe,
      table_lookup recipes item = Some recipe /\
      executeTool w (td_name d) args = craft w item) \/
   (td_name d = "build" /\
    exists name reqs,
      table_lookup buildRequirements name = Some reqs /\
      executeTool w (td_name d) args = build w name) \/
   (td_name d = "getInventory" /\ executeTool w (td_name d) args = getInventory w)).
Proof.
  intros Hd Hconf. split; [reflexivity|].
  unfold toolDefinitions in Hd.
  repeat (apply elem_of_cons in Hd as [->|Hd]); [..|inversion Hd];
    cbn [td_name]; unfold conforms in Hconf; cbn [td_properties] in Hconf.
  - left. split; [reflexivity|].
    specialize (Hconf _ (list_elem_of_here _ _)). cbn [tp_name tp_enum] in Hconf.
    change (executeTool w "move" args) with (move w (arg_string args "direction")).
    repeat (apply elem_of_cons in Hconf as [->|Hconf]); [..|inversion Hconf].
    + exists north. reflexivity.
    + exists south. reflexivity.
    + exists east. reflexivity.
    + exists west. reflexivity.
  - right. left. split; reflexivity.
  - right. right. left. split; [reflexivity|].
    specialize (Hconf _ (list_elem_of_here _ _)). cbn [tp_name tp_enum] in Hconf.
    change (executeTool w "gather" args) with (gather w (arg_string args "resource")).
    repeat (apply elem_of_cons in Hconf as [->|Hconf]); [..|inversion Hconf].
    + exists wood. reflexivity.
    + exists stone. reflexivity.
    + exists sand. reflexivity.
    + exists food. reflexivity.
  - right. right. right. left. split; [reflexivity|].
    specialize (Hconf _ (list_elem_of_here _ _)). cbn [tp_name tp_enum] in Hconf.
    change (executeTool w "craft" args) with (craft w (arg_string args "item")).
    repeat (apply elem_of_cons in Hconf as [->|Hconf]); [..|inversion Hconf];
      eexists _, _; (split; [|reflexivity]); reflexivity.
  - right. right. right. right. left. split; [reflexivity|].
    specialize (Hconf _ (list_elem_of_here _ _)). cbn [tp_name tp_enum] in Hconf.
    change (executeTool w "build" args) with (build w (arg_string args "structure")).
    repeat (apply elem_of_cons in Hconf as [->|Hconf]); [..|inversion Hconf];
      eexists _, _; (split; [|reflexivity]); reflexivity.
  - right. right. right. right. right. split; reflexivity.
Qed.

Lemma has_char_concat c sep x l :
  has_char c x = true -> has_char c (String.concat sep (x :: l)) = true.
Proof.
  intros Hx. destruct l as [|y l]; [exact Hx|].
  change (String.concat sep (x :: y :: l)) with (x +:+ sep +:+ String.concat sep (y :: l)).
  rewrite has_char_append, Hx. reflexivity.
Qed.

(** X22. The text [updateUI] shows for the inventory is "Empty" exactly
    when the inventory has no key. *)
Theorem inventory_text_empty (w : GameWorld) :
  snd (updateUI w) = "Empty" <-> inventory (agent w) = ∅.
Proof.
  unfold updateUI, getAgent. cbn [snd]. split.
  - intros Htext. apply map_to_list_empty_iff.
    destruct (map_to_list (inventory (agent w))) as [|[k c] l]; [reflexivity|].
    exfalso. rewrite fmap_cons in Htext.
    match type of Htext with
    | (if String.eqb ?s "" then _ else _) = _ =>
        assert (Hcolon : has_char ":"%char s = true)
          by (apply has_char_concat; rewrite has_char_append;
              apply orb_true_iff; right; reflexivity);
        destruct (String.eqb_spec s "") as [Heq|_];
          [rewrite Heq in Hcolon|rewrite Htext in Hcolon]; discriminate
    end.
  - intros ->. rewrite map_to_list_empty. reflexivity.
Qed.

Lemma app_reachable_catalog a : app_reachable a -> catalog_reachable (game a).
Proof.
  assert (Htool : forall w name args,
             catalog_reachable w -> catalog_reachable (fst (executeTool w name args))).
  { intros w name args Hw. eapply catalog_reachable_step; [exact Hw|constructor]. }
  induction 1 as [|a a' Ha IH Hstep]; [constructor|].
  assert (Hreset : forall w : GameWorld, catalog_reachable (reset w)).
  { intros w. eapply catalog_reachable_step; [exact IH|apply (cstep_reset (game a))]. }
  destruct Hstep.
  - apply startAgent_preserves; assumption.
  - apply start_preserves; assumption.
  - exact IH.
  - exact IH.
  - apply (Hreset (game a)).
Qed.

(** X23. In every state the application reaches (runs started through
    the host or the agent with any service behind them and any host
    events in between, stops, resets, changes of the key) the world is
    one the catalog and resets lead to from the generated world, and
    every entry of the inventory is of one of two kinds: a strictly
    positive count under a key that is not the name of a member of
    [Object.prototype], or, under the name of a function member, the
    text made of that member, which is what [craft] leaves when it is
    asked for such a name. *)
Theorem application_inventory_entries (a : Agent) :
  app_reachable a ->
  catalog_reachable (game a) /\
  forall item p,
    inventory (agent (game a)) !! item = Some p ->
    (inherited item = false /\ exists c, p = PNumber c /\ 0 < c) \/
    (item ∈ prototype_functions /\ exists added, p = PText item added).
Proof.
  intros Hreach. split; [apply app_reachable_catalog, Hreach|].
  assert (Hinv : shape_ok (game a) /\ inv_ok (game a)).
  { induction Hreach as [|a a' _ [IHs IHp] Hstep];
      [split; [apply shape_ok_createWorld|apply inv_ok_createWorld]|].
    destruct Hstep.
    - split; apply startAgent_preserves;
        solve [apply shape_ok_executeTool | apply inv_ok_executeTool
              | intros; apply shape_ok_createWorld | intros; apply inv_ok_createWorld
              | assumption].
    - split; apply start_preserves;
        solve [apply shape_ok_executeTool | apply inv_ok_executeTool
              | intros; apply shape_ok_createWorld | intros; apply inv_ok_createWorld
              | assumption].
    - split; assumption.
    - split; assumption.
    - split; [apply shape_ok_createWorld|apply inv_ok_createWorld]. }
  destruct Hinv as [Hshape Hpos]. intros item p Hp.
  specialize (Hshape item p Hp).
  destruct p as [c| |m added].
  - left. split; [exact Hshape|]. exists c. split; [reflexivity|]. apply (Hpos item c Hp).
  - destruct Hshape.
  - right. destruct Hshape as [-> Hin]. split; [exact Hin|]. exists added. reflexivity.
Qed.

(** ** Further properties: one structure per tile *)

Lemma build_occupied w name t :
  getTileAt w (position (agent w)) = Some t -> truthy_str (structure t) = true ->
  success (snd (build w name)) = false /\ fst (build w name) = w.
Proof.
  intros Ht Hocc.
  assert (Hf : success (snd (build w name)) = false).
  { unfold build, getAgent. destruct (recipe_lookup _ _) as [reqs|]; [|reflexivity].
    destruct (firstShort _ _) as [[res amount]|]; [reflexivity|].
    unfold placeStructure. rewrite Ht, Hocc. reflexivity. }
  split; [exact Hf|apply build_failure, Hf].
Qed.

(** X24. A tile takes one structure and keeps it: after a [build] that
    succeeds the tile under the agent carries that structure, and every
    further [build] there, whatever the structure asked for and
    whatever the inventory holds, fails and changes nothing (no
    resource is taken, the structure is not replaced). *)
Theorem one_structure_per_tile (w : GameWorld) (name name' : string) :
  success (snd (build w name)) = true ->
  let w1 := fst (build w name) in
  (exists t, getTileAt w1 (position (agent w1)) = Some t /\ structure t = Some name) /\
  success (snd (build w1 name')) = false /\
  fst (build w1 name') = w1.
Proof.
  cbv zeta. unfold build at 1, getAgent.
  destruct (recipe_lookup buildRequirements name) as [reqs|] eqn:Hreq; [|discriminate].
  destruct (firstShort w reqs) as [[res amount]|] eqn:Ef; [discriminate|].
  intros Hs.
  assert (Hw1 : exists t,
             getTileAt (fst (build w name)) (position (agent (fst (build w name))))
               = Some t /\ structure t = Some name).
  { unfold build, getAgent. rewrite Hreq, Ef.
    destruct (placeStructure_cases w (position (agent w)) name)
      as [E|(t & Ht & _ & _ & E)]; rewrite E in Hs |- *; [discriminate Hs|].
    cbn [negb fst].
    pose proof (buildRequirements_lookup_wf name reqs Hreq) as Hwf.
    match goal with |- context [consumeAll ?v reqs] =>
      destruct (count_consumeAll reqs v Hwf) as (Hg & Hp & _); [exact Ef|] end.
    eexists. rewrite Hp, (getTileAt_grid _ _ _ Hg). split.
    - eapply getTileAt_setTileAt, Ht.
    - reflexivity. }
  split; [exact Hw1|].
  destruct Hw1 as (t & Ht & Hst).
  apply (build_occupied _ name' t Ht).
  rewrite Hst. cbn [truthy_str].
  apply negb_true_iff, String.eqb_neq. intros ->.
  apply recipe_lookup_cases in Hreq as [Hreq|(_ & Hinh & _)]; [|discriminate Hinh].
  destruct (buildRequirements_wf "" reqs Hreq) as (_ & Hin). set_solver.
Qed.

End Titoland.


(** ** The properties at sample inputs *)

Lemma resource_depletion_invariant_witness :
  world_reachable sample_sin
    (fst (executeTool (createWorld sample_sin) "gather" [("resource", "wood")])) /\
  exists w' t',
    removeResourceFromTile
      (fst (executeTool (createWorld sample_sin) "gather" [("resource", "wood")]))
      (mkPosition 10 10) 3 = (w', true) /\
    getTileAt w' (mkPosition 10 10) = Some t' /\
    resource t' = None /\ resourceAmount t' = None.
Proof.
  assert (Hreach : world_reachable sample_sin
            (fst (executeTool (createWorld sample_sin) "gather" [("resource", "wood")])))
    by (eapply world_reachable_step; [apply world_reachable_init|apply step_executeTool]).
  split; [exact Hreach|].
  apply (proj2 (resource_depletion_invariant sample_sin _ Hreach)
               (mkPosition 10 10) (mkTile forest (Some wood) (Some 3) None) 3);
    vm_compute; reflexivity.
Defined.

Lemma gather_spec_witness :
  getTileAt (createWorld sample_sin) (mkPosition 10 10)
    = Some (mkTile forest (Some wood) (Some 8) None) /\
  data (snd (gather (createWorld sample_sin) "wood")) = Some (DataGather "wood" 5) /\
  (exists t', getTileAt (fst (gather (createWorld sample_sin) "wood")) (mkPosition 10 10)
                = Some t' /\
              resource t' = Some wood /\ resourceAmount t' = Some 3) /\
  inventory (agent (fst (gather (createWorld sample_sin) "wood"))) !! "wood"
    = Some (PNumber 5).
Proof.
  assert (Ht : getTileAt (createWorld sample_sin) (mkPosition 10 10)
               = Some (mkTile forest (Some wood) (Some 8) None))
    by (vm_compute; reflexivity).
  split; [exact Ht|].
  exact (proj2 (proj2 (proj2 (gather_spec sample_sin (createWorld sample_sin) "wood")))
               (mkTile forest (Some wood) (Some 8) None) Ht eq_refl eq_refl).
Defined.

Lemma craft_build_all_or_nothing_witness :
  recipe_lookup recipes "axe" = Some [("wood", 3); ("stone", 2)] /\
  hasInInventory sample_strip "wood" 3 = false /\
  fst (craft sample_strip "axe") = sample_strip /\
  success (snd (craft sample_strip "axe")) = false.
Proof.
  split; [reflexivity|]. split; [vm_compute; reflexivity|].
  apply (proj1 (craft_build_all_or_nothing sample_strip "axe")
               [("wood", 3); ("stone", 2)] "wood" 3).
  - reflexivity.
  - apply list_elem_of_here.
  - vm_compute; reflexivity.
Defined.

Lemma move_spec_witness :
  getTileAt sample_strip (adjacent (position (agent sample_strip)) west)
    = Some (mkTile water None None None) /\
  fst (move sample_strip "west") = sample_strip /\
  success (snd (move sample_strip "west")) = false /\
  message (snd (move sample_strip "west"))
    = "Cannot move west - obstacle or boundary in the way".
Proof.
  split; [reflexivity|].
  apply (proj1 (proj2 (move_spec sample_strip)) west).
  right. exists (mkTile water None None None). split; reflexivity.
Defined.

Lemma agent_position_on_land_witness :
  world_reachable sample_sin
    (fst (executeTool (createWorld sample_sin) "move" [("direction", "north")])) /\
  position (agent (fst (executeTool (createWorld sample_sin) "move"
                                    [("direction", "north")]))) = mkPosition 10 9 /\
  exists t,
    getTileAt (fst (executeTool (createWorld sample_sin) "move" [("direction", "north")]))
              (position (agent (fst (executeTool (createWorld sample_sin) "move"
                                                 [("direction", "north")]))))
      = Some t /\ terrain t <> water.
Proof.
  assert (Hreach : world_reachable sample_sin
            (fst (executeTool (createWorld sample_sin) "move" [("direction", "north")])))
    by (eapply world_reachable_step; [apply world_reachable_init|apply step_executeTool]).
  split; [exact Hreach|]. split; [vm_compute; reflexivity|].
  apply (agent_position_on_land sample_sin _ Hreach).
Defined.

Lemma inventory_entries_positive_witness :
  inventory_reachable sample_sin
    (fst (executeTool (createWorld sample_sin) "gather" [("resource", "wood")])) /\
  inherited "wood" = false /\
  inventory (agent (fst (executeTool (createWorld sample_sin) "gather"
                                     [("resource", "wood")]))) !! "wood"
    = Some (PNumber 5) /\
  exists c, PNumber 5 = PNumber c /\ 0 < c.
Proof.
  assert (Hreach : inventory_reachable sample_sin
            (fst (executeTool (createWorld sample_sin) "gather" [("resource", "wood")])))
    by (eapply inventory_reachable_step;
        [apply inventory_reachable_init|apply istep_catalog, cstep_executeTool]).
  assert (Hown : inherited "wood" = false) by (vm_compute; reflexivity).
  assert (Hwood : inventory (agent (fst (executeTool (createWorld sample_sin) "gather"
                                     [("resource", "wood")]))) !! "wood"
                  = Some (PNumber 5))
    by (vm_compute; reflexivity).
  split; [exact Hreach|]. split; [exact Hown|]. split; [exact Hwood|].
  exact (inventory_entries_positive sample_sin _ Hreach "wood" (PNumber 5) Hown Hwood).
Defined.

(** C6, as the claim has it, fails twice over.  A credit of amount 0
    for a key the inventory does not hold stores the key with count 0.
    And [craft] asked for [toString] on the generated world succeeds,
    [recipes["toString"]] being the inherited function, and leaves
    under that key an entry that is no count at all: the text of the
    function followed by "1". *)
Lemma stored_entries_not_all_positive :
  catalog_reachable sample_sin (createWorld sample_sin) /\
  0 <= 0 /\
  inventory (agent (addToInventory (createWorld sample_sin) "wood" 0)) !! "wood"
    = Some (PNumber 0) /\
  ~ inventory_positive
      (inventory (agent (addToInventory (createWorld sample_sin) "wood" 0))) /\
  catalog_reachable sample_sin
    (fst (executeTool (createWorld sample_sin) "craft" [("item", "toString")])) /\
  success (snd (executeTool (createWorld sample_sin) "craft" [("item", "toString")])) = true /\
  inventory (agent (fst (executeTool (createWorld sample_sin) "craft"
                                     [("item", "toString")]))) !! "toString"
    = Some (PText "toString" "1") /\
  js_render (Prim (PText "toString" "1")) = "function toString() { [native code] }1".
Proof.
  assert (Hzero : inventory (agent (addToInventory (createWorld sample_sin) "wood" 0))
                    !! "wood" = Some (PNumber 0)) by (vm_compute; reflexivity).
  split; [apply catalog_reachable_init|]. split; [lia|]. split; [exact Hzero|].
  split; [intros Hpos; specialize (Hpos "wood" 0 Hzero); lia|].
  split; [eapply catalog_reachable_step;
            [apply catalog_reachable_init|apply cstep_executeTool]|].
  repeat split; vm_compute; reflexivity.
Qed.

Lemma fly_service_unknown (h : list GeminiContent) : unknown_round (fly_service h).
Proof.
  split; [reflexivity|]. split; [reflexivity|].
  exists {| role := model; parts := Some [sample_call "fly" []] |}, "fly", [].
  split; [reflexivity|]. split; [reflexivity|].
  unfold toolNames. rewrite !not_elem_of_cons.
  repeat split; try discriminate. apply not_elem_of_nil.
Qed.

Lemma unknown_operations_reach_max_iterations_witness :
  apiKey (setApiKey (newAgent (createWorld sample_sin)) "key") <> "" /\
  (forall h, unknown_round (fly_service h)) /\
  fst (whileLoop sample_sin (Z.to_nat maxIterations) fly_service 0
         (started (setApiKey (newAgent (createWorld sample_sin)) "key") "fly away")) = 30 /\
  isRunning (start sample_sin fly_service
               (setApiKey (newAgent (createWorld sample_sin)) "key") "fly away") = false /\
  exists calls,
    length calls = 30%nat /\
    conversationHistory
      (start sample_sin fly_service
         (setApiKey (newAgent (createWorld sample_sin)) "key") "fly away")
      = prompt_turn "fly away" :: round_turns (unknown_outcome <$> calls) /\
    take 3 (conversationHistory
              (start sample_sin fly_service
                 (setApiKey (newAgent (createWorld sample_sin)) "key") "fly away"))
      = [ prompt_turn "fly away";
          calls_turn [("fly", [])];
          outcomes_turn [ {| fr_name := "fly";
                             fr_response := fail_result "Unknown tool: fly" |} ] ].
Proof.
  assert (Hkey : apiKey (setApiKey (newAgent (createWorld sample_sin)) "key") <> "")
    by discriminate.
  split; [exact Hkey|]. split; [exact fly_service_unknown|].
  pose proof (unknown_operations_reach_max_iterations sample_sin fly_service
                (setApiKey (newAgent (createWorld sample_sin)) "key") "fly away"
                Hkey fly_service_unknown) as H.
  cbv zeta in H.
  destruct H as (_ & _ & Hrounds & (calls & Hlen & _ & _ & Hhist & _) & _ & _ & Hoff & _).
  split; [exact Hrounds|]. split; [exact Hoff|].
  exists calls. split; [exact Hlen|]. split; [exact Hhist|].
  vm_compute. reflexivity.
Defined.

Lemma start_rejects_missing_configuration_witness :
  apiKey (newAgent (createWorld sample_sin)) = "" /\
  trim (" " +:+ nbsp +:+ " ") = "" /\
  rejected (newAgent (createWorld sample_sin))
           (start sample_sin done_service (newAgent (createWorld sample_sin)) "rest")
           "Error: API key not provided" /\
  rejected (newAgent (createWorld sample_sin))
           (startAgent sample_sin done_service (newAgent (createWorld sample_sin))
                       (" " +:+ nbsp +:+ " ") "key")
           "Please enter a goal for the agent" /\
  trim "rest" <> "" /\ trim nbsp = "" /\
  rejected (newAgent (createWorld sample_sin))
           (startAgent sample_sin done_service (newAgent (createWorld sample_sin))
                       "rest" nbsp)
           "Please enter your Gemini API key".
Proof.
  assert (Hgoal : trim "rest" <> "") by (vm_compute; discriminate).
  assert (Hblank : trim nbsp = "") by (vm_compute; reflexivity).
  split; [reflexivity|]. split; [vm_compute; reflexivity|]. split; [|split].
  - apply (proj1 (start_rejects_missing_configuration sample_sin done_service
                    (newAgent (createWorld sample_sin)) "rest" "   " "key")).
    reflexivity.
  - apply (proj1 (proj2 (start_rejects_missing_configuration sample_sin done_service
                           (newAgent (createWorld sample_sin)) "rest"
                           (" " +:+ nbsp +:+ " ") "key"))).
    vm_compute. reflexivity.
  - split; [exact Hgoal|]. split; [exact Hblank|].
    exact (proj2 (proj2 (start_rejects_missing_configuration sample_sin done_service
                           (newAgent (createWorld sample_sin)) "rest" "rest" nbsp))
                 Hgoal Hblank).
Defined.

(** C9, as the claim has it, fails: with a credential, [start] runs
    with an empty goal; it sets the running flag, creates the first turn
    of the conversation and makes a round. *)
Lemma start_accepts_empty_goal :
  isRunning (setApiKey (newAgent (createWorld sample_sin)) "key") = false /\
  conversationHistory (setApiKey (newAgent (createWorld sample_sin)) "key") = [] /\
  isRunning (started (setApiKey (newAgent (createWorld sample_sin)) "key") "") = true /\
  length (conversationHistory
            (start sample_sin done_service
               (setApiKey (newAgent (createWorld sample_sin)) "key") "")) = 1%nat /\
  logged (start sample_sin done_service
            (setApiKey (newAgent (createWorld sample_sin)) "key") "") =
    [ ("Starting agent with goal: ", LogInfo);
      ("--- Iteration 1 ---", LogInfo);
      ("Agent: done", LogSuccess);
      ("Agent completed its task", LogSuccess) ].
Proof.
  repeat split; vm_compute; reflexivity.
Qed.

Lemma isActive_always_false_witness :
  agent_reachable sample_sin
    (start sample_sin fly_service
       (setApiKey (newAgent (createWorld sample_sin)) "key") "fly away") /\
  isActive (agent (game (start sample_sin fly_service
       (setApiKey (newAgent (createWorld sample_sin)) "key") "fly away"))) = false.
Proof.
  assert (Hreach : agent_reachable sample_sin
            (start sample_sin fly_service
               (setApiKey (newAgent (createWorld sample_sin)) "key") "fly away")).
  { eapply agent_reachable_step; [|apply astep_start].
    eapply agent_reachable_step; [apply agent_reachable_init|apply astep_setApiKey]. }
  split; [exact Hreach|].
  exact (proj1 (isActive_always_false sample_sin _ Hreach)).
Defined.

(** C8, where the code departs from it.  The service asks for an
    unknown operation in rounds 1 to 29 and answers round 30 with a
    text and no operation.  The loop logs the text and the completion
    entry and executes nothing in that round, as the claim says, but
    the check after the loop then logs "Reached maximum iterations" as
    well: the run ends with the entries of both terminal states. *)
Theorem completion_in_last_round :
  fst (whileLoop sample_sin (Z.to_nat maxIterations) late_service 0
         (started (setApiKey (newAgent (createWorld sample_sin)) "key") "rest")) = 30 /\
  length (conversationHistory
            (start sample_sin late_service
               (setApiKey (newAgent (createWorld sample_sin)) "key") "rest")) = 59%nat /\
  response (late_service
              (conversationHistory
                 (start sample_sin late_service
                    (setApiKey (newAgent (createWorld sample_sin)) "key") "rest")))
    = ServiceReturns
        (Some {| role := model;
                 parts := Some [Part {| text := Some "done"; functionCall := None |}] |}) /\
  extractFunctionCalls
    (Some {| role := model;
             parts := Some [Part {| text := Some "done"; functionCall := None |}] |}) = [] /\
  game (start sample_sin late_service
          (setApiKey (newAgent (createWorld sample_sin)) "key") "rest")
    = createWorld sample_sin /\
  drop 59 (logged (start sample_sin late_service
                     (setApiKey (newAgent (createWorld sample_sin)) "key") "rest")) =
    [ ("--- Iteration 30 ---", LogInfo);
      ("Agent: done", LogSuccess);
      completed_entry;
      max_iterations_entry ].
Proof. repeat split; vm_compute; reflexivity. Qed.

(** ** The further properties at sample inputs *)

Lemma getTileAt_total_on_grid_witness :
  world_reachable sample_sin
    (fst (executeTool (createWorld sample_sin) "gather" [("resource", "wood")])) /\
  getTileAt (fst (executeTool (createWorld sample_sin) "gather" [("resource", "wood")]))
            (mkPosition 20 3) = None.
Proof.
  assert (Hreach : world_reachable sample_sin
            (fst (executeTool (createWorld sample_sin) "gather" [("resource", "wood")])))
    by (eapply world_reachable_step; [apply world_reachable_init|apply step_executeTool]).
  split; [exact Hreach|].
  apply (proj2 (proj2 (proj2 (proj2
           (getTileAt_total_on_grid sample_sin _ (mkPosition 20 3) Hreach))))).
  reflexivity.
Defined.

Lemma createWorld_profile_witness :
  0 <= 10 < gridSize /\ 0 <= 9 < gridSize /\
  exists t,
    getTileAt (createWorld sample_sin) (mkPosition 10 9) = Some t /\
    structure t = None /\
    (forall r, resource t = Some r ->
       terrain t = terrain_of r /\
       exists q, resourceAmount t = Some q /\ least_amount r <= q) /\
    ((10 < 2 \/ gridSize - 2 <= 10 \/ 9 < 2 \/ gridSize - 2 <= 9) ->
     resource t = None /\ (terrain t = water \/ terrain t = grass)) /\
    (2 <= 10 < gridSize - 2 -> 2 <= 9 < gridSize - 2 -> terrain t <> water).
Proof.
  assert (H10 : 0 <= 10 < gridSize) by (unfold gridSize; lia).
  assert (H9 : 0 <= 9 < gridSize) by (unfold gridSize; lia).
  split; [exact H10|]. split; [exact H9|].
  exact (createWorld_profile sample_sin 10 9 H10 H9).
Defined.

Lemma catalog_touches_only_agent_tile_witness :
  getTileAt (fst (executeTool (createWorld sample_sin) "gather" [("resource", "wood")]))
            (mkPosition 10 9)
    = getTileAt (createWorld sample_sin) (mkPosition 10 9).
Proof.
  apply (proj1 (catalog_touches_only_agent_tile (createWorld sample_sin) "gather"
                  [("resource", "wood")]) (mkPosition 10 9)).
  discriminate.
Defined.

Lemma structures_persist_witness :
  getTileAt (setTileAt sample_strip (mkPosition 1 0)
                       (mkTile grass None None (Some "shelter"))) (mkPosition 1 0)
    = Some (mkTile grass None None (Some "shelter")) /\
  exists t',
    getTileAt (fst (executeTool (setTileAt sample_strip (mkPosition 1 0)
                                           (mkTile grass None None (Some "shelter")))
                                "build" [("structure", "campfire")])) (mkPosition 1 0)
      = Some t' /\
    structure t' = Some "shelter".
Proof.
  split; [reflexivity|].
  apply (structures_persist _ "build" [("structure", "campfire")] (mkPosition 1 0)
           (mkTile grass None None (Some "shelter")) "shelter");
    [reflexivity|reflexivity|discriminate].
Defined.

Lemma tiles_descend_from_generated_witness :
  catalog_reachable sample_sin
    (fst (executeTool (createWorld sample_sin) "gather" [("resource", "wood")])) /\
  getTileAt (fst (executeTool (createWorld sample_sin) "gather" [("resource", "wood")]))
            (mkPosition 10 10) = Some (mkTile forest (Some wood) (Some 3) None) /\
  exists t0,
    getTileAt (createWorld sample_sin) (mkPosition 10 10) = Some t0 /\
    terrain (mkTile forest (Some wood) (Some 3) None) = terrain t0 /\
    forall r q,
      resource (mkTile forest (Some wood) (Some 3) None) = Some r ->
      resourceAmount (mkTile forest (Some wood) (Some 3) None) = Some q ->
      resource t0 = Some r /\
      terrain (mkTile forest (Some wood) (Some 3) None) = terrain_of r /\
      exists q0, resourceAmount t0 = Some q0 /\ 0 < q <= q0.
Proof.
  assert (Hreach : catalog_reachable sample_sin
            (fst (executeTool (createWorld sample_sin) "gather" [("resource", "wood")])))
    by (eapply catalog_reachable_step; [apply catalog_reachable_init|apply cstep_executeTool]).
  assert (Ht : getTileAt (fst (executeTool (createWorld sample_sin) "gather"
                                           [("resource", "wood")]))
                 (mkPosition 10 10) = Some (mkTile forest (Some wood) (Some 3) None))
    by (vm_compute; reflexivity).
  split; [exact Hreach|]. split; [exact Ht|].
  exact (tiles_descend_from_generated sample_sin _ _ _ Hreach Ht).
Defined.

Lemma credit_then_debit_witness :
  inherited "wood" = false /\
  inventory (agent (stocked_world sample_sin)) !! "wood" = Some (PNumber 5) /\
  safe 4 /\ safe (count (stocked_world sample_sin) "wood") /\
  safe (count (stocked_world sample_sin) "wood" + 4) /\
  removeFromInventory (addToInventory (stocked_world sample_sin) "wood" 4) "wood" 4
    = (stocked_world sample_sin, true).
Proof.
  assert (Hown : inherited "wood" = false) by (vm_compute; reflexivity).
  assert (Hwood : inventory (agent (stocked_world sample_sin)) !! "wood" = Some (PNumber 5))
    by (vm_compute; reflexivity).
  assert (Hpos : forall p, inventory (agent (stocked_world sample_sin)) !! "wood" = Some p ->
                           exists c, p = PNumber c /\ 0 < c).
  { intros p Hp. rewrite Hwood in Hp. injection Hp as <-. exists 5. split; [reflexivity|lia]. }
  assert (H4 : safe 4) by (unfold safe; lia).
  assert (Hc : safe (count (stocked_world sample_sin) "wood"))
    by (vm_compute; split; discriminate).
  assert (Hsum : safe (count (stocked_world sample_sin) "wood" + 4))
    by (vm_compute; split; discriminate).
  split; [exact Hown|]. split; [exact Hwood|]. split; [exact H4|].
  split; [exact Hc|]. split; [exact Hsum|].
  exact (credit_then_debit (stocked_world sample_sin) "wood" 4
           Hown Hpos H4 Hc Hsum).
Defined.


Lemma debit_agrees_with_hasInInventory_witness :
  0 < 2 /\
  snd (removeFromInventory sample_strip "wood" 2) = hasInInventory sample_strip "wood" 2.
Proof.
  assert (H : 0 < 2) by lia.
  split; [exact H|]. exact (proj1 (debit_agrees_with_hasInInventory sample_strip "wood" 2 H)).
Defined.

Lemma craft_spec_witness :
  table_lookup recipes "axe" = Some [("wood", 3); ("stone", 2)] /\
  success (snd (craft (stocked_world sample_sin) "axe")) = true /\
  inventory (agent (fst (craft (stocked_world sample_sin) "axe"))) !! "axe"
    = Some (PNumber 1) /\
  count (fst (craft (stocked_world sample_sin) "axe")) "wood" = 2 /\
  inherited "toString" = true /\
  success (snd (craft (createWorld sample_sin) "toString")) = true /\
  inventory (agent (fst (craft (createWorld sample_sin) "toString"))) !! "toString"
    = Some (PText "toString" "1").
Proof.
  assert (Hs : success (snd (craft (stocked_world sample_sin) "axe")) = true)
    by (vm_compute; reflexivity).
  assert (Hinh : inherited "toString" = true) by (vm_compute; reflexivity).
  assert (Hnone : inventory (agent (createWorld sample_sin)) !! "toString" = None)
    by (vm_compute; reflexivity).
  split; [reflexivity|]. split; [exact Hs|].
  pose proof (proj1 (proj2 (craft_spec (stocked_world sample_sin) "axe"))
                [("wood", 3); ("stone", 2)] eq_refl Hs) as (Hitem & _ & Hother & _).
  split; [rewrite Hitem; vm_compute; reflexivity|].
  split; [rewrite (Hother "wood") by discriminate; vm_compute; reflexivity|].
  split; [exact Hinh|].
  pose proof (proj1 (proj2 (proj2 (craft_spec (createWorld sample_sin) "toString")))
                Hinh) as (_ & Hcraft & Hentry).
  split; [rewrite Hcraft; reflexivity|].
  exact (proj1 (Hentry Hnone)).
Defined.

Lemma build_spec_witness :
  recipe_lookup buildRequirements "campfire" = Some [("wood", 3); ("stone", 2)] /\
  getTileAt (stocked_world sample_sin) (mkPosition 10 10)
    = Some (mkTile forest (Some wood) (Some 8) None) /\
  success (snd (build (stocked_world sample_sin) "campfire")) = true /\
  getTileAt (fst (build (stocked_world sample_sin) "campfire")) (mkPosition 10 10)
    = Some (mkTile forest (Some wood) (Some 8) (Some "campfire")) /\
  count (fst (build (stocked_world sample_sin) "campfire")) "wood" = 2 /\
  inherited "constructor" = true /\
  success (snd (build (createWorld sample_sin) "constructor")) = true /\
  fst (build (createWorld sample_sin) "constructor")
    = setTileAt (createWorld sample_sin) (mkPosition 10 10)
                (mkTile forest (Some wood) (Some 8) (Some "constructor")).
Proof.
  assert (Hs : success (snd (build (stocked_world sample_sin) "campfire")) = true)
    by (vm_compute; reflexivity).
  assert (Ht : getTileAt (stocked_world sample_sin)
                 (position (agent (stocked_world sample_sin)))
               = Some (mkTile forest (Some wood) (Some 8) None))
    by (vm_compute; reflexivity).
  assert (Ht0 : getTileAt (createWorld sample_sin)
                  (position (agent (createWorld sample_sin)))
                = Some (mkTile forest (Some wood) (Some 8) None))
    by (vm_compute; reflexivity).
  assert (Hinh : inherited "constructor" = true) by (vm_compute; reflexivity).
  split; [reflexivity|]. split; [exact Ht|]. split; [exact Hs|].
  pose proof (proj1 (proj2 (build_spec (stocked_world sample_sin) "campfire"))
                [("wood", 3); ("stone", 2)] (mkTile forest (Some wood) (Some 8) None)
                eq_refl Ht Hs) as (Htile & Hcount & _).
  split; [exact Htile|].
  split; [rewrite (Hcount "wood"); vm_compute; reflexivity|].
  split; [exact Hinh|].
  exact (proj1 (proj2 (proj2 (proj2 (build_spec (createWorld sample_sin)
                                       "constructor"))))
               Hinh (mkTile forest (Some wood) (Some 8) None) Ht0 eq_refl
               ltac:(discriminate)).
Defined.

Lemma failed_operation_changes_nothing_witness :
  success (snd (executeTool sample_strip "move" [("direction", "west")])) = false /\
  fst (executeTool sample_strip "move" [("direction", "west")]) = sample_strip.
Proof.
  assert (H : success (snd (executeTool sample_strip "move" [("direction", "west")])) = false)
    by reflexivity.
  split; [exact H|].
  exact (proj1 (failed_operation_changes_nothing sample_strip "move"
                  [("direction", "west")]) H).
Defined.

Lemma missing_argument_fails_witness :
  arg_string [("speed", "fast")] "direction" = "" /\
  executeTool sample_strip "move" [("speed", "fast")] =
    (sample_strip,
     fail_result "Invalid direction: . Must be one of: north, south, east, west").
Proof.
  split; [reflexivity|].
  apply (proj1 (proj2 (missing_argument_fails sample_strip [("speed", "fast")]))).
  reflexivity.
Defined.

Lemma move_and_back_witness :
  getTileAt (createWorld sample_sin) (position (agent (createWorld sample_sin)))
    = Some (mkTile forest (Some wood) (Some 8) None) /\
  success (snd (move (createWorld sample_sin) (direction_name north))) = true /\
  fst (move (fst (move (createWorld sample_sin) (direction_name north)))
            (direction_name (opposite north))) = createWorld sample_sin.
Proof.
  assert (Ht : getTileAt (createWorld sample_sin) (position (agent (createWorld sample_sin)))
               = Some (mkTile forest (Some wood) (Some 8) None))
    by (vm_compute; reflexivity).
  assert (Hs : success (snd (move (createWorld sample_sin) (direction_name north))) = true)
    by (vm_compute; reflexivity).
  split; [exact Ht|]. split; [exact Hs|].
  apply (move_and_back (createWorld sample_sin) north
           (mkTile forest (Some wood) (Some 8) None) Ht); [discriminate|exact Hs].
Defined.

Lemma repeated_gather_witness :
  getTileAt (createWorld sample_sin) (position (agent (createWorld sample_sin)))
    = Some (mkTile forest (Some wood) (Some 8) None) /\
  0 < 8 /\
  numeric_at (createWorld sample_sin) "wood" /\
  count (gatherN 3 (createWorld sample_sin) "wood") "wood"
    = count (createWorld sample_sin) "wood" + 8.
Proof.
  assert (Ht : getTileAt (createWorld sample_sin) (position (agent (createWorld sample_sin)))
               = Some (mkTile forest (Some wood) (Some 8) None))
    by (vm_compute; reflexivity).
  assert (Hq : 0 < 8) by lia.
  assert (Hnum : numeric_at (createWorld sample_sin) "wood")
    by (intros p Hp; vm_compute in Hp; discriminate Hp).
  split; [exact Ht|]. split; [exact Hq|]. split; [exact Hnum|].
  exact (proj1 (proj2 (repeated_gather 3 (createWorld sample_sin) "wood"
                         (mkTile forest (Some wood) (Some 8) None) wood 8
                         Ht eq_refl eq_refl eq_refl Hq Hnum)) "wood").
Defined.

Lemma conversation_structure_witness :
  apiKey (setApiKey (newAgent (createWorld sample_sin)) "key") <> "" /\
  exists rounds,
    conversationHistory (start sample_sin fly_service
                           (setApiKey (newAgent (createWorld sample_sin)) "key") "fly away")
      = prompt_turn "fly away" :: round_turns rounds /\
    Forall round_ok rounds /\
    (length rounds <= 30)%nat /\
    length (conversationHistory
              (start sample_sin fly_service
                 (setApiKey (newAgent (createWorld sample_sin)) "key") "fly away"))
      = (1 + 2 * length rounds)%nat.
Proof.
  assert (Hkey : apiKey (setApiKey (newAgent (createWorld sample_sin)) "key") <> "")
    by discriminate.
  split; [exact Hkey|].
  exact (conversation_structure sample_sin fly_service _ "fly away" Hkey).
Defined.

Lemma service_failure_ends_run_witness :
  apiKey (setApiKey (newAgent (createWorld sample_sin)) "key") <> "" /\
  service_error (response (down_service [prompt_turn "rest"]))
    = Some "Error: Error: Gemini API error: 503 - unavailable" /\
  logged (start sample_sin down_service
            (setApiKey (newAgent (createWorld sample_sin)) "key") "rest") =
    [ ("Starting agent with goal: rest", LogInfo);
      ("--- Iteration 1 ---", LogInfo);
      ("Error: Error: Gemini API error: 503 - unavailable", LogError) ].
Proof.
  assert (Hkey : apiKey (setApiKey (newAgent (createWorld sample_sin)) "key") <> "")
    by discriminate.
  split; [exact Hkey|]. split; [reflexivity|].
  exact (proj1 (proj2 (service_failure_ends_run sample_sin down_service _ "rest" _
                         Hkey eq_refl eq_refl))).
Defined.

Lemma host_event_ends_run_after_round_witness :
  apiKey (setApiKey (newAgent (createWorld sample_sin)) "key") <> "" /\
  duringCall (stopped_service [prompt_turn "wood"]) <> [] /\
  game (start sample_sin stopped_service
          (setApiKey (newAgent (createWorld sample_sin)) "key") "wood")
    = runCalls (createWorld sample_sin) [("gather", [("resource", "wood")])] /\
  isRunning (start sample_sin stopped_service
               (setApiKey (newAgent (createWorld sample_sin)) "key") "wood") = false.
Proof.
  assert (Hkey : apiKey (setApiKey (newAgent (createWorld sample_sin)) "key") <> "")
    by discriminate.
  assert (Hes : duringCall (stopped_service [prompt_turn "wood"]) <> []) by discriminate.
  assert (Hcalls : extractFunctionCalls
            (Some {| role := model;
                     parts := Some [sample_call "gather" [("resource", "wood")]] |}) <> [])
    by discriminate.
  split; [exact Hkey|]. split; [exact Hes|].
  pose proof (host_event_ends_run_after_round sample_sin stopped_service _ "wood" _
                Hkey Hes eq_refl eq_refl Hcalls) as H.
  cbv zeta in H. destruct H as (_ & _ & Hkeep & _ & _ & _ & Hoff).
  split; [|exact Hoff]. apply Hkeep.
  cbn. rewrite list_elem_of_singleton. discriminate.
Defined.

Lemma declared_requests_are_understood_witness :
  (exists d,
     d ∈ toolDefinitions /\ td_name d = "craft" /\
     conforms d [("item", "axe")] /\
     arg_string [("item", "axe")] "item" ∈ ["axe"; "pickaxe"; "campfire"]) /\
  executeTool (createWorld sample_sin) "craft" [("item", "axe")]
    = craft (createWorld sample_sin) "axe" /\
  message (snd (executeTool (createWorld sample_sin) "craft" [("item", "axe")]))
    = "Need 3 wood to craft axe, but only have 0".
Proof.
  assert (Hd : exists d, nth_error toolDefinitions 3 = Some d /\ td_name d = "craft")
    by (eexists; split; reflexivity).
  destruct Hd as (d & Hnth & Hname).
  assert (Hin : d ∈ toolDefinitions)
    by (apply list_elem_of_In; eapply nth_error_In; exact Hnth).
  assert (Hc : conforms d [("item", "axe")]).
  { injection Hnth as <-. intros p Hp. cbn [td_properties] in Hp.
    apply list_elem_of_singleton in Hp. subst p. apply list_elem_of_here. }
  split.
  - exists d. split; [exact Hin|]. split; [exact Hname|]. split; [exact Hc|].
    apply list_elem_of_here.
  - split; [|vm_compute; reflexivity].
    destruct (proj2 (declared_requests_are_understood
                       (createWorld sample_sin) d [("item", "axe")] Hin Hc))
      as [[Hn _]|[[Hn _]|[[Hn _]|[[_ (item & recipe & _ & H)]|[[Hn _]|[Hn _]]]]]];
      try (rewrite Hname in Hn; discriminate Hn).
    reflexivity.
Defined.

Lemma application_inventory_entries_witness :
  app_reachable sample_sin
    (startAgent sample_sin toString_service (newAgent (createWorld sample_sin))
                " craft something " "key") /\
  inventory (agent (game (startAgent sample_sin toString_service
                            (newAgent (createWorld sample_sin))
                            " craft something " "key"))) !! "toString"
    = Some (PText "toString" "1") /\
  ((inherited "toString" = false /\ exists c, PText "toString" "1" = PNumber c /\ 0 < c) \/
   ("toString" ∈ prototype_functions /\
    exists added, PText "toString" "1" = PText "toString" added)).
Proof.
  assert (Hreach : app_reachable sample_sin
            (startAgent sample_sin toString_service (newAgent (createWorld sample_sin))
                        " craft something " "key"))
    by (eapply app_reachable_step; [apply app_reachable_init|apply app_startAgent]).
  assert (Hentry : inventory (agent (game (startAgent sample_sin toString_service
                            (newAgent (createWorld sample_sin))
                            " craft something " "key"))) !! "toString"
                   = Some (PText "toString" "1"))
    by (vm_compute; reflexivity).
  split; [exact Hreach|]. split; [exact Hentry|].
  exact (proj2 (application_inventory_entries sample_sin _ Hreach) "toString" _ Hentry).
Defined.

Lemma one_structure_per_tile_witness :
  success (snd (build (addToInventory (stocked_world sample_sin) "wood" 3) "campfire"))
    = true /\
  hasInInventory (fst (build (addToInventory (stocked_world sample_sin) "wood" 3)
                             "campfire")) "wood" 3 = true /\
  hasInInventory (fst (build (addToInventory (stocked_world sample_sin) "wood" 3)
                             "campfire")) "stone" 2 = true /\
  success (snd (build (fst (build (addToInventory (stocked_world sample_sin) "wood" 3)
                                  "campfire"))
                      "campfire")) = false.
Proof.
  assert (Hs : success (snd (build (addToInventory (stocked_world sample_sin) "wood" 3)
                                   "campfire")) = true)
    by (vm_compute; reflexivity).
  split; [exact Hs|]. split; [vm_compute; reflexivity|]. split; [vm_compute; reflexivity|].
  exact (proj1 (proj2 (one_structure_per_tile
                         (addToInventory (stocked_world sample_sin) "wood" 3)
                         "campfire" "campfire" Hs))).
Defined.

Lemma completion_ends_run_witness :
  apiKey (setApiKey (newAgent (createWorld sample_sin)) "key") <> "" /\
  (exists b,
     loop_state sample_sin second_round_service
       (started (setApiKey (newAgent (createWorld sample_sin)) "key") "rest") 1 b /\
     isRunning b = true /\
     response (second_round_service (conversationHistory b))
       = ServiceReturns
           (Some {| role := model;
                    parts := Some [Part {| text := Some "done";
                                           functionCall := None |}] |})) /\
  fst (whileLoop sample_sin (Z.to_nat maxIterations) second_round_service 0
         (started (setApiKey (newAgent (createWorld sample_sin)) "key") "rest")) = 2 /\
  logged (start sample_sin second_round_service
            (setApiKey (newAgent (createWorld sample_sin)) "key") "rest") =
    [ ("Starting agent with goal: rest", LogInfo);
      ("--- Iteration 1 ---", LogInfo);
      ("fly({}): Unknown tool: fly", LogError);
      ("--- Iteration 2 ---", LogInfo);
      ("Agent: done", LogSuccess);
      ("Agent completed its task", LogSuccess) ].
Proof.
  assert (Hkey : apiKey (setApiKey (newAgent (createWorld sample_sin)) "key") <> "")
    by discriminate.
  assert (Hstate : exists b,
            loop_state sample_sin second_round_service
              (started (setApiKey (newAgent (createWorld sample_sin)) "key") "rest") 1 b /\
            isRunning b = true /\
            response (second_round_service (conversationHistory b))
              = ServiceReturns
                  (Some {| role := model;
                           parts := Some [Part {| text := Some "done";
                                                  functionCall := None |}] |})).
  { eexists. split; [|split].
    - apply (loop_state_next sample_sin second_round_service _ 0 _ _
               (loop_state_first sample_sin second_round_service _));
        [reflexivity|reflexivity|reflexivity].
    - reflexivity.
    - reflexivity. }
  split; [exact Hkey|]. split; [exact Hstate|].
  destruct Hstate as (b & Hb & Hrun & Hresp).
  pose proof (completion_ends_run sample_sin second_round_service
                (setApiKey (newAgent (createWorld sample_sin)) "key") "rest" 1 b _
                Hkey Hb Hrun ltac:(reflexivity) Hresp eq_refl) as H.
  cbv zeta in H. destruct H as (Hrounds & _ & _ & _ & _).
  split; [exact Hrounds|]. vm_compute. reflexivity.
Defined.
